(** * AnimationData: a shallow embedding of the animation data core

    The development follows [src/animation-data/AnimationData.ts] (the variant
    with the batch-scanning [getEntityPath] and the full cache clear on
    activation), its interface declarations and the [FileReader] collaborator.

    Conventions of the embedding.
    - A JavaScript [Map] is an association list in insertion order: [set] on a
      present key replaces the value in place, on an absent key appends.
    - A plain object used as a dictionary ([EntityPathBatch]) is the list of its
      own enumerable entries, in [Object.entries] order.  [Object.entries] sees
      the own entries only; a property read [batch[entityId]] follows the
      prototype chain, so for a name that is not an own key it finds the member
      of [Object.prototype] of that name, if there is one ([PropertyValue],
      [batch_get]).
    - A parsed document has the shape its interface declares, with one
      exception that the code can meet on its way: a manifest document that is
      truthy but has no [metadata] ([WithoutMetadata]), on which the property
      read [manifest.metadata.replication] throws a [TypeError].  A method that
      can throw settles as [Fulfilled] or [Rejected] ([Settled]).
    - Numbers read from documents are exact rationals ([Q]); the result of an
      arithmetic expression is a [number], which adds the IEEE special values
      that a division by zero produces.  Comparisons and filters are stated
      there.  The interpolation expression of [getStatisticValueAtTime], whose
      result depends on rounding and overflow, is also evaluated on doubles, in
      [Binary64], and the statement about its value at a sample is made there.
    - [async] methods are computations in a small state monad over the object
      and a log of the Content Accessor calls they make. *)

From Stdlib Require Import List String Ascii Bool Arith ZArith QArith Qfield Lia Permutation.
From Stdlib Require Floats.
Import ListNotations.

Set Implicit Arguments.

(* ================================================================== *)
(** ** JavaScript values used by the code *)

(** *** Key equality (SameValueZero on strings and integers) *)

Class KeyEq (K : Type) := {
  key_eqb : K -> K -> bool;
  key_eqb_eq : forall a b, key_eqb a b = true <-> a = b
}.

#[export] Instance KeyEq_string : KeyEq string :=
  {| key_eqb := String.eqb; key_eqb_eq := String.eqb_eq |}.

#[export] Instance KeyEq_Z : KeyEq Z :=
  {| key_eqb := Z.eqb; key_eqb_eq := Z.eqb_eq |}.

(** *** [Map<K, V>] with insertion order *)

Section JsMap.
Context {K V : Type} `{KeyEq K}.

Definition Map := list (K * V).

Fixpoint map_get (k : K) (m : Map) : option V :=
    match m with
    | [] => None
    | (k', v) :: rest => if key_eqb k k' then Some v else map_get k rest
    end.

Definition map_has (k : K) (m : Map) : bool :=
    match map_get k m with Some _ => true | None => false end.

Fixpoint map_set (k : K) (v : V) (m : Map) : Map :=
    match m with
    | [] => [(k, v)]
    | (k', v') :: rest =>
        if key_eqb k k' then (k', v) :: rest else (k', v') :: map_set k v rest
    end.

Definition map_clear (m : Map) : Map := [].

Definition map_keys (m : Map) : list K := map fst m.

Definition map_values (m : Map) : list V := map snd m.
End JsMap.

Arguments Map : clear implicits.

(** *** Truthiness of a string: only the empty string is falsy *)

Definition truthy_string (s : string) : bool :=
  match s with EmptyString => false | String _ _ => true end.

(** [String.prototype.startsWith] *)
Definition startsWith (s prefix : string) : bool := String.prefix prefix s.

(** *** Numbers

    [number] is the value of an arithmetic expression: a finite rational or one
    of the special values.  The four operations follow IEEE 754 on the special
    values; on finite operands they are exact. *)

Inductive number : Type :=
| Num (q : Q)
| PosInf
| NegInf
| NaN.

Definition inf_of_sign (c : comparison) : number :=
  match c with Gt => PosInf | Lt => NegInf | Eq => NaN end.

Definition js_sign (a : number) : comparison :=
  match a with
  | Num q => (q ?= 0)%Q
  | PosInf => Gt
  | NegInf => Lt
  | NaN => Eq
  end.

Definition sign_mul (a b : comparison) : comparison :=
  match a, b with
  | Eq, _ | _, Eq => Eq
  | Gt, c => c
  | Lt, c => CompOpp c
  end.

Definition js_neg (a : number) : number :=
  match a with
  | Num q => Num (- q)
  | PosInf => NegInf
  | NegInf => PosInf
  | NaN => NaN
  end.

Definition js_add (a b : number) : number :=
  match a, b with
  | NaN, _ | _, NaN => NaN
  | Num x, Num y => Num (x + y)
  | PosInf, NegInf | NegInf, PosInf => NaN
  | PosInf, _ | _, PosInf => PosInf
  | NegInf, _ | _, NegInf => NegInf
  end.

Definition js_sub (a b : number) : number := js_add a (js_neg b).

Definition js_mul (a b : number) : number :=
  match a, b with
  | NaN, _ | _, NaN => NaN
  | Num x, Num y => Num (x * y)
  | _, _ => inf_of_sign (sign_mul (js_sign a) (js_sign b))
  end.

Definition js_div (a b : number) : number :=
  match a, b with
  | NaN, _ | _, NaN => NaN
  | Num x, Num y =>
      if Qeq_bool y 0 then inf_of_sign (x ?= 0)%Q else Num (x / y)
  | Num _, _ => Num 0
  | _, Num y =>
      if Qeq_bool y 0 then a else inf_of_sign (sign_mul (js_sign a) (y ?= 0)%Q)
  | _, _ => NaN
  end.

(** [a <= b]; every comparison with [NaN] is false. *)
Definition js_le (a b : number) : bool :=
  match a, b with
  | NaN, _ | _, NaN => false
  | Num x, Num y => Qle_bool x y
  | NegInf, _ | _, PosInf => true
  | _, _ => false
  end.

Definition js_ge (a b : number) : bool := js_le b a.

(** [a > b] *)
Definition js_gt (a b : number) : bool :=
  match a, b with
  | NaN, _ | _, NaN => false
  | Num x, Num y => negb (Qle_bool x y)
  | PosInf, PosInf | NegInf, _ | _, PosInf => false
  | _, _ => true
  end.

(** Two results denote the same number. *)
Definition number_eq (a b : number) : Prop :=
  match a, b with
  | Num x, Num y => (x == y)%Q
  | PosInf, PosInf | NegInf, NegInf => True
  | _, _ => False
  end.

(* ================================================================== *)
(** ** Data model ([interfaces/]) *)

Module PathPoint.
Inductive attribute : Type :=
  | AttrString (s : string)
  | AttrNumber (n : Q)
  | AttrBoolean (b : bool).

Record t : Type := {
    clock : Q;
    x : Q;
    y : Q;
    event : option string;
    state : string;
    componentId : option string;
    attributes : option (list (string * attribute))
  }.
End PathPoint.

Module EntityPath.
Record t : Type := {
    type : string;
    path : list PathPoint.t
  }.
End EntityPath.

(** [{ [entityId: string]: EntityPath }]: the object's own entries. *)
Definition EntityPathBatch : Type := list (string * EntityPath.t).

(** The members every plain object inherits from [Object.prototype]. *)
Definition Object_prototype : list string :=
  ["constructor"; "__defineGetter__"; "__defineSetter__"; "hasOwnProperty";
   "__lookupGetter__"; "__lookupSetter__"; "isPrototypeOf";
   "propertyIsEnumerable"; "toString"; "valueOf"; "__proto__";
   "toLocaleString"]%string.

Definition inherited (name : string) : bool :=
  existsb (String.eqb name) Object_prototype.

(** What a property lookup on a batch yields, and so what a variable of
    declared type [EntityPath] holds at run time: a path, or the member of
    [Object.prototype] of that name (a function; the prototype object itself
    for [__proto__]).  Both are truthy. *)
Inductive PropertyValue : Type :=
| PathOf (path : EntityPath.t)
| PrototypeMember (name : string).

(** The own entry of the batch under [entityId], if it has one. *)
Definition own_get (batch : EntityPathBatch) (entityId : string)
  : option EntityPath.t :=
  map_get entityId batch.

(** [batch[entityId]]: property lookup on the object, own entries first, then
    the prototype chain.  [None] is [undefined]. *)
Definition batch_get (batch : EntityPathBatch) (entityId : string)
  : option PropertyValue :=
  match own_get batch entityId with
  | Some path => Some (PathOf path)
  | None =>
      if inherited entityId then Some (PrototypeMember entityId) else None
  end.

(** [value.type]: [undefined] on a member of [Object.prototype]. *)
Definition typeOf (value : PropertyValue) : option string :=
  match value with
  | PathOf path => Some (EntityPath.type path)
  | PrototypeMember _ => None
  end.

(** [Object.entries(batch)] *)
Definition Object_entries (batch : EntityPathBatch)
  : list (string * EntityPath.t) := batch.

Module TimeSeriesPoint.
Record t : Type := { time : Q; value : Q }.
End TimeSeriesPoint.

Module StatisticsSummary.
Record t : Type := {
    min : Q; max : Q; mean : Q; median : Q; stdDev : Q; count : Q
  }.
End StatisticsSummary.

Module StatisticsMetadata.
Record t : Type := {
    type : string;
    componentId : option string;
    metricName : string;
    simulationId : string;
    replication : Z;
    timeStart : Q;
    timeEnd : Q;
    timeUnit : string
  }.
End StatisticsMetadata.

Module StatisticsFile.
Record t : Type := {
    metadata : StatisticsMetadata.t;
    summary : StatisticsSummary.t;
    timeSeries : list TimeSeriesPoint.t
  }.
End StatisticsFile.

Module StatisticsDataFileInfo.
Record t : Type := {
    type : string;
    componentId : option string;
    metricName : string;
    filePath : string;
    timeStart : option Q;
    timeEnd : option Q
  }.
End StatisticsDataFileInfo.

Module EntityPathDataFileInfo.
Record t : Type := {
    filePath : string;
    entryTimeStart : Q;
    entryTimeEnd : Q;
    entityCount : option Q
  }.
End EntityPathDataFileInfo.

Module ReplicationManifestMetadata.
Record t : Type := {
    formatVersion : string;
    simulationId : string;
    replication : Z;
    name : option string;
    duration : Q;
    timeUnit : string;
    modelLayoutPath : string;
    sharedVisualConfigPath : string;
    backgroundSvgPath : string
  }.
End ReplicationManifestMetadata.

Module ReplicationManifestData.
Record t : Type := {
    metadata : ReplicationManifestMetadata.t;
    entityPathDataFiles : list EntityPathDataFileInfo.t;
    statisticsDataFiles : list StatisticsDataFileInfo.t
  }.
End ReplicationManifestData.

Module SharedVisualConfig.
Record t : Type := {
    theme : string;
    loop : bool;
    speedMultiplier : Q
  }.
End SharedVisualConfig.

(** Modelled from the spec: the [ModelLayout] interface is imported from
    ['./interfaces'] but its declaration is not among the sources.  The spec
    calls it an opaque shared document; the only member any caller reads is
    [simulationId]. *)
Module ModelLayout.
Record t : Type := { simulationId : string }.
End ModelLayout.

Module FileListItem.
Record t : Type := {
    name : string;
    path : string;
    isDirectory : bool
  }.
End FileListItem.

(** The Content Accessor.  A promise that resolves to [undefined] is [None]. *)
Module FileReader.
Record t : Type := {
    readFileAsText : string -> option string;
    listDirectoryContents : string -> option (list FileListItem.t);
    resolveFullPath : string -> string
  }.
End FileReader.

(* ================================================================== *)
(** ** The [AnimationData] object *)

Module AnimationData.
Record t : Type := {
    availableReplications : Map Z ReplicationManifestData.t;
    modelLayout : option ModelLayout.t;
    sharedVisualConfig : option SharedVisualConfig.t;
    activeReplicationId : option Z;
    loadedEntityPathBatches : Map string EntityPathBatch;
    entityPathsById : Map string PropertyValue;
    loadedStatisticsFiles : Map string StatisticsFile.t
  }.

  (** The state the constructor leaves. *)
Definition new : t := {|
    availableReplications := [];
    modelLayout := None;
    sharedVisualConfig := None;
    activeReplicationId := None;
    loadedEntityPathBatches := [];
    entityPathsById := [];
    loadedStatisticsFiles := []
  |}.
End AnimationData.

Import AnimationData.

(* ================================================================== *)
(** ** Statistics queries (synchronous methods) *)

(** [===] between an optional metadata field and a string argument. *)
Definition optional_string_eqb (o : option string) (s : string) : bool :=
  match o with
  | Some s' => String.eqb s' s
  | None => false
  end.

Definition matchesStatistic (type componentId metricName : string)
    (file : StatisticsFile.t) : bool :=
  let md := StatisticsFile.metadata file in
  String.eqb (StatisticsMetadata.type md) type
  && String.eqb (StatisticsMetadata.metricName md) metricName
  && optional_string_eqb (StatisticsMetadata.componentId md) componentId.

Definition getStatistic (this : AnimationData.t)
    (type componentId metricName : string) : option StatisticsFile.t :=
  find (matchesStatistic type componentId metricName)
       (map_values (loadedStatisticsFiles this)).

(** The bracket test of the interpolation loop:
    [points[i].time <= time && points[i + 1].time >= time]. *)
Definition brackets (p q : TimeSeriesPoint.t) (time : number) : bool :=
  js_le (Num (TimeSeriesPoint.time p)) time
  && js_ge (Num (TimeSeriesPoint.time q)) time.

(** [const ratio = (time - points[i].time) / (points[i+1].time - points[i].time)] *)
Definition interpolationRatio (p q : TimeSeriesPoint.t) (time : number) : number :=
  js_div (js_sub time (Num (TimeSeriesPoint.time p)))
         (js_sub (Num (TimeSeriesPoint.time q)) (Num (TimeSeriesPoint.time p))).

(** [points[i].value + ratio * (points[i+1].value - points[i].value)] *)
Definition interpolate (p q : TimeSeriesPoint.t) (time : number) : number :=
  let ratio := interpolationRatio p q time in
  js_add (Num (TimeSeriesPoint.value p))
         (js_mul ratio
            (js_sub (Num (TimeSeriesPoint.value q)) (Num (TimeSeriesPoint.value p)))).

(** [for (let i = ...; i < points.length - 1; i++)]; [remaining] is the number
    of iterations left, [points.length - 1 - i]. *)
Fixpoint interpolation_loop (points : list TimeSeriesPoint.t) (time : number)
    (i remaining : nat) : option number :=
  match remaining with
  | O => None
  | S remaining' =>
      match nth_error points i, nth_error points (i + 1) with
      | Some p, Some q =>
          if brackets p q time then Some (interpolate p q time)
          else interpolation_loop points time (S i) remaining'
      | _, _ => None
      end
  end.

Definition getStatisticValueAtTime (this : AnimationData.t)
    (type componentId metricName : string) (time : number) : option number :=
  match getStatistic this type componentId metricName with
  | None => None
  | Some stat =>
      let points := StatisticsFile.timeSeries stat in
      interpolation_loop points time 0 (List.length points - 1)
  end.

Definition getStatisticSummary (this : AnimationData.t)
    (type componentId metricName : string) : option StatisticsSummary.t :=
  option_map StatisticsFile.summary (getStatistic this type componentId metricName).

Definition inRange (start end_ : number) (point : TimeSeriesPoint.t) : bool :=
  js_ge (Num (TimeSeriesPoint.time point)) start
  && js_le (Num (TimeSeriesPoint.time point)) end_.

Definition getStatisticTimeSeriesForRange (this : AnimationData.t)
    (type componentId metricName : string) (start end_ : number)
  : list TimeSeriesPoint.t :=
  match getStatistic this type componentId metricName with
  | None => []
  | Some stat => filter (inRange start end_) (StatisticsFile.timeSeries stat)
  end.

Definition getActiveReplicationId (this : AnimationData.t) : option Z :=
  activeReplicationId this.

Definition getActiveReplicationMetadata (this : AnimationData.t)
  : option ReplicationManifestMetadata.t :=
  match activeReplicationId this with
  | None => None
  | Some id =>
      option_map ReplicationManifestData.metadata
                 (map_get id (availableReplications this))
  end.

Definition getLoadedEntityIds (this : AnimationData.t) : list string :=
  map_keys (entityPathsById this).

Definition getEntitiesByType (this : AnimationData.t) (type : string)
  : Map string PropertyValue :=
  fold_left
    (fun result '(id, path) =>
       if optional_string_eqb (typeOf path) type then map_set id path result
       else result)
    (entityPathsById this) [].

(* ================================================================== *)
(** ** Asynchronous methods

    An [async] method runs on the object and appends to a log of the calls it
    makes to the Content Accessor.  The log is a ghost: no method reads it. *)

(** The type argument of [fetchAndParseJSON<T>]. *)
Inductive DocType : Type :=
| TManifest
| TModelLayout
| TSharedVisualConfig
| TEntityPathBatch
| TStatisticsFile.

(** What [JSON.parse(content) as ReplicationManifestData] is at run time.  The
    cast checks nothing: the value has the declared shape, or it is some other
    truthy value.  Of those the embedding covers the ones without a [metadata]
    member ([{}], [[]], [1], ["x"], [{"metadata": null}]), on which
    [manifest.metadata.replication] throws. *)
Inductive ManifestDocument : Type :=
| Manifest (manifest : ReplicationManifestData.t)
| WithoutMetadata.

Definition docOf (T : DocType) : Type :=
  match T with
  | TManifest => ManifestDocument
  | TModelLayout => ModelLayout.t
  | TSharedVisualConfig => SharedVisualConfig.t
  | TEntityPathBatch => EntityPathBatch
  | TStatisticsFile => StatisticsFile.t
  end.

Inductive Event : Type :=
| ListDirectory (relativePath : string)
| Fetch (T : DocType) (relativePath : string).

Record World : Type := {
  object : AnimationData.t;
  calls : list Event
}.

Definition Async (A : Type) : Type := World -> A * World.

(** An exception the code does not catch, and how the promise of an [async]
    method that can throw settles. *)
Inductive Exception : Type :=
| TypeError.

Inductive Settled (A : Type) : Type :=
| Fulfilled (a : A)
| Rejected (error : Exception).

Arguments Fulfilled {A} a.
Arguments Rejected {A} error.

Definition ret {A} (a : A) : Async A := fun w => (a, w).

Definition bind {A B} (c : Async A) (k : A -> Async B) : Async B :=
  fun w => let (a, w') := c w in k a w'.

Declare Scope async_scope.
Delimit Scope async_scope with async.
Notation "x <- c ;; k" := (bind c (fun x => k))
  (at level 61, c at next level, right associativity) : async_scope.
Notation "c ;; k" := (bind c (fun _ => k))
  (at level 61, right associativity) : async_scope.
Local Open Scope async_scope.

Definition get_this : Async AnimationData.t := fun w => (object w, w).

Definition update_this (f : AnimationData.t -> AnimationData.t) : Async unit :=
  fun w => (tt, {| object := f (object w); calls := calls w |}).

Definition emit (e : Event) : Async unit :=
  fun w => (tt, {| object := object w; calls := calls w ++ [e] |}).

(** [for (const a of l) body(a)] *)
Fixpoint forEach {A} (l : list A) (body : A -> Async unit) : Async unit :=
  match l with
  | [] => ret tt
  | a :: rest => body a ;; forEach rest body
  end.

(** [for (const a of l) body(a)] where the body can throw: the first exception
    leaves the loop, and the rest of the list is not visited. *)
Fixpoint forEachUntilThrow {A} (l : list A) (body : A -> Async (Settled unit))
  : Async (Settled unit) :=
  match l with
  | [] => ret (Fulfilled tt)
  | a :: rest =>
      outcome <- body a ;;
      match outcome with
      | Fulfilled _ => forEachUntilThrow rest body
      | Rejected error => ret (Rejected error)
      end
  end.

(** [l.map(f)] where [f] has effects, left to right. *)
Fixpoint mapM {A B} (f : A -> Async B) (l : list A) : Async (list B) :=
  match l with
  | [] => ret []
  | a :: rest => b <- f a ;; bs <- mapM f rest ;; ret (b :: bs)
  end.

(** Field assignments. *)
Definition set_availableReplications (m : Map Z ReplicationManifestData.t)
    (o : AnimationData.t) : AnimationData.t :=
  {| availableReplications := m;
     modelLayout := modelLayout o;
     sharedVisualConfig := sharedVisualConfig o;
     activeReplicationId := activeReplicationId o;
     loadedEntityPathBatches := loadedEntityPathBatches o;
     entityPathsById := entityPathsById o;
     loadedStatisticsFiles := loadedStatisticsFiles o |}.

Definition set_modelLayout (v : option ModelLayout.t)
    (o : AnimationData.t) : AnimationData.t :=
  {| availableReplications := availableReplications o;
     modelLayout := v;
     sharedVisualConfig := sharedVisualConfig o;
     activeReplicationId := activeReplicationId o;
     loadedEntityPathBatches := loadedEntityPathBatches o;
     entityPathsById := entityPathsById o;
     loadedStatisticsFiles := loadedStatisticsFiles o |}.

Definition set_sharedVisualConfig (v : option SharedVisualConfig.t)
    (o : AnimationData.t) : AnimationData.t :=
  {| availableReplications := availableReplications o;
     modelLayout := modelLayout o;
     sharedVisualConfig := v;
     activeReplicationId := activeReplicationId o;
     loadedEntityPathBatches := loadedEntityPathBatches o;
     entityPathsById := entityPathsById o;
     loadedStatisticsFiles := loadedStatisticsFiles o |}.

Definition set_activeReplicationId (v : option Z)
    (o : AnimationData.t) : AnimationData.t :=
  {| availableReplications := availableReplications o;
     modelLayout := modelLayout o;
     sharedVisualConfig := sharedVisualConfig o;
     activeReplicationId := v;
     loadedEntityPathBatches := loadedEntityPathBatches o;
     entityPathsById := entityPathsById o;
     loadedStatisticsFiles := loadedStatisticsFiles o |}.

Definition set_loadedEntityPathBatches (m : Map string EntityPathBatch)
    (o : AnimationData.t) : AnimationData.t :=
  {| availableReplications := availableReplications o;
     modelLayout := modelLayout o;
     sharedVisualConfig := sharedVisualConfig o;
     activeReplicationId := activeReplicationId o;
     loadedEntityPathBatches := m;
     entityPathsById := entityPathsById o;
     loadedStatisticsFiles := loadedStatisticsFiles o |}.

Definition set_entityPathsById (m : Map string PropertyValue)
    (o : AnimationData.t) : AnimationData.t :=
  {| availableReplications := availableReplications o;
     modelLayout := modelLayout o;
     sharedVisualConfig := sharedVisualConfig o;
     activeReplicationId := activeReplicationId o;
     loadedEntityPathBatches := loadedEntityPathBatches o;
     entityPathsById := m;
     loadedStatisticsFiles := loadedStatisticsFiles o |}.

Definition set_loadedStatisticsFiles (m : Map string StatisticsFile.t)
    (o : AnimationData.t) : AnimationData.t :=
  {| availableReplications := availableReplications o;
     modelLayout := modelLayout o;
     sharedVisualConfig := sharedVisualConfig o;
     activeReplicationId := activeReplicationId o;
     loadedEntityPathBatches := loadedEntityPathBatches o;
     entityPathsById := entityPathsById o;
     loadedStatisticsFiles := m |}.

(** Truthiness of an optional object: [undefined] is falsy, an object truthy. *)
Definition truthy {A} (o : option A) : bool :=
  match o with Some _ => true | None => false end.

(** *** The order in which concurrently issued reads complete

    [Promise.all] leaves the order in which the pending loads resume to the
    environment.  [order] names, at each step, which of the still pending loads
    resumes next (an index taken modulo their number; first-in first-out once
    the list is exhausted).  Every [order] yields a permutation. *)

Fixpoint remove_nth {A} (k : nat) (l : list A) : list A :=
  match l, k with
  | [], _ => []
  | _ :: rest, O => rest
  | a :: rest, S k' => a :: remove_nth k' rest
  end.

Fixpoint settle {A} (n : nat) (order : list nat) (pending : list A) : list A :=
  match n, pending with
  | S n', first :: _ =>
      let k := (hd 0 order mod List.length pending)%nat in
      nth k pending first :: settle n' (tl order) (remove_nth k pending)
  | _, _ => []
  end.

Definition completionOrder {A} (order : list nat) (pending : list A) : list A :=
  settle (List.length pending) order pending.

(** The index fallback of [getEntityPath]:
    [for (const [_, batch] of this.loadedEntityPathBatches)]. *)
Fixpoint scanBatches (entityId : string)
    (batches : list (string * EntityPathBatch)) : Async (option PropertyValue) :=
  match batches with
  | [] => ret None
  | (_, batch) :: rest =>
      match batch_get batch entityId with
      | Some found =>
          update_this (fun o =>
            set_entityPathsById (map_set entityId found (entityPathsById o)) o) ;;
          ret (Some found)
      | None => scanBatches entityId rest
      end
  end.

Definition getEntityPath (entityId : string) : Async (option PropertyValue) :=
  o <- get_this ;;
  if map_has entityId (entityPathsById o)
  then ret (map_get entityId (entityPathsById o))
  else scanBatches entityId (loadedEntityPathBatches o).

Section Methods.
  (** The injected Content Accessor, and [JSON.parse(content) as T]: [None]
      when [JSON.parse] throws (the code catches it) or yields a falsy value.
      The cast is unchecked; the embedding covers the texts whose value has the
      declared type [T] and, for a manifest, the values without [metadata]. *)
Variable reader : FileReader.t.
Variable JSON_parse : forall T : DocType, string -> option (docOf T).

Definition fetchAndParseJSON (T : DocType) (relativePath : string)
    : Async (option (docOf T)) :=
    emit (Fetch T relativePath) ;;
    match FileReader.readFileAsText reader relativePath with
    | Some content =>
        if truthy_string content then ret (JSON_parse T content) else ret None
    | None => ret None
    end.

Definition manifestPathOf (name : string) : string :=
    ("replications/" ++ name ++ "/animation_manifest_" ++ name ++ ".json")%string.

  (** One iteration of the discovery loop.  [Fulfilled] is the end of the
      body or a [continue]; reading [manifest.metadata.replication] off a
      value without [metadata] throws, outside any [try]. *)
Definition discoverItem (item : FileListItem.t) : Async (Settled unit) :=
    if negb (FileListItem.isDirectory item)
       || negb (startsWith (FileListItem.name item) "rep_")
    then ret (Fulfilled tt)
    else
      let manifestPath := manifestPathOf (FileListItem.name item) in
      manifest <- fetchAndParseJSON TManifest manifestPath ;;
      match manifest with
      | None => ret (Fulfilled tt)
      | Some WithoutMetadata => ret (Rejected TypeError)
      | Some (Manifest manifest) =>
          let metadata := ReplicationManifestData.metadata manifest in
          update_this (fun o =>
            set_availableReplications
              (map_set (ReplicationManifestMetadata.replication metadata) manifest
                       (availableReplications o)) o) ;;
          o <- get_this ;;
          (if negb (truthy (modelLayout o))
              && truthy_string (ReplicationManifestMetadata.modelLayoutPath metadata)
           then
             layout <- fetchAndParseJSON TModelLayout
                         (ReplicationManifestMetadata.modelLayoutPath metadata) ;;
             update_this (set_modelLayout layout)
           else ret tt) ;;
          o <- get_this ;;
          (if negb (truthy (sharedVisualConfig o))
              && truthy_string
                   (ReplicationManifestMetadata.sharedVisualConfigPath metadata)
           then
             config <- fetchAndParseJSON TSharedVisualConfig
                         (ReplicationManifestMetadata.sharedVisualConfigPath metadata) ;;
             update_this (set_sharedVisualConfig config)
           else ret tt) ;;
          ret (Fulfilled tt)
      end.

Definition initializeOrDiscoverReplications : Async (Settled unit) :=
    emit (ListDirectory "replications") ;;
    match FileReader.listDirectoryContents reader "replications" with
    | None => ret (Fulfilled tt)
    | Some replicationItems => forEachUntilThrow replicationItems discoverItem
    end.

Definition loadEntityPathBatch (fileInfo : EntityPathDataFileInfo.t)
    : Async unit :=
    let filePath := EntityPathDataFileInfo.filePath fileInfo in
    o <- get_this ;;
    if map_has filePath (loadedEntityPathBatches o) then ret tt
    else
      batch <- fetchAndParseJSON TEntityPathBatch filePath ;;
      match batch with
      | None => ret tt
      | Some batch =>
          update_this (fun o =>
            set_loadedEntityPathBatches
              (map_set filePath batch (loadedEntityPathBatches o)) o) ;;
          forEach (Object_entries batch) (fun '(id, path) =>
            update_this (fun o =>
              set_entityPathsById (map_set id (PathOf path) (entityPathsById o)) o))
      end.

  (** [loadStatisticsFile] up to its [await]: the cache test and the read it
      issues.  [None] when the method returned at once. *)
Definition loadStatisticsFile_issue (fileInfo : StatisticsDataFileInfo.t)
    : Async (option (string * option StatisticsFile.t)) :=
    let filePath := StatisticsDataFileInfo.filePath fileInfo in
    o <- get_this ;;
    if map_has filePath (loadedStatisticsFiles o) then ret None
    else
      statFile <- fetchAndParseJSON TStatisticsFile filePath ;;
      ret (Some (filePath, statFile)).

  (** [loadStatisticsFile] after its [await]. *)
Definition loadStatisticsFile_resume
      (pending : string * option StatisticsFile.t) : Async unit :=
    let (filePath, statFile) := pending in
    match statFile with
    | Some statFile =>
        update_this (fun o =>
          set_loadedStatisticsFiles
            (map_set filePath statFile (loadedStatisticsFiles o)) o)
    | None => ret tt
    end.

  (** The method awaited on its own. *)
Definition loadStatisticsFile (fileInfo : StatisticsDataFileInfo.t)
    : Async unit :=
    issued <- loadStatisticsFile_issue fileInfo ;;
    match issued with
    | Some pending => loadStatisticsFile_resume pending
    | None => ret tt
    end.

Fixpoint somes {A} (l : list (option A)) : list A :=
    match l with
    | [] => []
    | Some a :: rest => a :: somes rest
    | None :: rest => somes rest
    end.

  (** [await Promise.all(files.map(file => this.loadStatisticsFile(file)))]:
      every call runs to its [await] while the array is built, then the pending
      ones resume in the order the environment completes them. *)
Definition loadAllStatisticsFiles (order : list nat)
      (files : list StatisticsDataFileInfo.t) : Async unit :=
    issued <- mapM loadStatisticsFile_issue files ;;
    forEach (completionOrder order (somes issued)) loadStatisticsFile_resume.

Definition setActiveReplication (order : list nat) (replicationId : Z)
    : Async bool :=
    o <- get_this ;;
    match map_get replicationId (availableReplications o) with
    | None => ret false
    | Some manifest =>
        update_this (set_activeReplicationId (Some replicationId)) ;;
        update_this (fun o =>
          set_loadedEntityPathBatches (map_clear (loadedEntityPathBatches o)) o) ;;
        update_this (fun o =>
          set_entityPathsById (map_clear (entityPathsById o)) o) ;;
        update_this (fun o =>
          set_loadedStatisticsFiles (map_clear (loadedStatisticsFiles o)) o) ;;
        forEach (ReplicationManifestData.entityPathDataFiles manifest)
                loadEntityPathBatch ;;
        loadAllStatisticsFiles order
          (ReplicationManifestData.statisticsDataFiles manifest) ;;
        ret true
    end.
End Methods.


(* ================================================================== *)
(** ** Notions the properties are stated with *)

(** The three-field key of a statistics file. *)
Definition hasKey (type componentId metricName : string)
    (file : StatisticsFile.t) : Prop :=
  StatisticsMetadata.type (StatisticsFile.metadata file) = type
  /\ StatisticsMetadata.metricName (StatisticsFile.metadata file) = metricName
  /\ StatisticsMetadata.componentId (StatisticsFile.metadata file) = Some componentId.

(** [(p, q)] is the adjacent pair at index [i] and no earlier adjacent pair
    brackets [time]. *)
Definition firstBracket (points : list TimeSeriesPoint.t) (time : number)
    (i : nat) (p q : TimeSeriesPoint.t) : Prop :=
  nth_error points i = Some p
  /\ nth_error points (S i) = Some q
  /\ brackets p q time = true
  /\ forall j p' q', (j < i)%nat ->
       nth_error points j = Some p' -> nth_error points (S j) = Some q' ->
       brackets p' q' time = false.

(** No adjacent pair brackets [time]. *)
Definition noBracket (points : list TimeSeriesPoint.t) (time : number) : Prop :=
  forall i p q,
    nth_error points i = Some p -> nth_error points (S i) = Some q ->
    brackets p q time = false.


Definition strictlyAscending (points : list TimeSeriesPoint.t) : Prop :=
  forall i p q,
    nth_error points i = Some p -> nth_error points (S i) = Some q ->
    (TimeSeriesPoint.time p < TimeSeriesPoint.time q)%Q.

(** ** The value query in binary64

    [getStatisticValueAtTime] with the engine's numbers: every [number] is an
    IEEE 754 binary64 value, here a primitive float, and [<=], [>=], [-], [/],
    [*] and [+] are the IEEE operations.  The statistics cache is the one of
    the object with doubles for the samples; the summary and the numeric
    metadata, which this method does not read, are left out. *)

Module Binary64.
Import PrimFloat.
Local Open Scope float_scope.

Record TimeSeriesPoint : Type := { time : float; value : float }.

Record StatisticsFile : Type := {
  metadata : StatisticsMetadata.t;
  timeSeries : list TimeSeriesPoint
}.

Definition matchesStatistic (type componentId metricName : string)
    (file : StatisticsFile) : bool :=
  let md := metadata file in
  String.eqb (StatisticsMetadata.type md) type
  && String.eqb (StatisticsMetadata.metricName md) metricName
  && optional_string_eqb (StatisticsMetadata.componentId md) componentId.

Definition getStatistic (loadedStatisticsFiles : Map string StatisticsFile)
    (type componentId metricName : string) : option StatisticsFile :=
  find (matchesStatistic type componentId metricName)
       (map_values loadedStatisticsFiles).

(** [points[i].time <= time && points[i + 1].time >= time] *)
Definition brackets (p q : TimeSeriesPoint) (t : float) : bool :=
  (time p <=? t) && (t <=? time q).

(** [const ratio = (time - points[i].time) / (points[i+1].time - points[i].time)] *)
Definition interpolationRatio (p q : TimeSeriesPoint) (t : float) : float :=
  (t - time p) / (time q - time p).

(** [points[i].value + ratio * (points[i+1].value - points[i].value)] *)
Definition interpolate (p q : TimeSeriesPoint) (t : float) : float :=
  let ratio := interpolationRatio p q t in
  value p + ratio * (value q - value p).

Fixpoint interpolation_loop (points : list TimeSeriesPoint) (t : float)
    (i remaining : nat) : option float :=
  match remaining with
  | O => None
  | S remaining' =>
      match nth_error points i, nth_error points (i + 1) with
      | Some p, Some q =>
          if brackets p q t then Some (interpolate p q t)
          else interpolation_loop points t (S i) remaining'
      | _, _ => None
      end
  end.

Definition getStatisticValueAtTime
    (loadedStatisticsFiles : Map string StatisticsFile)
    (type componentId metricName : string) (t : float) : option float :=
  match getStatistic loadedStatisticsFiles type componentId metricName with
  | None => None
  | Some stat =>
      let points := timeSeries stat in
      interpolation_loop points t 0 (List.length points - 1)
  end.

(** [(p, q)] is the adjacent pair at index [i] and no earlier adjacent pair
    brackets [t]. *)
Definition firstBracket (points : list TimeSeriesPoint) (t : float)
    (i : nat) (p q : TimeSeriesPoint) : Prop :=
  nth_error points i = Some p
  /\ nth_error points (S i) = Some q
  /\ brackets p q t = true
  /\ forall j p' q', (j < i)%nat ->
       nth_error points j = Some p' -> nth_error points (S j) = Some q' ->
       brackets p' q' t = false.

Definition strictlyAscending (points : list TimeSeriesPoint) : Prop :=
  forall i p q,
    nth_error points i = Some p -> nth_error points (S i) = Some q ->
    (time p <? time q) = true.



Definition point (t v : float) : TimeSeriesPoint := {| time := t; value := v |}.

Definition file (points : list TimeSeriesPoint) : StatisticsFile :=
  {| metadata :=
       {| StatisticsMetadata.type := "activity_metric";
          StatisticsMetadata.componentId := Some "act1"%string;
          StatisticsMetadata.metricName := "queueLength";
          StatisticsMetadata.simulationId := "sim";
          StatisticsMetadata.replication := 1;
          StatisticsMetadata.timeStart := 0;
          StatisticsMetadata.timeEnd := 10;
          StatisticsMetadata.timeUnit := "min" |};
     timeSeries := points |}.



End Binary64.

(** ** A sample statistics cache *)

Module SampleStatistics.
Definition point (time value : Q) : TimeSeriesPoint.t :=
    {| TimeSeriesPoint.time := time; TimeSeriesPoint.value := value |}.

Definition p0 : TimeSeriesPoint.t := point 0 10.
Definition p1 : TimeSeriesPoint.t := point 10 20.

Definition metadata (componentId metricName : string) : StatisticsMetadata.t :=
    {| StatisticsMetadata.type := "activity_metric";
       StatisticsMetadata.componentId := Some componentId;
       StatisticsMetadata.metricName := metricName;
       StatisticsMetadata.simulationId := "sim";
       StatisticsMetadata.replication := 1;
       StatisticsMetadata.timeStart := 0;
       StatisticsMetadata.timeEnd := 10;
       StatisticsMetadata.timeUnit := "min" |}.

Definition summary : StatisticsSummary.t :=
    {| StatisticsSummary.min := 10; StatisticsSummary.max := 20;
       StatisticsSummary.mean := 15; StatisticsSummary.median := 15;
       StatisticsSummary.stdDev := 5; StatisticsSummary.count := 2 |}.

Definition queueLength : StatisticsFile.t :=
    {| StatisticsFile.metadata := metadata "act1" "queueLength";
       StatisticsFile.summary := summary;
       StatisticsFile.timeSeries := [p0; p1] |}.

  (** A second file with the key of [queueLength] and other samples. *)
Definition queueLengthRerun : StatisticsFile.t :=
    {| StatisticsFile.metadata := metadata "act1" "queueLength";
       StatisticsFile.summary := summary;
       StatisticsFile.timeSeries := [point 0 30; point 10 40] |}.

Definition utilization : StatisticsFile.t :=
    {| StatisticsFile.metadata := metadata "act1" "utilization";
       StatisticsFile.summary := summary;
       StatisticsFile.timeSeries := [point 0 0; point 4 1; point 8 (1 # 2)] |}.

Definition data : AnimationData.t :=
    set_loadedStatisticsFiles
      [("stats/utilization.json"%string, utilization);
       ("stats/queue.json"%string, queueLength)]
      AnimationData.new.
End SampleStatistics.

(** [sub] keeps some of the elements of [l], in the order [l] has them. *)
Inductive subsequence {A : Type} : list A -> list A -> Prop :=
| subsequence_nil : subsequence [] []
| subsequence_keep a sub l : subsequence sub l -> subsequence (a :: sub) (a :: l)
| subsequence_drop a sub l : subsequence sub l -> subsequence sub (a :: l).

(** ** Running a computation *)

Definition run {A} (c : Async A) (w : World) : World := snd (c w).
Definition result {A} (c : Async A) (w : World) : A := fst (c w).

(** The world a fresh object starts in. *)
Definition initial : World := {| object := AnimationData.new; calls := [] |}.

(** The paths fetched as documents of type [T], in call order. *)
Definition DocType_eqb (T U : DocType) : bool :=
  match T, U with
  | TManifest, TManifest
  | TModelLayout, TModelLayout
  | TSharedVisualConfig, TSharedVisualConfig
  | TEntityPathBatch, TEntityPathBatch
  | TStatisticsFile, TStatisticsFile => true
  | _, _ => false
  end.

Fixpoint fetchesOf (T : DocType) (log : list Event) : list string :=
  match log with
  | [] => []
  | Fetch U relativePath :: rest =>
      if DocType_eqb T U then relativePath :: fetchesOf T rest else fetchesOf T rest
  | ListDirectory _ :: rest => fetchesOf T rest
  end.

Section Documents.
Variable reader : FileReader.t.
Variable JSON_parse : forall T : DocType, string -> option (docOf T).

  (** What [fetchAndParseJSON<T>(relativePath)] resolves to. *)
Definition document (T : DocType) (relativePath : string) : option (docOf T) :=
    match FileReader.readFileAsText reader relativePath with
    | Some content => if truthy_string content then JSON_parse T content else None
    | None => None
    end.

  (** The listing entries the discovery loop does not skip. *)
Definition isReplicationDirectory (item : FileListItem.t) : bool :=
    FileListItem.isDirectory item && startsWith (FileListItem.name item) "rep_".

  (** The entry is a replication directory whose manifest parses to a value
      without [metadata]: the iteration that throws. *)
Definition lacksMetadata (item : FileListItem.t) : bool :=
    isReplicationDirectory item
    && match document TManifest (manifestPathOf (FileListItem.name item)) with
       | Some WithoutMetadata => true
       | _ => false
       end.

  (** The entries the loop visits: the listing up to and including the first
      entry on which the iteration throws. *)
Fixpoint visited (items : list FileListItem.t) : list FileListItem.t :=
    match items with
    | [] => []
    | item :: rest => if lacksMetadata item then [item] else item :: visited rest
    end.

  (** The manifest of the declared shape read for an entry, if any. *)
Definition manifestOf (item : FileListItem.t) : option ReplicationManifestData.t :=
    match document TManifest (manifestPathOf (FileListItem.name item)) with
    | Some (Manifest manifest) => Some manifest
    | _ => None
    end.

  (** The manifests discovery registers from a listing, in listing order. *)
Definition discoveredManifests (items : list FileListItem.t)
    : list ReplicationManifestData.t :=
    somes (map manifestOf (filter isReplicationDirectory (visited items))).
End Documents.

(** The last-write-wins union, in load order, of the entries of the batches. *)
Definition mergeBatch (index : Map string PropertyValue) (batch : EntityPathBatch)
  : Map string PropertyValue :=
  fold_left (fun index '(id, path) => map_set id (PathOf path) index)
            (Object_entries batch) index.

Definition lastWriteWinsUnion (batches : Map string EntityPathBatch)
  : Map string PropertyValue :=
  fold_left (fun index '(_, batch) => mergeBatch index batch) batches [].

(** The index agrees with the batch cache. *)
Definition indexConsistent (o : AnimationData.t) : Prop :=
  entityPathsById o = lastWriteWinsUnion (loadedEntityPathBatches o).

(** Entries that map the name of a member of [Object.prototype] to that
    member: what the fallback of [getEntityPath] adds to the index. *)
Definition inheritedEntries (entries : Map string PropertyValue) : Prop :=
  Forall (fun entry => inherited (fst entry) = true
                       /\ snd entry = PrototypeMember (fst entry))
         entries.

(** The index is the union of the cached batches followed by inherited
    members; there are none while no batch is cached. *)
Definition indexExtendsUnion (o : AnimationData.t) : Prop :=
  exists extras,
    entityPathsById o = lastWriteWinsUnion (loadedEntityPathBatches o) ++ extras
    /\ inheritedEntries extras
    /\ (loadedEntityPathBatches o = [] -> extras = []).

(** ** Reachable states

    A caller drives the object through discovery, activation and the
    entity-path query; [availableReplications] is a public field, and the
    smoke test that activates without discovery writes it directly.  The
    Content Accessor may answer differently from one call to the next. *)

Definition register (replicationId : Z) (manifest : ReplicationManifestData.t)
  : Async unit :=
  update_this (fun o =>
    set_availableReplications
      (map_set replicationId manifest (availableReplications o)) o).

Inductive reachable (JSON_parse : forall T : DocType, string -> option (docOf T))
  : World -> Prop :=
| reachable_new : reachable JSON_parse initial
| reachable_discover reader w :
    reachable JSON_parse w ->
    reachable JSON_parse (run (initializeOrDiscoverReplications reader JSON_parse) w)
| reachable_activate reader order replicationId w :
    reachable JSON_parse w ->
    reachable JSON_parse
      (run (setActiveReplication reader JSON_parse order replicationId) w)
| reachable_getEntityPath entityId w :
    reachable JSON_parse w ->
    reachable JSON_parse (run (getEntityPath entityId) w)
| reachable_register replicationId manifest w :
    reachable JSON_parse w ->
    reachable JSON_parse (run (register replicationId manifest) w).

(** The three caches an activation rebuilds. *)
Definition sameCaches (o o' : AnimationData.t) : Prop :=
  loadedEntityPathBatches o = loadedEntityPathBatches o'
  /\ entityPathsById o = entityPathsById o'
  /\ loadedStatisticsFiles o = loadedStatisticsFiles o'.

(** ** A sample study *)

Module SampleStudy.
Local Open Scope string_scope.

Definition pathPoint (clock x y : Q) (state : string) : PathPoint.t :=
    {| PathPoint.clock := clock; PathPoint.x := x; PathPoint.y := y;
       PathPoint.event := None; PathPoint.state := state;
       PathPoint.componentId := None; PathPoint.attributes := None |}.

Definition customer : EntityPath.t :=
    {| EntityPath.type := "Customer";
       EntityPath.path := [pathPoint 0 0 0 "arrive"; pathPoint 2 5 0 "queue"] |}.

Definition customerLate : EntityPath.t :=
    {| EntityPath.type := "Customer";
       EntityPath.path := [pathPoint 3 0 0 "arrive"] |}.

Definition truck : EntityPath.t :=
    {| EntityPath.type := "Truck";
       EntityPath.path := [pathPoint 1 9 9 "dock"] |}.

Definition batch1a : EntityPathBatch := [("e1", customer); ("e2", customer)].
Definition batch1b : EntityPathBatch := [("e2", customerLate); ("e3", truck)].
Definition batch3 : EntityPathBatch := [("e7", truck)].

Definition layout : ModelLayout.t := {| ModelLayout.simulationId := "sim" |}.

Definition visual : SharedVisualConfig.t :=
    {| SharedVisualConfig.theme := "light";
       SharedVisualConfig.loop := false;
       SharedVisualConfig.speedMultiplier := 1 |}.

Definition entityFile (filePath : string) : EntityPathDataFileInfo.t :=
    {| EntityPathDataFileInfo.filePath := filePath;
       EntityPathDataFileInfo.entryTimeStart := 0;
       EntityPathDataFileInfo.entryTimeEnd := 10;
       EntityPathDataFileInfo.entityCount := None |}.

Definition statisticsFile (metricName filePath : string)
    : StatisticsDataFileInfo.t :=
    {| StatisticsDataFileInfo.type := "activity_metric";
       StatisticsDataFileInfo.componentId := Some "act1";
       StatisticsDataFileInfo.metricName := metricName;
       StatisticsDataFileInfo.filePath := filePath;
       StatisticsDataFileInfo.timeStart := None;
       StatisticsDataFileInfo.timeEnd := None |}.

Definition manifestMetadata (replication : Z) (modelLayoutPath : string)
    : ReplicationManifestMetadata.t :=
    {| ReplicationManifestMetadata.formatVersion := "1.0";
       ReplicationManifestMetadata.simulationId := "sim";
       ReplicationManifestMetadata.replication := replication;
       ReplicationManifestMetadata.name := None;
       ReplicationManifestMetadata.duration := 10;
       ReplicationManifestMetadata.timeUnit := "min";
       ReplicationManifestMetadata.modelLayoutPath := modelLayoutPath;
       ReplicationManifestMetadata.sharedVisualConfigPath := "shared/visual.json";
       ReplicationManifestMetadata.backgroundSvgPath := "shared/background.svg" |}.

Definition manifest1 : ReplicationManifestData.t :=
    {| ReplicationManifestData.metadata := manifestMetadata 1 "shared/layout_old.json";
       ReplicationManifestData.entityPathDataFiles :=
         [entityFile "rep1/paths_a.json"; entityFile "rep1/paths_b.json"];
       ReplicationManifestData.statisticsDataFiles :=
         [statisticsFile "queueLength" "rep1/queue.json"] |}.

Definition manifest3 : ReplicationManifestData.t :=
    {| ReplicationManifestData.metadata := manifestMetadata 3 "shared/layout.json";
       ReplicationManifestData.entityPathDataFiles := [entityFile "rep3/paths.json"];
       ReplicationManifestData.statisticsDataFiles :=
         [statisticsFile "utilization" "rep3/utilization.json";
          statisticsFile "queueLength" "rep3/queue.json"] |}.

  (** A manifest two of whose statistics files carry the same key. *)
Definition manifest5 : ReplicationManifestData.t :=
    {| ReplicationManifestData.metadata := manifestMetadata 5 "shared/layout.json";
       ReplicationManifestData.entityPathDataFiles := [entityFile "rep3/paths.json"];
       ReplicationManifestData.statisticsDataFiles :=
         [statisticsFile "queueLength" "rep5/queue.json";
          statisticsFile "queueLength" "rep5/queue_rerun.json"] |}.

  (** The study tree: file texts by relative path.  [shared/layout_old.json],
      which the first manifest names, does not exist. *)
Definition files : Map string string :=
    [("replications/rep_001/animation_manifest_rep_001.json", "manifest 1");
     ("replications/rep_002/animation_manifest_rep_002.json", "{ truncated");
     ("replications/rep_003/animation_manifest_rep_003.json", "manifest 3");
     ("shared/layout.json", "layout");
     ("shared/visual.json", "visual");
     ("rep1/paths_a.json", "batch 1a");
     ("rep1/paths_b.json", "batch 1b");
     ("rep3/paths.json", "batch 3");
     ("rep1/queue.json", "queue");
     ("rep3/queue.json", "queue");
     ("rep3/utilization.json", "utilization");
     ("rep5/queue.json", "queue");
     ("rep5/queue_rerun.json", "queue rerun")].

Definition directory (name : string) : FileListItem.t :=
    {| FileListItem.name := name;
       FileListItem.path := "replications/" ++ name;
       FileListItem.isDirectory := true |}.

Definition plainFile (name : string) : FileListItem.t :=
    {| FileListItem.name := name;
       FileListItem.path := "replications/" ++ name;
       FileListItem.isDirectory := false |}.

Definition listing : list FileListItem.t :=
    [directory "rep_001"; directory "rep_002"; plainFile "rep_notes.txt";
     directory "archive"; directory "rep_003"].

Definition reader : FileReader.t :=
    {| FileReader.readFileAsText := fun relativePath => map_get relativePath files;
       FileReader.listDirectoryContents := fun relativePath =>
         if String.eqb relativePath "replications" then Some listing else None;
       FileReader.resolveFullPath := fun relativePath => "/study/" ++ relativePath |}.

  (** The same study without its [shared] directory. *)
Definition bareReader : FileReader.t :=
    {| FileReader.readFileAsText := fun relativePath =>
         if String.prefix "shared/" relativePath then None
         else map_get relativePath files;
       FileReader.listDirectoryContents := fun relativePath =>
         if String.eqb relativePath "replications" then Some listing else None;
       FileReader.resolveFullPath := fun relativePath => "/bare/" ++ relativePath |}.

  (** The same study where the manifest of [rep_002] is the text [{}]: valid
      JSON, but not a manifest. *)
Definition shapelessReader : FileReader.t :=
    {| FileReader.readFileAsText := fun relativePath =>
         if String.eqb relativePath
              "replications/rep_002/animation_manifest_rep_002.json"
         then Some "{}"
         else map_get relativePath files;
       FileReader.listDirectoryContents := fun relativePath =>
         if String.eqb relativePath "replications" then Some listing else None;
       FileReader.resolveFullPath := fun relativePath => "/shapeless/" ++ relativePath |}.

  (** A reader whose study root has no [replications] directory. *)
Definition emptyReader : FileReader.t :=
    {| FileReader.readFileAsText := fun _ => None;
       FileReader.listDirectoryContents := fun _ => None;
       FileReader.resolveFullPath := fun relativePath => "/empty/" ++ relativePath |}.

  (** The documents the texts of the study denote. *)
Definition JSON_parse (T : DocType) : string -> option (docOf T) :=
    match T return string -> option (docOf T) with
    | TManifest => fun content =>
        if String.eqb content "manifest 1" then Some (Manifest manifest1)
        else if String.eqb content "manifest 3" then Some (Manifest manifest3)
        else if String.eqb content "{}" then Some WithoutMetadata
        else None
    | TModelLayout => fun content =>
        if String.eqb content "layout" then Some layout else None
    | TSharedVisualConfig => fun content =>
        if String.eqb content "visual" then Some visual else None
    | TEntityPathBatch => fun content =>
        if String.eqb content "batch 1a" then Some batch1a
        else if String.eqb content "batch 1b" then Some batch1b
        else if String.eqb content "batch 3" then Some batch3
        else None
    | TStatisticsFile => fun content =>
        if String.eqb content "queue" then Some SampleStatistics.queueLength
        else if String.eqb content "queue rerun"
        then Some SampleStatistics.queueLengthRerun
        else if String.eqb content "utilization" then Some SampleStatistics.utilization
        else None
    end.

Definition discovered : World :=
    run (initializeOrDiscoverReplications reader JSON_parse) initial.

Definition active1 : World :=
    run (setActiveReplication reader JSON_parse [] 1) discovered.

Definition active3 : World :=
    run (setActiveReplication reader JSON_parse [1%nat] 3) active1.

  (** The first replication active, after a query for an inherited name. *)
Definition queried : World := run (getEntityPath "constructor") active1.
End SampleStudy.

(** ** Frames and invariants of computations *)

(** [c] leaves the part [proj] of the object as it found it. *)
Definition keeps {X A} (proj : AnimationData.t -> X) (c : Async A) : Prop :=
  forall w, proj (object (run c w)) = proj (object w).

(** [c] maintains the property [I] of worlds. *)
Definition maintains {A} (I : World -> Prop) (c : Async A) : Prop :=
  forall w, I w -> I (run c w).

(** [c] only appends to the log. *)
Definition appends {A} (c : Async A) : Prop :=
  forall w, exists new, calls (run c w) = calls w ++ new.

(** The log with one more call. *)
Definition logged (e : Event) (w : World) : World :=
  {| object := object w; calls := calls w ++ [e] |}.

(** List membership of a path, as a boolean. *)
Definition mem (s : string) (l : list string) : bool := existsb (String.eqb s) l.

(** The statistics cache once a pending load has resumed. *)
Definition applyCompleted (cache : Map string StatisticsFile.t)
    (pending : string * option StatisticsFile.t) : Map string StatisticsFile.t :=
  match snd pending with
  | Some statFile => map_set (fst pending) statFile cache
  | None => cache
  end.

(** The object right after the assignments that open a successful activation. *)
Definition cleared (replicationId : Z) (w : World) : World :=
  {| object :=
       set_loadedStatisticsFiles []
         (set_entityPathsById []
            (set_loadedEntityPathBatches []
               (set_activeReplicationId (Some replicationId) (object w))));
     calls := calls w |}.

(** The pure lookup in the flat index: what the spec gives as the contract of
    [getEntityPath]. *)
Definition lookupEntityPath (this : AnimationData.t) (entityId : string)
  : option PropertyValue :=
  map_get entityId (entityPathsById this).

(** ** Discovery, read as a function of the listing *)

Section SharedDocuments.
Variable reader : FileReader.t.
Variable JSON_parse : forall T : DocType, string -> option (docOf T).

(** The fetches made for a shared document while it is unset: one path after
    the other until a fetch yields a document. *)
Fixpoint attemptsUntilSuccess (T : DocType) (paths : list string) : list string :=
  match paths with
  | [] => []
  | relativePath :: rest =>
      match document reader JSON_parse T relativePath with
      | Some _ => [relativePath]
      | None => relativePath :: attemptsUntilSuccess T rest
      end
  end.

(** The first document the paths yield. *)
Fixpoint firstDocument (T : DocType) (paths : list string) : option (docOf T) :=
  match paths with
  | [] => None
  | relativePath :: rest =>
      match document reader JSON_parse T relativePath with
      | Some found => Some found
      | None => firstDocument T rest
      end
  end.
End SharedDocuments.

(** The non-empty paths the manifests declare for a shared document. *)
Definition declaredPaths (pathOf : ReplicationManifestMetadata.t -> string)
    (manifests : list ReplicationManifestData.t) : list string :=
  filter truthy_string
         (map (fun manifest => pathOf (ReplicationManifestData.metadata manifest))
              manifests).

(** The registry after registering the manifests in order. *)
Definition registerAll (manifests : list ReplicationManifestData.t)
    (registry : Map Z ReplicationManifestData.t) : Map Z ReplicationManifestData.t :=
  fold_left
    (fun registry manifest =>
       map_set (ReplicationManifestMetadata.replication
                  (ReplicationManifestData.metadata manifest))
               manifest registry)
    manifests registry.

(* ================================================================== *)
(** ** The earlier variant of the class

    The copy of [AnimationData] kept beside [NodeFileReader]
    ([loaders/node-file-reader.ts]) differs in two methods: activation does
    not clear the statistics cache and loads the statistics files one after
    the other, and [getEntityPath] is the synchronous index lookup. *)

Module Variant.
Section Methods.
Variable reader : FileReader.t.
Variable JSON_parse : forall T : DocType, string -> option (docOf T).

Definition setActiveReplication (replicationId : Z) : Async bool :=
  o <- get_this ;;
  match map_get replicationId (availableReplications o) with
  | None => ret false
  | Some manifest =>
      update_this (set_activeReplicationId (Some replicationId)) ;;
      update_this (fun o =>
        set_loadedEntityPathBatches (map_clear (loadedEntityPathBatches o)) o) ;;
      update_this (fun o =>
        set_entityPathsById (map_clear (entityPathsById o)) o) ;;
      forEach (ReplicationManifestData.entityPathDataFiles manifest)
              (loadEntityPathBatch reader JSON_parse) ;;
      forEach (ReplicationManifestData.statisticsDataFiles manifest)
              (loadStatisticsFile reader JSON_parse) ;;
      ret true
  end.
End Methods.

Definition getEntityPath (this : AnimationData.t) (entityId : string)
  : option PropertyValue :=
  map_get entityId (entityPathsById this).
End Variant.

(** ** Further notions *)

(** No key occurs twice: what a [Map] guarantees. *)
Definition uniqueKeys {K V} (m : Map K V) : Prop := NoDup (map_keys m).

(** The four maps of the object have unique keys. *)
Definition wellKeyed (o : AnimationData.t) : Prop :=
  uniqueKeys (availableReplications o)
  /\ uniqueKeys (loadedEntityPathBatches o)
  /\ uniqueKeys (entityPathsById o)
  /\ uniqueKeys (loadedStatisticsFiles o).

(** The active id, when there is one, is a key of the registry. *)
Definition activeRegistered (o : AnimationData.t) : Prop :=
  match activeReplicationId o with
  | Some replicationId => map_has replicationId (availableReplications o) = true
  | None => True
  end.

(** [path.type === type] on an index entry. *)
Definition hasType (type : string) (entry : string * PropertyValue) : bool :=
  optional_string_eqb (typeOf (snd entry)) type.

(** The sample study driven through the earlier variant. *)
Module SampleLeak.
Definition ready : World :=
  run (initializeOrDiscoverReplications SampleStudy.reader SampleStudy.JSON_parse)
      initial.

Definition first : World :=
  run (Variant.setActiveReplication SampleStudy.reader SampleStudy.JSON_parse 1)
      ready.

Definition second : World :=
  run (Variant.setActiveReplication SampleStudy.reader SampleStudy.JSON_parse 3)
      first.
End SampleLeak.

(** The object right after the assignments that open a successful activation
    in the earlier variant: the statistics cache is left as it is. *)
Definition clearedEntities (replicationId : Z) (w : World) : World :=
  {| object :=
       set_entityPathsById []
         (set_loadedEntityPathBatches []
            (set_activeReplicationId (Some replicationId) (object w)));
     calls := calls w |}.

(** The statistics cache after one sequential [loadStatisticsFile]. *)
Definition loadedInTurn (document_of : string -> option StatisticsFile.t)
    (cache : Map string StatisticsFile.t) (filePath : string)
  : Map string StatisticsFile.t :=
  if map_has filePath cache then cache
  else match document_of filePath with
       | Some statFile => map_set filePath statFile cache
       | None => cache
       end.
(* ================================================================== *)
(** ** Facts about [Map] *)

Section JsMapFacts.
Context {K V : Type} `{KeyEq K}.
Implicit Types (k : K) (v : V) (m : Map K V).

Lemma key_eqb_refl k : key_eqb k k = true.
  Proof. apply key_eqb_eq; reflexivity. Qed.

Lemma key_eqb_neq k k' : k <> k' -> key_eqb k k' = false.
  Proof.
    intros Hne; destruct (key_eqb k k') eqn:E; [|reflexivity].
    apply key_eqb_eq in E; contradiction.
  Qed.

Lemma key_eq_dec k k' : {k = k'} + {k <> k'}.
  Proof.
    destruct (key_eqb k k') eqn:E.
    - left; apply key_eqb_eq; exact E.
    - right; intros ->; rewrite key_eqb_refl in E; discriminate.
  Qed.

Lemma map_get_set_same k v m : map_get k (map_set k v m) = Some v.
  Proof.
    induction m as [|[k' v'] rest IH]; simpl.
    - rewrite key_eqb_refl; reflexivity.
    - destruct (key_eqb k k') eqn:E; simpl; rewrite E; auto.
  Qed.

Lemma map_get_set_other k k' v m :
    k <> k' -> map_get k' (map_set k v m) = map_get k' m.
  Proof.
    intros Hne; induction m as [|[k0 v0] rest IH]; simpl.
    - rewrite (key_eqb_neq (k:=k') (k':=k)); congruence.
    - destruct (key_eqb k k0) eqn:E; simpl.
      + apply key_eqb_eq in E; subst k0.
        rewrite (key_eqb_neq (k:=k') (k':=k)); congruence.
      + destruct (key_eqb k' k0); auto.
  Qed.

Lemma map_get_set k k' v m :
    map_get k' (map_set k v m) = if key_eqb k' k then Some v else map_get k' m.
  Proof.
    destruct (key_eq_dec k' k) as [->|Hne].
    - rewrite key_eqb_refl; apply map_get_set_same.
    - rewrite (key_eqb_neq Hne); apply map_get_set_other; congruence.
  Qed.

Lemma map_set_fresh k v m : map_get k m = None -> map_set k v m = m ++ [(k, v)].
  Proof.
    induction m as [|[k' v'] rest IH]; simpl; [reflexivity|].
    destruct (key_eqb k k'); [discriminate|].
    intros Hn; rewrite IH; auto.
  Qed.

Lemma map_get_In k m : map_get k m <> None <-> In k (map_keys m).
  Proof.
    induction m as [|[k' v'] rest IH]; simpl.
    - split; [congruence|tauto].
    - destruct (key_eqb k k') eqn:E.
      + apply key_eqb_eq in E; subst; split; [auto|discriminate].
      + rewrite IH; split; [auto|].
        intros [->|Hin]; [rewrite key_eqb_refl in E; discriminate|exact Hin].
  Qed.

Lemma map_has_In k m : map_has k m = true <-> In k (map_keys m).
  Proof.
    unfold map_has; rewrite <- map_get_In.
    destruct (map_get k m); split; congruence.
  Qed.

Lemma map_has_false k m : map_has k m = false <-> map_get k m = None.
  Proof. unfold map_has; destruct (map_get k m); split; congruence. Qed.

Lemma map_get_Some_In k v m : map_get k m = Some v -> In (k, v) m.
  Proof.
    induction m as [|[k' v'] rest IH]; simpl; [discriminate|].
    destruct (key_eqb k k') eqn:E.
    - apply key_eqb_eq in E; subst; intros [= ->]; auto.
    - auto.
  Qed.

Lemma map_keys_set k k' v m :
    In k' (map_keys (map_set k v m)) <-> k' = k \/ In k' (map_keys m).
  Proof.
    rewrite <- !map_get_In, map_get_set.
    destruct (key_eq_dec k' k) as [->|Hne].
    - rewrite key_eqb_refl; split; [auto|discriminate].
    - rewrite (key_eqb_neq Hne); tauto.
  Qed.

Lemma map_set_Forall (P : K * V -> Prop) k v m :
    Forall P m -> P (k, v) -> Forall P (map_set k v m).
  Proof.
    intros Hm Hkv; induction Hm as [|[k' v'] rest Hx Hrest IH]; simpl.
    - constructor; auto.
    - destruct (key_eqb k k') eqn:E.
      + apply key_eqb_eq in E; subst; constructor; auto.
      + constructor; auto.
  Qed.
End JsMapFacts.

(* ================================================================== *)
(** ** Facts about numbers *)

Lemma Qle_bool_false (a b : Q) : Qle_bool a b = false <-> (b < a)%Q.
Proof.
  split; intros Hx.
  - apply Qnot_le_lt; intros Hle; apply Qle_bool_iff in Hle; congruence.
  - destruct (Qle_bool a b) eqn:E; [|reflexivity].
    apply Qle_bool_iff in E; exfalso; exact (Qlt_not_le _ _ Hx E).
Qed.


Lemma js_le_Num (a b : Q) : js_le (Num a) (Num b) = true <-> (a <= b)%Q.
Proof. simpl; apply Qle_bool_iff. Qed.

(** A number between two finite numbers is finite. *)
Lemma js_le_between (a b : Q) (t : number) :
  js_le (Num a) t = true -> js_le t (Num b) = true ->
  exists q, t = Num q /\ (a <= q)%Q /\ (q <= b)%Q.
Proof.
  destruct t as [q| | |]; simpl; try discriminate.
  intros Ha Hb; exists q; repeat split; apply Qle_bool_iff; assumption.
Qed.

Lemma brackets_Num (p q : TimeSeriesPoint.t) (t : Q) :
  brackets p q (Num t) = true <->
  (TimeSeriesPoint.time p <= t)%Q /\ (t <= TimeSeriesPoint.time q)%Q.
Proof.
  unfold brackets, js_ge; rewrite andb_true_iff, !js_le_Num; tauto.
Qed.


(** On equal timestamps, which the bracket test then forces to equal the query
    time, the expression is [0 / 0]. *)
Lemma interpolate_degenerate (p q : TimeSeriesPoint.t) (t : Q) :
  (TimeSeriesPoint.time q == TimeSeriesPoint.time p)%Q ->
  brackets p q (Num t) = true ->
  interpolate p q (Num t) = NaN.
Proof.
  intros Heq Hb; apply brackets_Num in Hb; destruct Hb as [H1 H2].
  unfold interpolate, interpolationRatio, js_sub; simpl.
  assert (E : Qeq_bool (TimeSeriesPoint.time q + - TimeSeriesPoint.time p) 0 = true).
  { apply Qeq_bool_iff; rewrite Heq; ring. }
  rewrite E.
  assert (Ht : (t + - TimeSeriesPoint.time p == 0)%Q).
  { assert (t == TimeSeriesPoint.time p)%Q
      by (apply Qle_antisym; [rewrite <- Heq; exact H2 | exact H1]).
    rewrite H; ring. }
  rewrite (proj1 (Qeq_alt _ _) Ht); reflexivity.
Qed.

(* ================================================================== *)
(** ** The statistics queries *)

Lemma matchesStatistic_hasKey type componentId metricName file :
  matchesStatistic type componentId metricName file = true
  <-> hasKey type componentId metricName file.
Proof.
  unfold matchesStatistic, hasKey, optional_string_eqb.
  rewrite !andb_true_iff, !String.eqb_eq.
  destruct (StatisticsMetadata.componentId (StatisticsFile.metadata file)) as [c|].
  - rewrite String.eqb_eq; split.
    + intros [[-> ->] ->]; auto.
    + intros (-> & -> & [= ->]); auto.
  - split; [intros [_ Hf]; discriminate | intros (_ & _ & Hf); discriminate].
Qed.

(** [getStatistic] returns the first file, in cache order, that has the key. *)
Lemma getStatistic_Some this type componentId metricName file :
  getStatistic this type componentId metricName = Some file ->
  In file (map_values (loadedStatisticsFiles this))
  /\ hasKey type componentId metricName file.
Proof.
  unfold getStatistic; intros Hf; apply find_some in Hf.
  destruct Hf as [Hin Hm]; split; [exact Hin|].
  apply matchesStatistic_hasKey; exact Hm.
Qed.

Lemma getStatistic_None this type componentId metricName :
  getStatistic this type componentId metricName = None <->
  forall file, In file (map_values (loadedStatisticsFiles this)) ->
               ~ hasKey type componentId metricName file.
Proof.
  unfold getStatistic; split.
  - intros Hn file Hin Hk.
    apply matchesStatistic_hasKey in Hk.
    rewrite (find_none _ _ Hn file Hin) in Hk; discriminate.
  - intros Hall.
    destruct (find _ _) as [file|] eqn:E; [|reflexivity].
    apply find_some in E; destruct E as [Hin Hm].
    apply matchesStatistic_hasKey in Hm; exfalso; exact (Hall file Hin Hm).
Qed.

Lemma nth_error_defined_below {A} (l : list A) (j k : nat) (a : A) :
  nth_error l k = Some a -> (j <= k)%nat -> exists b, nth_error l j = Some b.
Proof.
  intros Hk Hle.
  destruct (nth_error l j) as [b|] eqn:E; [eauto|].
  apply nth_error_None in E.
  assert (nth_error l k = None) by (apply nth_error_None; lia).
  congruence.
Qed.
Arguments nth_error_defined_below {A l} j {k a}.


Lemma interpolation_loop_None points time remaining : forall i,
  interpolation_loop points time i remaining = None <->
  forall k p q,
    (i <= k < i + remaining)%nat ->
    nth_error points k = Some p -> nth_error points (S k) = Some q ->
    brackets p q time = false.
Proof.
  induction remaining as [|n IH]; intros i; cbn [interpolation_loop].
  - split; [intros _ k p q Hr; lia | reflexivity].
  - rewrite Nat.add_1_r.
    destruct (nth_error points i) as [p|] eqn:Ep;
      [destruct (nth_error points (S i)) as [q|] eqn:Eq|].
    + destruct (brackets p q time) eqn:Eb.
      * split; [discriminate|].
        intros Hall; rewrite (Hall i p q) in Eb by (auto; lia); discriminate.
      * rewrite IH; split.
        -- intros Hall k p' q' Hr Hp Hq.
           destruct (Nat.eq_dec k i) as [->|Hne]; [congruence|].
           apply (Hall k); auto; lia.
        -- intros Hall k p' q' Hr; apply Hall; lia.
    + split; [|reflexivity].
      intros _ k p' q' Hr Hp Hq.
      destruct (nth_error_defined_below (S i) Hq) as [b Hb]; [lia|congruence].
    + split; [|reflexivity].
      intros _ k p' q' Hr Hp Hq.
      destruct (nth_error_defined_below i Hp) as [b Hb]; [lia|congruence].
Qed.

Lemma pair_index_bound {A} (l : list A) (k : nat) (a : A) :
  nth_error l (S k) = Some a -> (0 <= k < 0 + (List.length l - 1))%nat.
Proof.
  intros Hk.
  assert (S k < List.length l)%nat by (apply nth_error_Some; congruence).
  lia.
Qed.
Arguments pair_index_bound {A} l {k a}.


Lemma scan_None points time :
  interpolation_loop points time 0 (List.length points - 1) = None <->
  noBracket points time.
Proof.
  rewrite interpolation_loop_None; unfold noBracket; split.
  - intros Hall i p q Hp Hq; apply (Hall i); auto.
    apply (pair_index_bound _ Hq).
  - intros Hall k p q _; apply Hall.
Qed.



Lemma strictlyAscending_lt points : strictlyAscending points ->
  forall d i p q, nth_error points i = Some p -> nth_error points (i + S d) = Some q ->
    (TimeSeriesPoint.time p < TimeSeriesPoint.time q)%Q.
Proof.
  intros Hasc; induction d as [|d IH]; intros i p q Hp Hq.
  - rewrite Nat.add_1_r in Hq; apply (Hasc i); auto.
  - rewrite Nat.add_succ_r in Hq.
    destruct (nth_error_defined_below (i + S d) Hq) as [m Hm]; [lia|].
    apply Qlt_trans with (TimeSeriesPoint.time m); [apply (IH i); auto|].
    apply (Hasc (i + S d)%nat); auto.
Qed.




(** ** Range queries *)

Lemma filter_subsequence {A} (f : A -> bool) (l : list A) :
  subsequence (filter f l) l.
Proof.
  induction l as [|a l IH]; simpl; [constructor|].
  destruct (f a); constructor; exact IH.
Qed.

Lemma js_gt_Num (a b : Q) : js_gt (Num a) (Num b) = true <-> (b < a)%Q.
Proof. simpl; rewrite negb_true_iff; apply Qle_bool_false. Qed.

(** When [start > end] no timestamp lies in the range. *)
Lemma inRange_empty start end_ point :
  js_gt start end_ = true -> inRange start end_ point = false.
Proof.
  intros Hgt; unfold inRange, js_ge.
  destruct (js_le start (Num (TimeSeriesPoint.time point))) eqn:E1; [|reflexivity].
  destruct (js_le (Num (TimeSeriesPoint.time point)) end_) eqn:E2; [|reflexivity].
  exfalso; destruct start as [s| | |], end_ as [e| | |];
    simpl in *; try discriminate.
  apply Qle_bool_iff in E1, E2.
  rewrite negb_true_iff in Hgt; apply Qle_bool_false in Hgt.
  apply (Qlt_irrefl e), Qlt_le_trans with s; [exact Hgt|].
  apply Qle_trans with (TimeSeriesPoint.time point); assumption.
Qed.

Lemma filter_all_false {A} (f : A -> bool) (l : list A) :
  (forall a, In a l -> f a = false) -> filter f l = [].
Proof.
  induction l as [|a l IH]; simpl; intros Hall; [reflexivity|].
  rewrite (Hall a) by auto; apply IH; auto.
Qed.

(** C7: [getStatisticTimeSeriesForRange] returns exactly the points of the
    matched file's series with [start <= time <= end], in file order; the
    result is the empty sequence when no file matches the key, when no point
    qualifies and when [start > end]. *)
Theorem C7_getStatisticTimeSeriesForRange_filters :
  forall (this : AnimationData.t) (type componentId metricName : string)
         (start end_ : number),
    let result :=
      getStatisticTimeSeriesForRange this type componentId metricName start end_ in
    match getStatistic this type componentId metricName with
    | Some stat =>
        result = filter (inRange start end_) (StatisticsFile.timeSeries stat)
        /\ subsequence result (StatisticsFile.timeSeries stat)
        /\ (forall point, In point result <->
              In point (StatisticsFile.timeSeries stat)
              /\ js_le start (Num (TimeSeriesPoint.time point)) = true
              /\ js_le (Num (TimeSeriesPoint.time point)) end_ = true)
        /\ ((forall point, In point (StatisticsFile.timeSeries stat) ->
                           inRange start end_ point = false) -> result = [])
    | None => result = []
    end
    /\ ((forall file, In file (map_values (loadedStatisticsFiles this)) ->
                      ~ hasKey type componentId metricName file) -> result = [])
    /\ (js_gt start end_ = true -> result = [])
    /\ (forall s e : Q, start = Num s -> end_ = Num e ->
        forall point, In point result ->
          (s <= TimeSeriesPoint.time point)%Q /\ (TimeSeriesPoint.time point <= e)%Q).
Proof.
  intros this type componentId metricName start end_ result.
  unfold getStatisticTimeSeriesForRange in result; subst result.
  assert (Hgt : forall l, js_gt start end_ = true ->
                          filter (inRange start end_) l = []).
  { intros l Hgt; apply filter_all_false; intros point _.
    apply inRange_empty; exact Hgt. }
  assert (Hfin : forall l (lo hi : Q), start = Num lo -> end_ = Num hi ->
            forall point, In point (filter (inRange start end_) l) ->
            (lo <= TimeSeriesPoint.time point)%Q
            /\ (TimeSeriesPoint.time point <= hi)%Q).
  { intros l lo hi -> -> point Hin; apply filter_In in Hin.
    destruct Hin as [_ Hr]; unfold inRange, js_ge in Hr.
    apply andb_true_iff in Hr; rewrite !js_le_Num in Hr; exact Hr. }
  destruct (getStatistic this type componentId metricName) as [stat|] eqn:Es.
  - split; [|split; [|split]].
    + split; [reflexivity | split; [apply filter_subsequence | split]].
      * intros point; rewrite filter_In; unfold inRange, js_ge.
        rewrite andb_true_iff; tauto.
      * apply filter_all_false.
    + intros Hall; apply getStatistic_None in Hall; congruence.
    + apply Hgt.
    + apply Hfin.
  - split; [reflexivity | split; [reflexivity | split; [reflexivity|]]].
    intros lo hi _ _ point [].
Qed.

Lemma C7_sample_ranges :
  getStatisticTimeSeriesForRange SampleStatistics.data
    "activity_metric" "act1" "utilization" (Num 0) (Num 4)
  = [SampleStatistics.point 0 0; SampleStatistics.point 4 1]
  /\ getStatisticTimeSeriesForRange SampleStatistics.data
       "activity_metric" "act1" "utilization" (Num 5) (Num 1) = []
  /\ getStatisticTimeSeriesForRange SampleStatistics.data
       "activity_metric" "act9" "utilization" NegInf PosInf = [].
Proof.
  split; [|split].
  - destruct (C7_getStatisticTimeSeriesForRange_filters SampleStatistics.data
                "activity_metric" "act1" "utilization" (Num 0) (Num 4))
      as [Hmatch _].
    cbv zeta in Hmatch; simpl getStatistic in Hmatch.
    destruct Hmatch as [Heq _]; rewrite Heq; reflexivity.
  - destruct (C7_getStatisticTimeSeriesForRange_filters SampleStatistics.data
                "activity_metric" "act1" "utilization" (Num 5) (Num 1))
      as (_ & _ & Hgt & _).
    apply Hgt; reflexivity.
  - destruct (C7_getStatisticTimeSeriesForRange_filters SampleStatistics.data
                "activity_metric" "act9" "utilization" NegInf PosInf)
      as [Hmatch _].
    exact Hmatch.
Defined.


(* ================================================================== *)
(** ** The sample study, run *)

Example sample_discovered_registry :
  map_keys (availableReplications (object SampleStudy.discovered)) = [1%Z; 3%Z].
Proof. reflexivity. Qed.

Example sample_discovered_calls :
  calls SampleStudy.discovered =
  [ListDirectory "replications";
   Fetch TManifest "replications/rep_001/animation_manifest_rep_001.json";
   Fetch TModelLayout "shared/layout_old.json";
   Fetch TSharedVisualConfig "shared/visual.json";
   Fetch TManifest "replications/rep_002/animation_manifest_rep_002.json";
   Fetch TManifest "replications/rep_003/animation_manifest_rep_003.json";
   Fetch TModelLayout "shared/layout.json"].
Proof. reflexivity. Qed.

Example sample_active1_entities :
  getLoadedEntityIds (object SampleStudy.active1) = ["e1"; "e2"; "e3"]%string
  /\ map_get "e2"%string (entityPathsById (object SampleStudy.active1))
     = Some (PathOf SampleStudy.customerLate).
Proof. split; reflexivity. Qed.

Example sample_active3_caches :
  getLoadedEntityIds (object SampleStudy.active3) = ["e7"]%string
  /\ map_keys (loadedStatisticsFiles (object SampleStudy.active3))
     = ["rep3/queue.json"; "rep3/utilization.json"]%string
  /\ map_keys (loadedEntityPathBatches (object SampleStudy.active3))
     = ["rep3/paths.json"]%string.
Proof. repeat split; reflexivity. Qed.

(* ================================================================== *)
(** ** Reasoning about computations *)

Lemma run_ret {A} (a : A) w : run (ret a) w = w.
Proof. reflexivity. Qed.

Lemma run_bind {A B} (c : Async A) (k : A -> Async B) w :
  run (bind c k) w = run (k (result c w)) (run c w).
Proof. unfold run, result, bind; destruct (c w); reflexivity. Qed.

Lemma result_bind {A B} (c : Async A) (k : A -> Async B) w :
  result (bind c k) w = result (k (result c w)) (run c w).
Proof. unfold run, result, bind; destruct (c w); reflexivity. Qed.

Lemma run_forEach {A} (body : A -> Async unit) (l : list A) : forall w,
  run (forEach l body) w = fold_left (fun w a => run (body a) w) l w.
Proof.
  induction l as [|a l IH]; intros w; simpl; [reflexivity|].
  rewrite run_bind; apply IH.
Qed.

Lemma world_eta w : {| object := object w; calls := calls w |} = w.
Proof. destruct w; reflexivity. Qed.

Section Frames.
Context {X : Type} (proj : AnimationData.t -> X).

Lemma keeps_ret {A} (a : A) : keeps proj (ret a).
  Proof. intros w; reflexivity. Qed.

Lemma keeps_bind {A B} (c : Async A) (k : A -> Async B) :
    keeps proj c -> (forall a, keeps proj (k a)) -> keeps proj (bind c k).
  Proof. intros Hc Hk w; rewrite run_bind, Hk, Hc; reflexivity. Qed.

Lemma keeps_get : keeps proj get_this.
  Proof. intros w; reflexivity. Qed.

Lemma keeps_emit e : keeps proj (emit e).
  Proof. intros w; reflexivity. Qed.

Lemma keeps_update f : (forall o, proj (f o) = proj o) -> keeps proj (update_this f).
  Proof. intros Hf w; apply Hf. Qed.

Lemma keeps_forEach {A} (body : A -> Async unit) (l : list A) :
    (forall a, keeps proj (body a)) -> keeps proj (forEach l body).
  Proof.
    intros Hbody; induction l as [|a l IH]; simpl.
    - apply keeps_ret.
    - apply keeps_bind; auto.
  Qed.

Lemma keeps_forEachUntilThrow {A} (body : A -> Async (Settled unit)) (l : list A) :
    (forall a, keeps proj (body a)) -> keeps proj (forEachUntilThrow l body).
  Proof.
    intros Hbody; induction l as [|a l IH]; simpl.
    - apply keeps_ret.
    - apply keeps_bind; [apply Hbody|intros [[]|error]]; [exact IH|apply keeps_ret].
  Qed.

Lemma keeps_mapM {A B} (f : A -> Async B) (l : list A) :
    (forall a, keeps proj (f a)) -> keeps proj (mapM f l).
  Proof.
    intros Hf; induction l as [|a l IH]; simpl.
    - apply keeps_ret.
    - apply keeps_bind; [apply Hf|intros b].
      apply keeps_bind; [exact IH|intros bs; apply keeps_ret].
  Qed.
End Frames.

Section Invariants.
Variable I : World -> Prop.

Lemma maintains_ret {A} (a : A) : maintains I (ret a).
  Proof. intros w Hw; exact Hw. Qed.

Lemma maintains_bind {A B} (c : Async A) (k : A -> Async B) :
    maintains I c -> (forall a, maintains I (k a)) -> maintains I (bind c k).
  Proof. intros Hc Hk w Hw; rewrite run_bind; apply Hk, Hc, Hw. Qed.

Lemma maintains_get : maintains I get_this.
  Proof. intros w Hw; exact Hw. Qed.

Lemma maintains_forEach {A} (body : A -> Async unit) (l : list A) :
    (forall a, In a l -> maintains I (body a)) -> maintains I (forEach l body).
  Proof.
    induction l as [|a l IH]; simpl; intros Hbody.
    - apply maintains_ret.
    - apply maintains_bind; [apply Hbody; auto | intros _; apply IH; auto].
  Qed.

Lemma maintains_mapM {A B} (f : A -> Async B) (l : list A) :
    (forall a, In a l -> maintains I (f a)) -> maintains I (mapM f l).
  Proof.
    induction l as [|a l IH]; simpl; intros Hf.
    - apply maintains_ret.
    - apply maintains_bind; [apply Hf; auto | intros b].
      apply maintains_bind; [apply IH; auto | intros bs; apply maintains_ret].
  Qed.
End Invariants.

Lemma appends_ret {A} (a : A) : appends (ret a).
Proof. intros w; exists []; rewrite app_nil_r; reflexivity. Qed.

Lemma appends_bind {A B} (c : Async A) (k : A -> Async B) :
  appends c -> (forall a, appends (k a)) -> appends (bind c k).
Proof.
  intros Hc Hk w; rewrite run_bind.
  destruct (Hc w) as [n1 H1]; destruct (Hk (result c w) (run c w)) as [n2 H2].
  exists (n1 ++ n2); rewrite H2, H1, app_assoc; reflexivity.
Qed.

(** The steps a frame or invariant proof takes through a method body. *)
Ltac frame_step :=
  first
    [ apply keeps_ret | apply keeps_get | apply keeps_emit
    | apply keeps_update; intros; reflexivity
    | apply keeps_forEach; intros
    | apply keeps_forEachUntilThrow; intros
    | apply keeps_mapM; intros
    | apply keeps_bind; [|intros]
    | match goal with
      | |- keeps _ (match ?x with _ => _ end) => destruct x
      | |- keeps _ (let (_, _) := ?x in _) => destruct x
      end ].

Ltac frame := repeat frame_step.

Section MethodFacts.
Variable reader : FileReader.t.
Variable JSON_parse : forall T : DocType, string -> option (docOf T).

Local Abbreviation fetch := (fetchAndParseJSON reader JSON_parse).
Local Abbreviation doc := (document reader JSON_parse).

Lemma fetchAndParseJSON_spec T relativePath w :
    fetch T relativePath w = (doc T relativePath, logged (Fetch T relativePath) w).
  Proof.
    unfold fetchAndParseJSON, document, bind, emit, ret, logged.
    destruct (FileReader.readFileAsText reader relativePath) as [content|];
      [destruct (truthy_string content)|]; reflexivity.
  Qed.

Lemma keeps_fetch {X} (proj : AnimationData.t -> X) T relativePath :
    keeps proj (fetch T relativePath).
  Proof. intros w; unfold run; rewrite fetchAndParseJSON_spec; reflexivity. Qed.

  (** *** What each method leaves alone *)

Ltac method_frame :=
    repeat first [ apply keeps_fetch | frame_step ].

Lemma discoverItem_keeps_caches item :
    keeps loadedEntityPathBatches (discoverItem reader JSON_parse item)
    /\ keeps entityPathsById (discoverItem reader JSON_parse item)
    /\ keeps loadedStatisticsFiles (discoverItem reader JSON_parse item)
    /\ keeps activeReplicationId (discoverItem reader JSON_parse item).
  Proof. unfold discoverItem; repeat split; method_frame. Qed.

Lemma discovery_keeps_caches :
    keeps loadedEntityPathBatches (initializeOrDiscoverReplications reader JSON_parse)
    /\ keeps entityPathsById (initializeOrDiscoverReplications reader JSON_parse)
    /\ keeps loadedStatisticsFiles (initializeOrDiscoverReplications reader JSON_parse)
    /\ keeps activeReplicationId (initializeOrDiscoverReplications reader JSON_parse).
  Proof.
    unfold initializeOrDiscoverReplications; repeat split; method_frame;
      apply discoverItem_keeps_caches.
  Qed.
End MethodFacts.

(* ================================================================== *)
(** ** What the loaders compute *)

Lemma object_eta_index o : set_entityPathsById (entityPathsById o) o = o.
Proof. destruct o; reflexivity. Qed.

Lemma object_eta_statistics o :
  set_loadedStatisticsFiles (loadedStatisticsFiles o) o = o.
Proof. destruct o; reflexivity. Qed.

(** The indexing loop of [loadEntityPathBatch]. *)
Lemma index_loop_spec (entries : list (string * EntityPath.t)) : forall w,
  forEach entries (fun '(id, path) =>
    update_this (fun o =>
      set_entityPathsById (map_set id (PathOf path) (entityPathsById o)) o)) w
  = (tt, {| object :=
              set_entityPathsById
                (fold_left (fun index '(id, path) => map_set id (PathOf path) index)
                           entries (entityPathsById (object w)))
                (object w);
            calls := calls w |}).
Proof.
  induction entries as [|[id path] rest IH]; intros w; simpl.
  - unfold ret; rewrite object_eta_index, world_eta; reflexivity.
  - unfold bind at 1, update_this at 1; rewrite IH; reflexivity.
Qed.

Section LoaderFacts.
Variable reader : FileReader.t.
Variable JSON_parse : forall T : DocType, string -> option (docOf T).

Local Abbreviation fetch := (fetchAndParseJSON reader JSON_parse).
Local Abbreviation doc := (document reader JSON_parse).
Local Abbreviation load := (loadEntityPathBatch reader JSON_parse).
Local Abbreviation issue := (loadStatisticsFile_issue reader JSON_parse).

Lemma loadEntityPathBatch_spec fileInfo w :
  let filePath := EntityPathDataFileInfo.filePath fileInfo in
  run (load fileInfo) w =
  if map_has filePath (loadedEntityPathBatches (object w)) then w
  else
    match doc TEntityPathBatch filePath with
    | None => logged (Fetch TEntityPathBatch filePath) w
    | Some batch =>
        {| object :=
             set_entityPathsById
               (mergeBatch (entityPathsById (object w)) batch)
               (set_loadedEntityPathBatches
                  (map_set filePath batch (loadedEntityPathBatches (object w)))
                  (object w));
           calls := calls w ++ [Fetch TEntityPathBatch filePath] |}
    end.
Proof.
  intros filePath; unfold run, loadEntityPathBatch, bind at 1, get_this; fold filePath.
  destruct (map_has filePath (loadedEntityPathBatches (object w))); [reflexivity|].
  unfold bind at 1; rewrite fetchAndParseJSON_spec.
  destruct (doc TEntityPathBatch filePath) as [batch|]; [|reflexivity].
  unfold bind, update_this at 1; rewrite index_loop_spec; reflexivity.
Qed.

Lemma loadStatisticsFile_issue_spec fileInfo w :
  let filePath := StatisticsDataFileInfo.filePath fileInfo in
  issue fileInfo w =
  if map_has filePath (loadedStatisticsFiles (object w)) then (None, w)
  else (Some (filePath, doc TStatisticsFile filePath),
        logged (Fetch TStatisticsFile filePath) w).
Proof.
  intros filePath; unfold loadStatisticsFile_issue, bind at 1, get_this; fold filePath.
  destruct (map_has filePath (loadedStatisticsFiles (object w))); [reflexivity|].
  unfold bind; rewrite fetchAndParseJSON_spec; reflexivity.
Qed.

(** While the array of promises is built the cache does not change: every
    call tests the cache the method was entered with. *)
Lemma issue_all_spec (files : list StatisticsDataFileInfo.t) : forall w,
  mapM issue files w =
  (map (fun fileInfo =>
          let filePath := StatisticsDataFileInfo.filePath fileInfo in
          if map_has filePath (loadedStatisticsFiles (object w)) then None
          else Some (filePath, doc TStatisticsFile filePath)) files,
   {| object := object w;
      calls := calls w ++
        map (Fetch TStatisticsFile)
            (filter (fun filePath =>
                       negb (map_has filePath (loadedStatisticsFiles (object w))))
                    (map StatisticsDataFileInfo.filePath files)) |}).
Proof.
  induction files as [|fileInfo rest IH]; intros w; simpl.
  - unfold ret; rewrite app_nil_r, world_eta; reflexivity.
  - unfold bind at 1; rewrite loadStatisticsFile_issue_spec; cbv zeta.
    destruct (map_has (StatisticsDataFileInfo.filePath fileInfo)
                      (loadedStatisticsFiles (object w))); simpl.
    + unfold bind at 1; rewrite IH; reflexivity.
    + unfold bind at 1; rewrite IH; simpl.
      rewrite <- app_assoc; reflexivity.
Qed.

Lemma resume_spec pending w :
  run (loadStatisticsFile_resume pending) w =
  {| object :=
       set_loadedStatisticsFiles
         (applyCompleted (loadedStatisticsFiles (object w)) pending) (object w);
     calls := calls w |}.
Proof.
  destruct pending as [filePath [statFile|]]; unfold applyCompleted; simpl.
  - reflexivity.
  - unfold run, ret; simpl; rewrite object_eta_statistics, world_eta; reflexivity.
Qed.

Lemma resume_all_spec (completed : list (string * option StatisticsFile.t)) :
  forall w,
  run (forEach completed loadStatisticsFile_resume) w =
  {| object :=
       set_loadedStatisticsFiles
         (fold_left applyCompleted completed (loadedStatisticsFiles (object w)))
         (object w);
     calls := calls w |}.
Proof.
  induction completed as [|pending rest IH]; intros w; simpl.
  - unfold run, ret; simpl; rewrite object_eta_statistics, world_eta; reflexivity.
  - rewrite run_bind, IH, resume_spec; reflexivity.
Qed.

Lemma issued_pending (cache : Map string StatisticsFile.t)
    (files : list StatisticsDataFileInfo.t) :
  somes (map (fun fileInfo =>
                let filePath := StatisticsDataFileInfo.filePath fileInfo in
                if map_has filePath cache then None
                else Some (filePath, doc TStatisticsFile filePath)) files)
  = map (fun filePath => (filePath, doc TStatisticsFile filePath))
        (filter (fun filePath => negb (map_has filePath cache))
                (map StatisticsDataFileInfo.filePath files)).
Proof.
  induction files as [|fileInfo rest IH]; simpl; [reflexivity|].
  destruct (map_has (StatisticsDataFileInfo.filePath fileInfo) cache); simpl.
  - exact IH.
  - f_equal; exact IH.
Qed.

(** [loadAllStatisticsFiles] on a whole. *)
Lemma loadAllStatisticsFiles_spec order files w :
  let cache := loadedStatisticsFiles (object w) in
  let paths := filter (fun filePath => negb (map_has filePath cache))
                      (map StatisticsDataFileInfo.filePath files) in
  run (loadAllStatisticsFiles reader JSON_parse order files) w =
  {| object :=
       set_loadedStatisticsFiles
         (fold_left applyCompleted
            (completionOrder order
               (map (fun filePath => (filePath, doc TStatisticsFile filePath)) paths))
            cache)
         (object w);
     calls := calls w ++ map (Fetch TStatisticsFile) paths |}.
Proof.
  intros cache paths; unfold loadAllStatisticsFiles.
  rewrite run_bind; unfold result, run at 2; rewrite issue_all_spec; simpl fst; simpl snd.
  rewrite resume_all_spec; simpl.
  rewrite issued_pending; reflexivity.
Qed.

(** [setActiveReplication] on a whole. *)
Lemma setActiveReplication_spec order replicationId w :
  setActiveReplication reader JSON_parse order replicationId w =
  match map_get replicationId (availableReplications (object w)) with
  | None => (false, w)
  | Some manifest =>
      (true,
       run (loadAllStatisticsFiles reader JSON_parse order
              (ReplicationManifestData.statisticsDataFiles manifest))
           (run (forEach (ReplicationManifestData.entityPathDataFiles manifest) load)
                (cleared replicationId w)))
  end.
Proof.
  unfold setActiveReplication, bind at 1, get_this.
  destruct (map_get replicationId (availableReplications (object w))) as [manifest|];
    [|reflexivity].
  unfold bind at 1 2 3 4, update_this; simpl.
  change {| object := _; calls := calls w |} with (cleared replicationId w).
  unfold bind, ret, run.
  destruct (forEach _ _ (cleared replicationId w)) as [[] w1]; simpl.
  destruct (loadAllStatisticsFiles _ _ _ _ w1) as [[] w2]; reflexivity.
Qed.
Lemma setActiveReplication_spec_unknown order replicationId w :
  map_get replicationId (availableReplications (object w)) = None ->
  setActiveReplication reader JSON_parse order replicationId w = (false, w).
Proof. intros Hreg; rewrite setActiveReplication_spec, Hreg; reflexivity. Qed.
End LoaderFacts.

(* ================================================================== *)
(** ** The entity index and the batch cache *)

Lemma mergeBatch_keys (batch : EntityPathBatch) : forall index id,
  In id (map_keys (mergeBatch index batch)) <->
  In id (map_keys index) \/ In id (map_keys batch).
Proof.
  unfold mergeBatch, Object_entries.
  induction batch as [|[id' path] rest IH]; intros index id; simpl.
  - tauto.
  - rewrite IH, map_keys_set; intuition congruence.
Qed.

Lemma lastWriteWinsUnion_snoc batches filePath batch :
  lastWriteWinsUnion (batches ++ [(filePath, batch)])
  = mergeBatch (lastWriteWinsUnion batches) batch.
Proof. unfold lastWriteWinsUnion; rewrite fold_left_app; reflexivity. Qed.

Lemma union_keys_from (batches : Map string EntityPathBatch) : forall index id,
  In id (map_keys (fold_left (fun index '(_, batch) => mergeBatch index batch)
                             batches index)) <->
  In id (map_keys index)
  \/ exists filePath batch, In (filePath, batch) batches /\ In id (map_keys batch).
Proof.
  induction batches as [|[filePath batch] rest IH]; intros index id; simpl.
  - split; [auto | intros [Hin | (f & b & [] & _)]; exact Hin].
  - rewrite IH, mergeBatch_keys; split.
    + intros [[Hin | Hin] | (f & b & Hin & Hid)]; eauto 6.
    + intros [Hin | (f & b & [[= <- <-] | Hin] & Hid)]; eauto 6.
Qed.

(** The ids of the union are the ids of the batches. *)
Lemma lastWriteWinsUnion_keys batches id :
  In id (map_keys (lastWriteWinsUnion batches)) <->
  exists filePath batch, In (filePath, batch) batches /\ In id (map_keys batch).
Proof.
  unfold lastWriteWinsUnion; rewrite union_keys_from; simpl; tauto.
Qed.

Lemma own_get_keys (batch : EntityPathBatch) id :
  own_get batch id <> None <-> In id (map_keys batch).
Proof. unfold own_get; apply map_get_In. Qed.

(** A property lookup finds the own entry, else the inherited member. *)
Lemma batch_get_not_own (batch : EntityPathBatch) id :
  ~ In id (map_keys batch) ->
  batch_get batch id
  = if inherited id then Some (PrototypeMember id) else None.
Proof.
  intros Hnot; unfold batch_get.
  destruct (own_get batch id) eqn:Eown; [|reflexivity].
  exfalso; apply Hnot, own_get_keys; congruence.
Qed.

Lemma map_get_app {V} (k : string) (m1 m2 : Map string V) :
  map_get k (m1 ++ m2)
  = match map_get k m1 with Some v => Some v | None => map_get k m2 end.
Proof.
  induction m1 as [|[k' v] m1 IH]; simpl; [reflexivity|].
  destruct (String.eqb k k'); [reflexivity | exact IH].
Qed.

(** The fallback scan finds nothing when no cached batch holds the id. *)
Lemma scanBatches_nothing entityId (batches : list (string * EntityPathBatch)) w :
  (forall filePath batch, In (filePath, batch) batches ->
                          batch_get batch entityId = None) ->
  scanBatches entityId batches w = (None, w).
Proof.
  induction batches as [|[filePath batch] rest IH]; simpl; intros Hnone.
  - reflexivity.
  - rewrite (Hnone filePath batch) by auto; apply IH; eauto.
Qed.

(** The fallback scan when no cached batch has an own entry for the id: the
    first batch answers with the inherited member, if the id names one. *)
Lemma scanBatches_not_own entityId (batches : list (string * EntityPathBatch)) w :
  (forall filePath batch, In (filePath, batch) batches ->
                          ~ In entityId (map_keys batch)) ->
  scanBatches entityId batches w =
  match batches with
  | [] => (None, w)
  | _ :: _ =>
      if inherited entityId
      then (Some (PrototypeMember entityId),
            {| object :=
                 set_entityPathsById
                   (map_set entityId (PrototypeMember entityId)
                            (entityPathsById (object w))) (object w);
               calls := calls w |})
      else (None, w)
  end.
Proof.
  intros Hnot; destruct batches as [|[filePath batch] rest]; [reflexivity|].
  destruct (inherited entityId) eqn:Einh.
  - cbn [scanBatches]; rewrite batch_get_not_own, Einh by (eapply Hnot; simpl; eauto).
    reflexivity.
  - apply scanBatches_nothing; intros f b Hin.
    rewrite batch_get_not_own, Einh by (eapply Hnot; eauto); reflexivity.
Qed.

(** Every own entry of a cached batch has its id in the index. *)
Lemma extends_indexed o filePath batch id :
  indexExtendsUnion o ->
  In (filePath, batch) (loadedEntityPathBatches o) ->
  In id (map_keys batch) ->
  In id (map_keys (entityPathsById o)).
Proof.
  intros (extras & Heq & _) Hin Hid; rewrite Heq.
  unfold map_keys; rewrite map_app; apply in_or_app; left.
  apply lastWriteWinsUnion_keys; eauto.
Qed.

(** [getEntityPath], case by case. *)
Lemma getEntityPath_spec entityId w :
  indexExtendsUnion (object w) ->
  getEntityPath entityId w =
  if map_has entityId (entityPathsById (object w))
  then (lookupEntityPath (object w) entityId, w)
  else
    match loadedEntityPathBatches (object w) with
    | [] => (None, w)
    | _ :: _ =>
        if inherited entityId
        then (Some (PrototypeMember entityId),
              {| object :=
                   set_entityPathsById
                     (entityPathsById (object w)
                      ++ [(entityId, PrototypeMember entityId)]) (object w);
                 calls := calls w |})
        else (None, w)
    end.
Proof.
  intros Hext; unfold getEntityPath, lookupEntityPath, bind, get_this.
  destruct (map_has entityId (entityPathsById (object w))) eqn:Ehas;
    [reflexivity|].
  rewrite scanBatches_not_own.
  - apply map_has_false in Ehas.
    rewrite (@map_set_fresh _ _ _ _ (PrototypeMember entityId) _ Ehas).
    reflexivity.
  - intros filePath batch Hin Hid.
    apply (@extends_indexed _ _ _ _ Hext Hin), map_has_In in Hid; congruence.
Qed.

(** An id of the index is answered from the index, whatever the state. *)
Lemma getEntityPath_indexed entityId w :
  map_has entityId (entityPathsById (object w)) = true ->
  getEntityPath entityId w = (lookupEntityPath (object w) entityId, w).
Proof.
  intros Ehas; unfold getEntityPath, lookupEntityPath, bind, get_this.
  rewrite Ehas; reflexivity.
Qed.

(** For an id that names no member of [Object.prototype], [getEntityPath] is
    the pure lookup and has no effect. *)
Lemma getEntityPath_consistent entityId w :
  indexExtendsUnion (object w) ->
  inherited entityId = false ->
  getEntityPath entityId w = (lookupEntityPath (object w) entityId, w).
Proof.
  intros Hext Hinh; rewrite (@getEntityPath_spec entityId _ Hext), Hinh.
  unfold lookupEntityPath.
  destruct (map_has entityId (entityPathsById (object w))) eqn:Ehas;
    [reflexivity|].
  apply map_has_false in Ehas; rewrite Ehas.
  destruct (loadedEntityPathBatches (object w)); reflexivity.
Qed.

Lemma consistent_extends o : indexConsistent o -> indexExtendsUnion o.
Proof.
  intros Hcons; exists []; rewrite app_nil_r; repeat split; auto; constructor.
Qed.

Lemma getEntityPath_extends entityId :
  maintains (fun w => indexExtendsUnion (object w)) (getEntityPath entityId).
Proof.
  intros w Hext; unfold run; rewrite (@getEntityPath_spec entityId _ Hext).
  destruct (map_has entityId (entityPathsById (object w))); [exact Hext|].
  destruct (loadedEntityPathBatches (object w)) as [|first rest] eqn:Eb;
    [exact Hext|].
  destruct (inherited entityId) eqn:Einh; [|exact Hext].
  destruct Hext as (extras & Heq & Hextras & _).
  exists (extras ++ [(entityId, PrototypeMember entityId)]).
  cbn [snd object entityPathsById loadedEntityPathBatches set_entityPathsById].
  rewrite Eb in *; split; [rewrite Heq, app_assoc; reflexivity|split].
  - apply Forall_app; split; [exact Hextras|].
    constructor; [split; [exact Einh | reflexivity] | constructor].
  - discriminate.
Qed.

(** The query writes the index only. *)
Lemma getEntityPath_keeps {X} (proj : AnimationData.t -> X) entityId :
  (forall index o, proj (set_entityPathsById index o) = proj o) ->
  keeps proj (getEntityPath entityId).
Proof.
  intros Hproj; unfold getEntityPath.
  apply keeps_bind; [apply keeps_get|intros o].
  destruct (map_has entityId (entityPathsById o)); [apply keeps_ret|].
  induction (loadedEntityPathBatches o) as [|[filePath batch] rest IH]; simpl.
  - apply keeps_ret.
  - destruct (batch_get batch entityId); [|exact IH].
    apply keeps_bind; [|intros; apply keeps_ret].
    apply keeps_update; intros; apply Hproj.
Qed.

Section ConsistencyFacts.
Variable reader : FileReader.t.
Variable JSON_parse : forall T : DocType, string -> option (docOf T).

Lemma loadEntityPathBatch_consistent fileInfo :
  maintains (fun w => indexConsistent (object w))
            (loadEntityPathBatch reader JSON_parse fileInfo).
Proof.
  intros w Hcons; rewrite loadEntityPathBatch_spec; cbv zeta.
  destruct (map_has _ _) eqn:Ehas; [exact Hcons|].
  destruct (document _ _ _ _) as [batch|]; [|exact Hcons].
  apply map_has_false in Ehas.
  rewrite (@map_set_fresh _ _ _ _ batch _ Ehas).
  unfold indexConsistent in *; cbn [object entityPathsById loadedEntityPathBatches
                                     set_entityPathsById set_loadedEntityPathBatches].
  rewrite lastWriteWinsUnion_snoc, Hcons; reflexivity.
Qed.

Lemma loadAllStatisticsFiles_keeps_entities order files w :
  let w' := run (loadAllStatisticsFiles reader JSON_parse order files) w in
  loadedEntityPathBatches (object w') = loadedEntityPathBatches (object w)
  /\ entityPathsById (object w') = entityPathsById (object w)
  /\ activeReplicationId (object w') = activeReplicationId (object w)
  /\ availableReplications (object w') = availableReplications (object w)
  /\ modelLayout (object w') = modelLayout (object w)
  /\ sharedVisualConfig (object w') = sharedVisualConfig (object w).
Proof.
  cbv zeta; rewrite loadAllStatisticsFiles_spec; repeat split.
Qed.

Lemma discovery_consistent :
  maintains (fun w => indexConsistent (object w))
            (initializeOrDiscoverReplications reader JSON_parse).
Proof.
  intros w Hcons; unfold indexConsistent in *.
  destruct (discovery_keeps_caches reader JSON_parse) as (Hb & Hi & _).
  rewrite Hb, Hi; exact Hcons.
Qed.

(** A successful activation ends consistent whatever it started from. *)
Lemma activation_consistent order replicationId w :
  indexConsistent (object w)
  \/ map_get replicationId (availableReplications (object w)) <> None ->
  indexConsistent
    (object (run (setActiveReplication reader JSON_parse order replicationId) w)).
Proof.
  intros Hpre; unfold run at 1; rewrite setActiveReplication_spec.
  destruct (map_get replicationId (availableReplications (object w)))
    as [manifest|]; simpl.
  - unfold indexConsistent.
    destruct (loadAllStatisticsFiles_keeps_entities order
                (ReplicationManifestData.statisticsDataFiles manifest)
                (run (forEach (ReplicationManifestData.entityPathDataFiles manifest)
                              (loadEntityPathBatch reader JSON_parse))
                     (cleared replicationId w))) as (Hb & Hi & _).
    rewrite Hb, Hi.
    apply (maintains_forEach (I := fun w => indexConsistent (object w))).
    + intros fileInfo _; apply loadEntityPathBatch_consistent.
    + reflexivity.
  - destruct Hpre as [Hcons | Hreg]; [exact Hcons | congruence].
Qed.
End ConsistencyFacts.

(** In every reachable state the index is the union of the cached batches,
    followed by the inherited members the entity-path query has added since
    the last activation. *)
Lemma reachable_extends JSON_parse w :
  reachable JSON_parse w -> indexExtendsUnion (object w).
Proof.
  induction 1 as [|reader w _ IH|reader order replicationId w _ IH
                  |entityId w _ IH|replicationId manifest w _ IH].
  - apply consistent_extends; reflexivity.
  - destruct (discovery_keeps_caches reader JSON_parse) as (Hb & Hi & _).
    unfold indexExtendsUnion; rewrite Hb, Hi; exact IH.
  - destruct (map_get replicationId (availableReplications (object w)))
      as [manifest|] eqn:Hreg.
    + apply consistent_extends, activation_consistent; right; congruence.
    + unfold run; rewrite setActiveReplication_spec_unknown by exact Hreg.
      exact IH.
  - apply getEntityPath_extends; exact IH.
  - exact IH.
Qed.


Unset Implicit Arguments.

(* ================================================================== *)
(** ** Completion orders are permutations *)

Lemma remove_nth_length {A} (l : list A) : forall k,
  (k < List.length l)%nat -> List.length (remove_nth k l) = (List.length l - 1)%nat.
Proof.
  induction l as [|a l IH]; intros k Hk; simpl in Hk; [lia|].
  destruct k as [|k]; simpl; [lia|].
  rewrite IH by lia; lia.
Qed.

Lemma nth_remove_nth_Permutation {A} (l : list A) : forall k d,
  (k < List.length l)%nat -> Permutation (nth k l d :: remove_nth k l) l.
Proof.
  induction l as [|a l IH]; intros k d Hk; simpl in Hk; [lia|].
  destruct k as [|k]; simpl; [reflexivity|].
  rewrite perm_swap; constructor; apply IH; lia.
Qed.

Lemma settle_Permutation {A} (n : nat) : forall (order : list nat) (pending : list A),
  List.length pending = n -> Permutation (settle n order pending) pending.
Proof.
  induction n as [|n IH]; intros order pending Hlen.
  - destruct pending; [constructor | discriminate].
  - destruct pending as [|first rest]; [discriminate|].
    cbn [settle].
    set (k := (hd 0 order mod List.length (first :: rest))%nat).
    assert (Hk : (k < List.length (first :: rest))%nat)
      by (apply Nat.mod_upper_bound; simpl; lia).
    apply Permutation_trans
      with (nth k (first :: rest) first :: remove_nth k (first :: rest));
      [|apply nth_remove_nth_Permutation; exact Hk].
    constructor; apply IH.
    rewrite remove_nth_length by exact Hk; simpl in *; lia.
Qed.

Lemma completionOrder_Permutation {A} (order : list nat) (pending : list A) :
  Permutation (completionOrder order pending) pending.
Proof. apply settle_Permutation; reflexivity. Qed.

Lemma completionOrder_fifo {A} (pending : list A) :
  completionOrder [] pending = pending.
Proof.
  unfold completionOrder; induction pending as [|a l IH]; [reflexivity|].
  cbn [List.length settle hd tl]; rewrite Nat.Div0.mod_0_l.
  simpl; f_equal; exact IH.
Qed.

(* ================================================================== *)
(** ** What an activation leaves in the caches *)

Lemma mem_In s l : mem s l = true <-> In s l.
Proof.
  unfold mem; rewrite existsb_exists; split.
  - intros (x & Hin & Heq); apply String.eqb_eq in Heq; subst; exact Hin.
  - intros Hin; exists s; split; [exact Hin | apply String.eqb_refl].
Qed.

Lemma mem_ext s l l' : (forall x, In x l <-> In x l') -> mem s l = mem s l'.
Proof.
  intros Hext; destruct (mem s l) eqn:E1, (mem s l') eqn:E2; try reflexivity.
  - apply mem_In, Hext, mem_In in E1; congruence.
  - apply mem_In, Hext, mem_In in E2; congruence.
Qed.

(** Resuming the pending loads, each carrying the document of its path. *)
Lemma resumed_lookup (document_of : string -> option StatisticsFile.t)
    (completed : list (string * option StatisticsFile.t)) :
  Forall (fun pending => snd pending = document_of (fst pending)) completed ->
  forall cache filePath,
    map_get filePath (fold_left applyCompleted completed cache) =
    if mem filePath (map fst completed)
    then match document_of filePath with
         | Some statFile => Some statFile
         | None => map_get filePath cache
         end
    else map_get filePath cache.
Proof.
  induction 1 as [|[p v] rest Hdoc _ IH]; intros cache filePath; simpl.
  - reflexivity.
  - simpl in Hdoc; subst v; rewrite IH; unfold applyCompleted; simpl.
    destruct (String.eqb filePath p) eqn:Ep; simpl.
    + apply String.eqb_eq in Ep; subst p.
      destruct (document_of filePath) as [statFile|].
      * rewrite map_get_set_same; destruct (mem filePath (map fst rest)); reflexivity.
      * destruct (mem filePath (map fst rest)); reflexivity.
    + assert (Hne : p <> filePath)
        by (intros ->; rewrite String.eqb_refl in Ep; discriminate).
      destruct (document_of p) as [statFile|];
        [rewrite (map_get_set_other _ _ Hne)|]; reflexivity.
Qed.

Lemma resumed_Forall (P : string * StatisticsFile.t -> Prop)
    (completed : list (string * option StatisticsFile.t)) :
  (forall filePath statFile, In (filePath, Some statFile) completed ->
                             P (filePath, statFile)) ->
  forall cache, Forall P cache -> Forall P (fold_left applyCompleted completed cache).
Proof.
  induction completed as [|[p [f|]] rest IH]; intros Hall cache Hcache; simpl.
  - exact Hcache.
  - apply IH; [intros; apply Hall; simpl; auto|].
    unfold applyCompleted; simpl; apply map_set_Forall; [exact Hcache|].
    apply Hall; simpl; auto.
  - apply IH; [intros; apply Hall; simpl; auto | exact Hcache].
Qed.

Lemma filter_uncached_empty (paths : list string) :
  filter (fun filePath =>
            negb (map_has filePath ([] : Map string StatisticsFile.t))) paths
  = paths.
Proof.
  induction paths as [|p rest IH]; [reflexivity|].
  simpl; f_equal; exact IH.
Qed.

Section ActivationFacts.
Variable reader : FileReader.t.
Variable JSON_parse : forall T : DocType, string -> option (docOf T).

Local Abbreviation doc := (document reader JSON_parse).
Local Abbreviation load := (loadEntityPathBatch reader JSON_parse).
Local Abbreviation activate := (setActiveReplication reader JSON_parse).

Lemma loadEntityPathBatch_keeps fileInfo :
  keeps loadedStatisticsFiles (load fileInfo)
  /\ keeps activeReplicationId (load fileInfo)
  /\ keeps availableReplications (load fileInfo)
  /\ keeps modelLayout (load fileInfo)
  /\ keeps sharedVisualConfig (load fileInfo).
Proof.
  repeat split; intros w; rewrite loadEntityPathBatch_spec; cbv zeta;
    destruct (map_has _ _); try reflexivity;
    destruct (document _ _ _ _); reflexivity.
Qed.

Lemma load_all_keeps files :
  keeps loadedStatisticsFiles (forEach files load)
  /\ keeps activeReplicationId (forEach files load)
  /\ keeps availableReplications (forEach files load)
  /\ keeps modelLayout (forEach files load)
  /\ keeps sharedVisualConfig (forEach files load).
Proof.
  repeat split; apply keeps_forEach; intros fileInfo;
    apply loadEntityPathBatch_keeps.
Qed.

(** The batch cache after loading [files], by path. *)
Lemma loaded_batches_lookup files : forall w filePath,
  map_get filePath (loadedEntityPathBatches (object (run (forEach files load) w))) =
  match map_get filePath (loadedEntityPathBatches (object w)) with
  | Some batch => Some batch
  | None =>
      if mem filePath (map EntityPathDataFileInfo.filePath files)
      then doc TEntityPathBatch filePath
      else None
  end.
Proof.
  induction files as [|fileInfo rest IH]; intros w filePath.
  - simpl; destruct (map_get filePath _); reflexivity.
  - cbn [forEach]; rewrite run_bind, IH, loadEntityPathBatch_spec.
    cbv zeta; cbn [map mem existsb].
    fold (mem filePath (map EntityPathDataFileInfo.filePath rest)).
    set (p := EntityPathDataFileInfo.filePath fileInfo).
    destruct (map_has p (loadedEntityPathBatches (object w))) eqn:Ehas.
    + destruct (map_get filePath (loadedEntityPathBatches (object w))) eqn:Eget;
        [reflexivity|].
      destruct (String.eqb filePath p) eqn:Ep; [|reflexivity].
      apply String.eqb_eq in Ep; subst filePath.
      apply map_has_false in Eget; congruence.
    + apply map_has_false in Ehas.
      destruct (doc TEntityPathBatch p) as [batch|] eqn:Edoc.
      * cbn [object loadedEntityPathBatches set_entityPathsById
             set_loadedEntityPathBatches].
        rewrite map_get_set; cbn [key_eqb KeyEq_string].
        destruct (String.eqb filePath p) eqn:Ep.
        -- apply String.eqb_eq in Ep; subst filePath.
           rewrite Ehas; simpl; symmetry; exact Edoc.
        -- reflexivity.
      * cbn [object logged].
        destruct (map_get filePath (loadedEntityPathBatches (object w))) eqn:Eget;
          [reflexivity|].
        destruct (String.eqb filePath p) eqn:Ep; [|reflexivity].
        apply String.eqb_eq in Ep; subst filePath; simpl.
        rewrite Edoc; destruct (mem p _); reflexivity.
Qed.

Lemma loaded_batches_Forall (P : string * EntityPathBatch -> Prop) files :
  (forall fileInfo batch,
      In fileInfo files ->
      doc TEntityPathBatch (EntityPathDataFileInfo.filePath fileInfo) = Some batch ->
      P (EntityPathDataFileInfo.filePath fileInfo, batch)) ->
  maintains (fun w => Forall P (loadedEntityPathBatches (object w)))
            (forEach files load).
Proof.
  intros HP; apply maintains_forEach; intros fileInfo Hin w Hw.
  rewrite loadEntityPathBatch_spec; cbv zeta.
  destruct (map_has _ _); [exact Hw|].
  destruct (document _ _ _ _) as [batch|] eqn:Edoc; [|exact Hw].
  cbn [object loadedEntityPathBatches set_entityPathsById set_loadedEntityPathBatches].
  apply map_set_Forall; [exact Hw | apply HP; assumption].
Qed.

(** Loading batches reads and writes the two entity structures only. *)
Lemma loaded_entities_independent files : forall w1 w2,
  loadedEntityPathBatches (object w1) = loadedEntityPathBatches (object w2) ->
  entityPathsById (object w1) = entityPathsById (object w2) ->
  loadedEntityPathBatches (object (run (forEach files load) w1))
  = loadedEntityPathBatches (object (run (forEach files load) w2))
  /\ entityPathsById (object (run (forEach files load) w1))
     = entityPathsById (object (run (forEach files load) w2)).
Proof.
  induction files as [|fileInfo rest IH]; intros w1 w2 Hb Hi.
  - split; assumption.
  - cbn [forEach]; rewrite !run_bind; apply IH;
      rewrite !loadEntityPathBatch_spec; cbv zeta; rewrite Hb;
      destruct (map_has _ _); try assumption;
      destruct (document _ _ _ _); try assumption;
      cbn [object loadedEntityPathBatches entityPathsById set_entityPathsById
           set_loadedEntityPathBatches]; congruence.
Qed.

(** The state a successful activation ends in. *)
Lemma activation_run order replicationId manifest w :
  map_get replicationId (availableReplications (object w)) = Some manifest ->
  run (activate order replicationId) w =
  run (loadAllStatisticsFiles reader JSON_parse order
         (ReplicationManifestData.statisticsDataFiles manifest))
      (run (forEach (ReplicationManifestData.entityPathDataFiles manifest) load)
           (cleared replicationId w))
  /\ result (activate order replicationId) w = true.
Proof.
  intros Hreg; unfold run at 1, result; rewrite setActiveReplication_spec, Hreg.
  split; reflexivity.
Qed.

Lemma activation_keeps order replicationId :
  keeps availableReplications (activate order replicationId)
  /\ keeps modelLayout (activate order replicationId)
  /\ keeps sharedVisualConfig (activate order replicationId).
Proof.
  repeat split; intros w;
    destruct (map_get replicationId (availableReplications (object w)))
      as [manifest|] eqn:Hreg;
    try (unfold run; rewrite setActiveReplication_spec, Hreg; reflexivity);
    rewrite (proj1 (activation_run order _ _ w Hreg));
    destruct (loadAllStatisticsFiles_keeps_entities reader JSON_parse order
                (ReplicationManifestData.statisticsDataFiles manifest)
                (run (forEach (ReplicationManifestData.entityPathDataFiles manifest)
                              load) (cleared replicationId w)))
      as (_ & _ & _ & Hr & Hl & Hc);
    destruct (load_all_keeps (ReplicationManifestData.entityPathDataFiles manifest))
      as (_ & _ & Hr' & Hl' & Hc').
  - rewrite Hr, Hr'; reflexivity.
  - rewrite Hl, Hl'; reflexivity.
  - rewrite Hc, Hc'; reflexivity.
Qed.

(** The statistics cache after a successful activation, as a list. *)
Lemma activation_statistics order replicationId manifest w :
  map_get replicationId (availableReplications (object w)) = Some manifest ->
  loadedStatisticsFiles (object (run (activate order replicationId) w)) =
  fold_left applyCompleted
    (completionOrder order
       (map (fun filePath => (filePath, doc TStatisticsFile filePath))
            (map StatisticsDataFileInfo.filePath
                 (ReplicationManifestData.statisticsDataFiles manifest))))
    []
  /\ calls (run (activate order replicationId) w) =
     calls (run (forEach (ReplicationManifestData.entityPathDataFiles manifest) load)
                (cleared replicationId w))
     ++ map (Fetch TStatisticsFile)
            (map StatisticsDataFileInfo.filePath
                 (ReplicationManifestData.statisticsDataFiles manifest)).
Proof.
  intros Hreg; rewrite (proj1 (activation_run order _ _ w Hreg)).
  rewrite loadAllStatisticsFiles_spec; cbv zeta.
  destruct (load_all_keeps (ReplicationManifestData.entityPathDataFiles manifest))
    as (Hs & _).
  assert (Hempty :
    loadedStatisticsFiles
      (object (run (forEach (ReplicationManifestData.entityPathDataFiles manifest) load)
                   (cleared replicationId w))) = [])
    by (rewrite Hs; reflexivity).
  rewrite !Hempty, filter_uncached_empty; split; reflexivity.
Qed.

(** The statistics cache after a successful activation, by path: whatever the
    order in which the loads complete. *)
Lemma activation_statistics_lookup order replicationId manifest w filePath :
  map_get replicationId (availableReplications (object w)) = Some manifest ->
  map_get filePath
    (loadedStatisticsFiles (object (run (activate order replicationId) w))) =
  if mem filePath (map StatisticsDataFileInfo.filePath
                       (ReplicationManifestData.statisticsDataFiles manifest))
  then doc TStatisticsFile filePath
  else None.
Proof.
  intros Hreg; rewrite (proj1 (activation_statistics order _ _ w Hreg)).
  set (paths := map StatisticsDataFileInfo.filePath
                    (ReplicationManifestData.statisticsDataFiles manifest)).
  set (pending := map (fun p => (p, doc TStatisticsFile p)) paths).
  assert (Hperm := completionOrder_Permutation order pending).
  rewrite (resumed_lookup (doc TStatisticsFile)).
  - match goal with
    | |- context [mem filePath ?completed] =>
        assert (Hmem : mem filePath completed = mem filePath paths)
    end.
    { apply mem_ext; intros x.
      rewrite (Permutation_in' (eq_refl x) (Permutation_map fst Hperm)).
      unfold pending; rewrite map_map; simpl; rewrite map_id; tauto. }
    rewrite Hmem; destruct (mem filePath paths); [|reflexivity].
    destruct (doc TStatisticsFile filePath); reflexivity.
  - apply Forall_forall; intros e He.
    apply (Permutation_in _ Hperm) in He; unfold pending in He.
    apply in_map_iff in He; destruct He as (p & <- & _); reflexivity.
Qed.

(** The caches a successful activation ends with do not depend on the state
    it starts from. *)
Lemma activation_independent order replicationId manifest w1 w2 :
  map_get replicationId (availableReplications (object w1)) = Some manifest ->
  map_get replicationId (availableReplications (object w2)) = Some manifest ->
  sameCaches (object (run (activate order replicationId) w1))
             (object (run (activate order replicationId) w2)).
Proof.
  intros H1 H2; unfold sameCaches.
  rewrite (proj1 (activation_statistics order _ _ w1 H1)),
          (proj1 (activation_statistics order _ _ w2 H2)).
  rewrite (proj1 (activation_run order _ _ w1 H1)), (proj1 (activation_run order _ _ w2 H2)).
  set (files := ReplicationManifestData.entityPathDataFiles manifest).
  set (stats := ReplicationManifestData.statisticsDataFiles manifest).
  destruct (loadAllStatisticsFiles_keeps_entities reader JSON_parse order stats
              (run (forEach files load) (cleared replicationId w1)))
    as (Hb1 & Hi1 & _).
  destruct (loadAllStatisticsFiles_keeps_entities reader JSON_parse order stats
              (run (forEach files load) (cleared replicationId w2)))
    as (Hb2 & Hi2 & _).
  rewrite Hb1, Hi1, Hb2, Hi2.
  destruct (loaded_entities_independent files (cleared replicationId w1)
              (cleared replicationId w2) eq_refl eq_refl) as [Hb Hi].
  repeat split; assumption.
Qed.
End ActivationFacts.

(** *** The reads an activation issues *)

Section ActivationLog.
Variable reader : FileReader.t.
Variable JSON_parse : forall T : DocType, string -> option (docOf T).

Local Abbreviation load := (loadEntityPathBatch reader JSON_parse).

Lemma loadEntityPathBatch_newly_cached fileInfo w filePath :
  map_has filePath (loadedEntityPathBatches (object w)) = false ->
  map_has filePath (loadedEntityPathBatches (object (run (load fileInfo) w))) = true ->
  filePath = EntityPathDataFileInfo.filePath fileInfo
  /\ map_has (EntityPathDataFileInfo.filePath fileInfo)
             (loadedEntityPathBatches (object w)) = false.
Proof.
  rewrite loadEntityPathBatch_spec; cbv zeta.
  destruct (map_has (EntityPathDataFileInfo.filePath fileInfo) _) eqn:Ehas;
    [congruence|].
  destruct (document _ _ _ _) as [batch|]; [|unfold logged; simpl; congruence].
  cbn [object loadedEntityPathBatches set_entityPathsById set_loadedEntityPathBatches].
  intros Hold Hnew; split; [|reflexivity].
  apply map_has_false in Hold.
  destruct (String.eqb_spec filePath (EntityPathDataFileInfo.filePath fileInfo))
    as [Heq|Hne]; [exact Heq|exfalso].
  unfold map_has in Hnew.
  rewrite map_get_set_other, Hold in Hnew by congruence; discriminate.
Qed.

(** Loading [files] fetches batch documents only, each at a path of [files],
    and fetches every path of [files] that is not cached yet. *)
Lemma load_all_calls files : forall w,
  exists new,
    calls (run (forEach files load) w) = calls w ++ new
    /\ (forall e, In e new ->
          exists fileInfo,
            In fileInfo files
            /\ e = Fetch TEntityPathBatch (EntityPathDataFileInfo.filePath fileInfo))
    /\ (forall fileInfo,
          In fileInfo files ->
          map_has (EntityPathDataFileInfo.filePath fileInfo)
                  (loadedEntityPathBatches (object w)) = false ->
          In (Fetch TEntityPathBatch (EntityPathDataFileInfo.filePath fileInfo)) new).
Proof.
  induction files as [|first rest IH]; intros w.
  - exists []; simpl; rewrite app_nil_r; repeat split; intros; contradiction.
  - cbn [forEach]; rewrite run_bind.
    destruct (IH (run (load first) w)) as (new & Hcalls & Honly & Hevery).
    assert (Hnewly := loadEntityPathBatch_newly_cached first w).
    rewrite Hcalls; clear Hcalls.
    revert Hevery Hnewly; rewrite loadEntityPathBatch_spec; cbv zeta.
    set (p := EntityPathDataFileInfo.filePath first).
    destruct (map_has p (loadedEntityPathBatches (object w))) eqn:Ehas.
    + intros Hevery _; exists new; split; [reflexivity|split].
      * intros e He; destruct (Honly e He) as (f & Hf & ->); exists f; simpl; auto.
      * intros f [<- | Hf] Hun; [fold p in Hun; congruence | auto].
    + assert (Hstep : forall w1,
                calls w1 = calls w ++ [Fetch TEntityPathBatch p] ->
                (forall f, In f rest ->
                   map_has (EntityPathDataFileInfo.filePath f)
                           (loadedEntityPathBatches (object w1)) = false ->
                   In (Fetch TEntityPathBatch (EntityPathDataFileInfo.filePath f)) new) ->
                (forall filePath,
                   map_has filePath (loadedEntityPathBatches (object w)) = false ->
                   map_has filePath (loadedEntityPathBatches (object w1)) = true ->
                   filePath = p /\ false = false) ->
                exists new',
                  calls w1 ++ new = calls w ++ new'
                  /\ (forall e, In e new' ->
                        exists f, In f (first :: rest)
                                  /\ e = Fetch TEntityPathBatch
                                           (EntityPathDataFileInfo.filePath f))
                  /\ (forall f, In f (first :: rest) ->
                        map_has (EntityPathDataFileInfo.filePath f)
                                (loadedEntityPathBatches (object w)) = false ->
                        In (Fetch TEntityPathBatch
                              (EntityPathDataFileInfo.filePath f)) new')).
      { intros w1 Hc Hevery Hnewly.
        exists (Fetch TEntityPathBatch p :: new); split; [|split].
        - rewrite Hc, <- app_assoc; reflexivity.
        - intros e [<- | He]; [exists first; simpl; auto|].
          destruct (Honly e He) as (f & Hf & ->); exists f; simpl; auto.
        - intros f [<- | Hf] Hun; [left; reflexivity|].
          destruct (map_has (EntityPathDataFileInfo.filePath f)
                            (loadedEntityPathBatches (object w1))) eqn:E1.
          + destruct (Hnewly _ Hun E1) as [-> _]; left; reflexivity.
          + right; apply Hevery; assumption. }
      destruct (document _ _ _ _) as [batch|]; intros Hevery Hnewly;
        apply Hstep; auto.
Qed.
End ActivationLog.

(* ================================================================== *)
(** ** Discovery *)

Lemma fetchesOf_app T (log1 log2 : list Event) :
  fetchesOf T (log1 ++ log2) = fetchesOf T log1 ++ fetchesOf T log2.
Proof.
  induction log1 as [|[relativePath|U relativePath] rest IH]; simpl.
  - reflexivity.
  - exact IH.
  - destruct (DocType_eqb T U); simpl; rewrite IH; reflexivity.
Qed.

Section DiscoveryFacts.
Variable reader : FileReader.t.
Variable JSON_parse : forall T : DocType, string -> option (docOf T).

Local Abbreviation doc := (document reader JSON_parse).
Local Abbreviation item_step := (discoverItem reader JSON_parse).
Local Abbreviation discover := (initializeOrDiscoverReplications reader JSON_parse).
Local Abbreviation loop items := (forEachUntilThrow items item_step).

(** One iteration of the discovery loop, step by step. *)
Lemma discoverItem_spec item w :
  run (item_step item) w =
  if isReplicationDirectory item then
    let manifestPath := manifestPathOf (FileListItem.name item) in
    match doc TManifest manifestPath with
    | None | Some WithoutMetadata => logged (Fetch TManifest manifestPath) w
    | Some (Manifest manifest) =>
        let metadata := ReplicationManifestData.metadata manifest in
        let layoutPath := ReplicationManifestMetadata.modelLayoutPath metadata in
        let configPath := ReplicationManifestMetadata.sharedVisualConfigPath metadata in
        let w1 :=
          {| object :=
               set_availableReplications
                 (map_set (ReplicationManifestMetadata.replication metadata) manifest
                          (availableReplications (object w))) (object w);
             calls := calls w ++ [Fetch TManifest manifestPath] |} in
        let w2 :=
          if negb (truthy (modelLayout (object w1))) && truthy_string layoutPath
          then {| object := set_modelLayout (doc TModelLayout layoutPath) (object w1);
                  calls := calls w1 ++ [Fetch TModelLayout layoutPath] |}
          else w1 in
        if negb (truthy (sharedVisualConfig (object w2))) && truthy_string configPath
        then {| object :=
                  set_sharedVisualConfig (doc TSharedVisualConfig configPath) (object w2);
                calls := calls w2 ++ [Fetch TSharedVisualConfig configPath] |}
        else w2
    end
  else w.
Proof.
  unfold discoverItem, isReplicationDirectory.
  destruct (FileListItem.isDirectory item); simpl; [|reflexivity].
  destruct (startsWith (FileListItem.name item) "rep_"); simpl; [|reflexivity].
  rewrite run_bind; unfold result, run at 2; rewrite fetchAndParseJSON_spec; simpl.
  destruct (doc TManifest (manifestPathOf (FileListItem.name item)))
    as [[manifest|]|]; [|reflexivity|reflexivity].
  unfold run, bind at 1, update_this at 1, bind at 1, get_this at 1.
  cbn [object calls logged].
  destruct (negb (truthy (modelLayout _)) && truthy_string _).
  - unfold bind at 1 2; rewrite fetchAndParseJSON_spec.
    unfold update_this at 1, bind at 1, get_this; cbn [object calls logged].
    destruct (negb (truthy (sharedVisualConfig _)) && truthy_string _).
    + unfold bind; rewrite fetchAndParseJSON_spec; reflexivity.
    + reflexivity.
  - unfold bind at 1, ret at 1, bind at 1, get_this; cbn [object calls].
    destruct (negb (truthy (sharedVisualConfig _)) && truthy_string _).
    + unfold bind; rewrite fetchAndParseJSON_spec; reflexivity.
    + reflexivity.
Qed.

(** An iteration throws exactly on a replication directory whose manifest has
    no [metadata]. *)
Lemma discoverItem_result item w :
  result (item_step item) w
  = if lacksMetadata reader JSON_parse item then Rejected TypeError
    else Fulfilled tt.
Proof.
  unfold discoverItem, lacksMetadata, isReplicationDirectory.
  destruct (FileListItem.isDirectory item); simpl; [|reflexivity].
  destruct (startsWith (FileListItem.name item) "rep_"); simpl; [|reflexivity].
  rewrite result_bind; unfold result at 2, run; rewrite fetchAndParseJSON_spec; simpl.
  destruct (doc TManifest (manifestPathOf (FileListItem.name item)))
    as [[manifest|]|]; try reflexivity.
  repeat (rewrite result_bind; cbv beta); reflexivity.
Qed.

(** The loop, one entry at a time. *)
Lemma discovery_loop_cons item rest w :
  run (loop (item :: rest)) w =
  if lacksMetadata reader JSON_parse item then run (item_step item) w
  else run (loop rest) (run (item_step item) w).
Proof.
  cbn [forEachUntilThrow]; rewrite run_bind, discoverItem_result.
  destruct (lacksMetadata reader JSON_parse item); reflexivity.
Qed.

Lemma discovery_loop_result items : forall w,
  result (loop items) w
  = if existsb (lacksMetadata reader JSON_parse) items then Rejected TypeError
    else Fulfilled tt.
Proof.
  induction items as [|item rest IH]; intros w; [reflexivity|].
  cbn [forEachUntilThrow existsb]; rewrite result_bind, discoverItem_result.
  destruct (lacksMetadata reader JSON_parse item); [reflexivity|apply IH].
Qed.

(** An iteration that throws has only fetched the manifest. *)
Lemma discoverItem_thrown item w :
  lacksMetadata reader JSON_parse item = true ->
  run (item_step item) w
  = logged (Fetch TManifest (manifestPathOf (FileListItem.name item))) w.
Proof.
  intros Hthrow; rewrite discoverItem_spec; revert Hthrow; unfold lacksMetadata.
  destruct (isReplicationDirectory item); [|discriminate].
  cbv zeta; destruct (doc TManifest _) as [[manifest|]|]; simpl;
    try discriminate; reflexivity.
Qed.

(** The loop visits the entries up to the first that throws. *)
Lemma discovery_loop_visited items : forall w,
  run (loop items) w = run (loop (visited reader JSON_parse items)) w.
Proof.
  induction items as [|item rest IH]; intros w; [reflexivity|].
  cbn [visited]; destruct (lacksMetadata reader JSON_parse item) eqn:Et;
    rewrite !discovery_loop_cons, Et; [reflexivity | apply IH].
Qed.

(** The whole method is the loop over the listing, when there is one. *)
Lemma discovery_spec w :
  run discover w =
  match FileReader.listDirectoryContents reader "replications" with
  | None => logged (ListDirectory "replications") w
  | Some replicationItems =>
      run (loop replicationItems)
          (logged (ListDirectory "replications") w)
  end.
Proof.
  unfold initializeOrDiscoverReplications; rewrite run_bind.
  destruct (FileReader.listDirectoryContents reader "replications"); reflexivity.
Qed.

(** Entries that are skipped can be dropped from the listing. *)
Lemma discovery_loop_filter items : forall w,
  run (loop items) w
  = run (loop (filter isReplicationDirectory items)) w.
Proof.
  induction items as [|item rest IH]; intros w; [reflexivity|].
  cbn [filter]; rewrite discovery_loop_cons.
  destruct (isReplicationDirectory item) eqn:Eq.
  - rewrite discovery_loop_cons.
    destruct (lacksMetadata reader JSON_parse item); [reflexivity|apply IH].
  - unfold lacksMetadata; rewrite Eq; cbn [andb].
    rewrite discoverItem_spec, Eq; apply IH.
Qed.

Lemma discoveredManifests_cons item rest :
  discoveredManifests reader JSON_parse (item :: rest) =
  if isReplicationDirectory item then
    match doc TManifest (manifestPathOf (FileListItem.name item)) with
    | Some (Manifest manifest) =>
        manifest :: discoveredManifests reader JSON_parse rest
    | Some WithoutMetadata => []
    | None => discoveredManifests reader JSON_parse rest
    end
  else discoveredManifests reader JSON_parse rest.
Proof.
  unfold discoveredManifests; cbn [visited]; unfold lacksMetadata.
  destruct (isReplicationDirectory item) eqn:Eq; cbn [andb].
  - destruct (doc TManifest (manifestPathOf (FileListItem.name item)))
      as [[manifest|]|] eqn:Ed; cbn [filter]; rewrite Eq; cbn [map somes];
      unfold manifestOf at 1; rewrite Ed; reflexivity.
  - cbn [filter]; rewrite Eq; reflexivity.
Qed.

(** *** The registry and the manifests read *)

Lemma discovery_loop_registry items : forall w,
  availableReplications (object (run (loop items) w))
  = registerAll (discoveredManifests reader JSON_parse items)
                (availableReplications (object w))
  /\ fetchesOf TManifest (calls (run (loop items) w))
     = fetchesOf TManifest (calls w)
       ++ map (fun item => manifestPathOf (FileListItem.name item))
              (filter isReplicationDirectory (visited reader JSON_parse items)).
Proof.
  induction items as [|item rest IH]; intros w.
  - simpl; rewrite app_nil_r; split; reflexivity.
  - rewrite discovery_loop_cons; cbn [visited].
    destruct (lacksMetadata reader JSON_parse item) eqn:Et.
    { rewrite (discoverItem_thrown item w Et), discoveredManifests_cons.
      unfold lacksMetadata in Et; apply andb_true_iff in Et; destruct Et as [Eq Ed].
      cbn [filter]; rewrite Eq.
      destruct (doc TManifest (manifestPathOf (FileListItem.name item)))
        as [[manifest|]|]; try discriminate.
      unfold logged; cbn [object calls registerAll fold_left map].
      rewrite fetchesOf_app; split; reflexivity. }
    destruct (IH (run (item_step item) w)) as [IHr IHm]; rewrite IHr, IHm.
    rewrite discoveredManifests_cons, discoverItem_spec; cbn [filter].
    unfold lacksMetadata in Et.
    destruct (isReplicationDirectory item); [|split; reflexivity].
    cbv zeta.
    destruct (doc TManifest (manifestPathOf (FileListItem.name item)))
      as [[manifest|]|]; [|discriminate|].
    + destruct (negb (truthy (modelLayout _)) && truthy_string _);
        destruct (negb (truthy (sharedVisualConfig _)) && truthy_string _);
        cbn [object calls availableReplications set_availableReplications
             set_modelLayout set_sharedVisualConfig];
        rewrite ?fetchesOf_app; simpl; rewrite ?app_nil_r, <- ?app_assoc;
        split; reflexivity.
    + unfold logged; cbn [object calls]; rewrite fetchesOf_app; simpl.
      rewrite <- app_assoc; split; reflexivity.
Qed.

Lemma registerAll_keys manifests : forall registry id,
  In id (map_keys (registerAll manifests registry)) <->
  In id (map_keys registry)
  \/ exists manifest,
       In manifest manifests
       /\ ReplicationManifestMetadata.replication
            (ReplicationManifestData.metadata manifest) = id.
Proof.
  unfold registerAll.
  induction manifests as [|m rest IH]; intros registry id; simpl.
  - split; [auto | intros [H | (m & [] & _)]; exact H].
  - rewrite IH, map_keys_set; split.
    + intros [[-> | Hin] | (m' & Hin & Hid)]; eauto.
    + intros [Hin | (m' & [<- | Hin] & Hid)]; eauto.
Qed.

(** *** The shared documents *)

(** While a shared document is set, an iteration neither fetches nor
    assigns it. *)
Lemma discoverItem_layout_set item w layout :
  modelLayout (object w) = Some layout ->
  modelLayout (object (run (item_step item) w)) = Some layout
  /\ fetchesOf TModelLayout (calls (run (item_step item) w))
     = fetchesOf TModelLayout (calls w).
Proof.
  intros Hset; rewrite discoverItem_spec.
  destruct (isReplicationDirectory item); [|auto].
  cbv zeta; destruct (doc TManifest _) as [[manifest|]|].
  - cbn [object modelLayout set_availableReplications]; rewrite Hset.
    cbn [truthy negb andb].
    destruct (negb (truthy (sharedVisualConfig _)) && truthy_string _);
      cbn [object calls modelLayout set_sharedVisualConfig set_availableReplications];
      rewrite ?fetchesOf_app; simpl; rewrite ?app_nil_r; auto.
  - unfold logged; cbn [object calls]; rewrite fetchesOf_app; simpl.
    rewrite app_nil_r; auto.
  - unfold logged; cbn [object calls]; rewrite fetchesOf_app; simpl.
    rewrite app_nil_r; auto.
Qed.

Lemma discoverItem_config_set item w config :
  sharedVisualConfig (object w) = Some config ->
  sharedVisualConfig (object (run (item_step item) w)) = Some config
  /\ fetchesOf TSharedVisualConfig (calls (run (item_step item) w))
     = fetchesOf TSharedVisualConfig (calls w).
Proof.
  intros Hset; rewrite discoverItem_spec.
  destruct (isReplicationDirectory item); [|auto].
  cbv zeta; destruct (doc TManifest _) as [[manifest|]|].
  - destruct (negb (truthy (modelLayout _)) && truthy_string _);
      cbn [object sharedVisualConfig set_modelLayout set_availableReplications];
      rewrite Hset; cbn [truthy negb andb calls];
      rewrite ?fetchesOf_app; simpl; rewrite ?app_nil_r; auto.
  - unfold logged; cbn [object calls]; rewrite fetchesOf_app; simpl.
    rewrite app_nil_r; auto.
  - unfold logged; cbn [object calls]; rewrite fetchesOf_app; simpl.
    rewrite app_nil_r; auto.
Qed.

Lemma discovery_loop_layout_set items : forall w layout,
  modelLayout (object w) = Some layout ->
  modelLayout (object (run (loop items) w)) = Some layout
  /\ fetchesOf TModelLayout (calls (run (loop items) w))
     = fetchesOf TModelLayout (calls w).
Proof.
  induction items as [|item rest IH]; intros w layout Hset; [auto|].
  rewrite discovery_loop_cons.
  destruct (discoverItem_layout_set item w layout Hset) as [H1 H2].
  destruct (lacksMetadata reader JSON_parse item); [auto|].
  destruct (IH _ _ H1) as [H3 H4]; rewrite H3, H4, H2; auto.
Qed.

Lemma discovery_loop_config_set items : forall w config,
  sharedVisualConfig (object w) = Some config ->
  sharedVisualConfig (object (run (loop items) w)) = Some config
  /\ fetchesOf TSharedVisualConfig (calls (run (loop items) w))
     = fetchesOf TSharedVisualConfig (calls w).
Proof.
  induction items as [|item rest IH]; intros w config Hset; [auto|].
  rewrite discovery_loop_cons.
  destruct (discoverItem_config_set item w config Hset) as [H1 H2].
  destruct (lacksMetadata reader JSON_parse item); [auto|].
  destruct (IH _ _ H1) as [H3 H4]; rewrite H3, H4, H2; auto.
Qed.

(** While the layout is unset, every discovered manifest that declares a path
    has it fetched, until a fetch yields a document. *)
Lemma discovery_loop_layout_unset items : forall w,
  modelLayout (object w) = None ->
  let paths := declaredPaths ReplicationManifestMetadata.modelLayoutPath
                             (discoveredManifests reader JSON_parse items) in
  modelLayout (object (run (loop items) w))
  = firstDocument reader JSON_parse TModelLayout paths
  /\ fetchesOf TModelLayout (calls (run (loop items) w))
     = fetchesOf TModelLayout (calls w)
       ++ attemptsUntilSuccess reader JSON_parse TModelLayout paths.
Proof.
  induction items as [|item rest IH]; intros w Hunset; cbv zeta.
  - simpl; rewrite app_nil_r; auto.
  - rewrite discovery_loop_cons, discoveredManifests_cons.
    destruct (lacksMetadata reader JSON_parse item) eqn:Et.
    { rewrite (discoverItem_thrown item w Et).
      unfold lacksMetadata in Et; apply andb_true_iff in Et; destruct Et as [Eq Ed].
      rewrite Eq.
      destruct (doc TManifest (manifestPathOf (FileListItem.name item)))
        as [[manifest|]|]; try discriminate.
      unfold logged; cbn [object calls declaredPaths map filter
                          firstDocument attemptsUntilSuccess].
      rewrite fetchesOf_app; simpl; rewrite !app_nil_r; auto. }
    unfold lacksMetadata in Et.
    assert (Hskip : forall w1,
              modelLayout (object w1) = None ->
              fetchesOf TModelLayout (calls w1) = fetchesOf TModelLayout (calls w) ->
              let paths := declaredPaths ReplicationManifestMetadata.modelLayoutPath
                             (discoveredManifests reader JSON_parse rest) in
              modelLayout (object (run (loop rest) w1))
              = firstDocument reader JSON_parse TModelLayout paths
              /\ fetchesOf TModelLayout (calls (run (loop rest) w1))
                 = fetchesOf TModelLayout (calls w)
                   ++ attemptsUntilSuccess reader JSON_parse TModelLayout paths).
    { intros w1 H1 H2; rewrite <- H2; apply IH; exact H1. }
    rewrite discoverItem_spec.
    destruct (isReplicationDirectory item); [|apply Hskip; auto].
    cbv zeta; destruct (doc TManifest _) as [[manifest|]|];
      [|discriminate
       |apply Hskip; [exact Hunset|];
        unfold logged; cbn [calls]; rewrite fetchesOf_app; simpl;
        apply app_nil_r].
    unfold declaredPaths; cbn [map filter].
    fold (declaredPaths ReplicationManifestMetadata.modelLayoutPath
            (discoveredManifests reader JSON_parse rest)).
    cbn [object modelLayout set_availableReplications]; rewrite Hunset.
    cbn [truthy negb andb].
    set (layoutPath := ReplicationManifestMetadata.modelLayoutPath
                         (ReplicationManifestData.metadata manifest)).
    destruct (truthy_string layoutPath).
    + cbn [attemptsUntilSuccess firstDocument].
      destruct (doc TModelLayout layoutPath) as [layout|] eqn:Edoc.
      * match goal with
        | |- context [run (loop rest) ?w2] =>
            destruct (discovery_loop_layout_set rest w2 layout) as [H1 H2]
        end.
        { destruct (negb (truthy (sharedVisualConfig _)) && truthy_string _);
            reflexivity. }
        rewrite H1, H2; split; [reflexivity|].
        destruct (negb (truthy (sharedVisualConfig _)) && truthy_string _);
          cbn [calls]; rewrite !fetchesOf_app; simpl; rewrite ?app_nil_r;
          reflexivity.
      * match goal with
        | |- context [run (loop rest) ?w2] =>
            destruct (IH w2) as [H1 H2]
        end.
        { destruct (negb (truthy (sharedVisualConfig _)) && truthy_string _);
            reflexivity. }
        rewrite H1, H2; split; [reflexivity|].
        destruct (negb (truthy (sharedVisualConfig _)) && truthy_string _);
          cbn [calls]; rewrite !fetchesOf_app; simpl;
          rewrite ?app_nil_r, <- ?app_assoc; reflexivity.
    + apply Hskip.
      * destruct (negb (truthy (sharedVisualConfig _)) && truthy_string _);
          exact Hunset.
      * destruct (negb (truthy (sharedVisualConfig _)) && truthy_string _);
          cbn [calls]; rewrite !fetchesOf_app; simpl; rewrite ?app_nil_r;
          reflexivity.
Qed.
End DiscoveryFacts.

(** Closes a goal about the rest of the loop from the fact [H] about it. *)
Ltac conclude_shared H :=
  let H1 := fresh in
  let H2 := fresh in
  destruct H as [H1 H2]; rewrite H1, H2; split; [reflexivity|];
  cbn [calls]; rewrite !fetchesOf_app; simpl;
  rewrite ?app_nil_r, <- ?app_assoc; reflexivity.

Section DiscoveryFactsMore.
Variable reader : FileReader.t.
Variable JSON_parse : forall T : DocType, string -> option (docOf T).

Local Abbreviation doc := (document reader JSON_parse).
Local Abbreviation item_step := (discoverItem reader JSON_parse).
Local Abbreviation discover := (initializeOrDiscoverReplications reader JSON_parse).
Local Abbreviation loop items := (forEachUntilThrow items item_step).

(** The same for the visual config, which an iteration fetches after the
    layout. *)
Lemma discovery_loop_config_unset items : forall w,
  sharedVisualConfig (object w) = None ->
  let paths := declaredPaths ReplicationManifestMetadata.sharedVisualConfigPath
                             (discoveredManifests reader JSON_parse items) in
  sharedVisualConfig (object (run (loop items) w))
  = firstDocument reader JSON_parse TSharedVisualConfig paths
  /\ fetchesOf TSharedVisualConfig (calls (run (loop items) w))
     = fetchesOf TSharedVisualConfig (calls w)
       ++ attemptsUntilSuccess reader JSON_parse TSharedVisualConfig paths.
Proof.
  induction items as [|item rest IH]; intros w Hunset; cbv zeta.
  - simpl; rewrite app_nil_r; auto.
  - rewrite discovery_loop_cons, discoveredManifests_cons.
    destruct (lacksMetadata reader JSON_parse item) eqn:Et.
    { rewrite (discoverItem_thrown reader JSON_parse item w Et).
      unfold lacksMetadata in Et; apply andb_true_iff in Et; destruct Et as [Eq Ed].
      rewrite Eq.
      destruct (doc TManifest (manifestPathOf (FileListItem.name item)))
        as [[manifest|]|]; try discriminate.
      unfold logged; cbn [object calls declaredPaths map filter
                          firstDocument attemptsUntilSuccess].
      rewrite fetchesOf_app; simpl; rewrite !app_nil_r; auto. }
    unfold lacksMetadata in Et.
    assert (Hskip : forall w1,
              sharedVisualConfig (object w1) = None ->
              fetchesOf TSharedVisualConfig (calls w1)
              = fetchesOf TSharedVisualConfig (calls w) ->
              let paths := declaredPaths ReplicationManifestMetadata.sharedVisualConfigPath
                             (discoveredManifests reader JSON_parse rest) in
              sharedVisualConfig (object (run (loop rest) w1))
              = firstDocument reader JSON_parse TSharedVisualConfig paths
              /\ fetchesOf TSharedVisualConfig (calls (run (loop rest) w1))
                 = fetchesOf TSharedVisualConfig (calls w)
                   ++ attemptsUntilSuccess reader JSON_parse TSharedVisualConfig paths).
    { intros w1 H1 H2; rewrite <- H2; apply IH; exact H1. }
    rewrite discoverItem_spec.
    destruct (isReplicationDirectory item); [|apply Hskip; auto].
    cbv zeta; destruct (doc TManifest _) as [[manifest|]|];
      [|discriminate
       |apply Hskip; [exact Hunset|];
        unfold logged; cbn [calls]; rewrite fetchesOf_app; simpl;
        apply app_nil_r].
    unfold declaredPaths; cbn [map filter].
    fold (declaredPaths ReplicationManifestMetadata.sharedVisualConfigPath
            (discoveredManifests reader JSON_parse rest)).
    set (configPath := ReplicationManifestMetadata.sharedVisualConfigPath
                         (ReplicationManifestData.metadata manifest)).
    destruct (negb (truthy (modelLayout _)) && truthy_string _);
      cbn [object sharedVisualConfig set_modelLayout set_availableReplications];
      rewrite Hunset; cbn [truthy negb andb];
      destruct (truthy_string configPath).
    + cbn [attemptsUntilSuccess firstDocument].
      destruct (doc TSharedVisualConfig configPath) as [config|] eqn:Edoc.
      * match goal with
        | |- context [run (loop rest) ?w2] =>
            conclude_shared
              (discovery_loop_config_set reader JSON_parse rest w2 config eq_refl)
        end.
      * match goal with
        | |- context [run (loop rest) ?w2] =>
            conclude_shared (IH w2 eq_refl)
        end.
    + apply Hskip; [exact Hunset|].
      cbn [calls]; rewrite !fetchesOf_app; simpl; rewrite ?app_nil_r; reflexivity.
    + cbn [attemptsUntilSuccess firstDocument].
      destruct (doc TSharedVisualConfig configPath) as [config|] eqn:Edoc.
      * match goal with
        | |- context [run (loop rest) ?w2] =>
            conclude_shared
              (discovery_loop_config_set reader JSON_parse rest w2 config eq_refl)
        end.
      * match goal with
        | |- context [run (loop rest) ?w2] =>
            conclude_shared (IH w2 eq_refl)
        end.
    + apply Hskip; [exact Hunset|].
      cbn [calls]; rewrite ?fetchesOf_app; simpl; rewrite ?app_nil_r; reflexivity.
Qed.

Lemma discoveredManifests_In items manifest :
  In manifest (discoveredManifests reader JSON_parse items) <->
  exists item,
    In item (visited reader JSON_parse items) /\ isReplicationDirectory item = true
    /\ doc TManifest (manifestPathOf (FileListItem.name item))
       = Some (Manifest manifest).
Proof.
  induction items as [|item rest IH].
  - simpl; split; [contradiction | intros (i & [] & _)].
  - rewrite discoveredManifests_cons; cbn [visited]; unfold lacksMetadata.
    destruct (isReplicationDirectory item) eqn:Eq; cbn [andb];
      [destruct (doc TManifest (manifestPathOf (FileListItem.name item)))
         as [[m|]|] eqn:Edoc|].
    + simpl; rewrite IH; split.
      * intros [<- | (i & Hi & Hq & Hd)]; [exists item; auto|exists i; auto].
      * intros (i & [<- | Hi] & Hq & Hd); [left; congruence | right; eauto].
    + simpl; split; [contradiction|].
      intros (i & [<- | []] & Hq & Hd); congruence.
    + rewrite IH; split.
      * intros (i & Hi & Hq & Hd); exists i; simpl; auto.
      * intros (i & [<- | Hi] & Hq & Hd); [congruence | eauto].
    + rewrite IH; split.
      * intros (i & Hi & Hq & Hd); exists i; simpl; auto.
      * intros (i & [<- | Hi] & Hq & Hd); [congruence | eauto].
Qed.
End DiscoveryFactsMore.

Lemma unit_result (c : Async unit) w : c w = (tt, run c w).
Proof. unfold run; destruct (c w) as [[] w']; reflexivity. Qed.

(** Only the last fetch made for a shared document can yield one. *)
Lemma attemptsUntilSuccess_earlier_failed reader JSON_parse T paths :
  forall earlier relativePath later,
    attemptsUntilSuccess reader JSON_parse T paths
    = earlier ++ relativePath :: later ->
    later <> [] ->
    document reader JSON_parse T relativePath = None.
Proof.
  induction paths as [|p rest IH]; intros earlier relativePath later Heq Hlater;
    simpl in Heq.
  - destruct earlier; discriminate.
  - destruct (document reader JSON_parse T p) eqn:Edoc.
    + destruct earlier as [|e [|e' earlier]]; simpl in Heq.
      * injection Heq as _ Hl; subst later; contradiction.
      * discriminate.
      * discriminate.
    + destruct earlier as [|e earlier]; simpl in Heq.
      * injection Heq as <- _; exact Edoc.
      * injection Heq as _ Heq; exact (IH _ _ _ Heq Hlater).
Qed.

(** The document kept is the one the last fetch yields. *)
Lemma firstDocument_last_attempt reader JSON_parse T paths :
  firstDocument reader JSON_parse T paths =
  match rev (attemptsUntilSuccess reader JSON_parse T paths) with
  | [] => None
  | relativePath :: _ => document reader JSON_parse T relativePath
  end.
Proof.
  induction paths as [|p rest IH]; simpl; [reflexivity|].
  destruct (document reader JSON_parse T p) eqn:Edoc; simpl.
  - symmetry; exact Edoc.
  - rewrite IH.
    destruct (rev (attemptsUntilSuccess reader JSON_parse T rest)) as [|q l];
      simpl; [symmetry; exact Edoc | reflexivity].
Qed.

(** C10 (what the code does): the flat index is the last-write-wins union of
    the cached batches after every successful activation, from any state, and
    discovery and batch loading keep the equality.  The entity-path query
    keeps it only for an id that is indexed or names no member of
    [Object.prototype]: asked for an inherited name while a batch is cached,
    it appends that member to the index, which then holds an entry no cached
    batch has.  In every reachable state the index is the union followed by
    such entries. *)
Theorem C10_index_is_union_until_inherited_lookup :
  forall (JSON_parse : forall T : DocType, string -> option (docOf T)),
    (forall w, reachable JSON_parse w ->
       exists extras,
         entityPathsById (object w)
         = lastWriteWinsUnion (loadedEntityPathBatches (object w)) ++ extras
         /\ inheritedEntries extras
         /\ (loadedEntityPathBatches (object w) = [] -> extras = []))
    /\ (forall reader w,
          indexConsistent (object w) ->
          indexConsistent
            (object (run (initializeOrDiscoverReplications reader JSON_parse) w)))
    /\ (forall reader fileInfo w,
          indexConsistent (object w) ->
          indexConsistent
            (object (run (loadEntityPathBatch reader JSON_parse fileInfo) w)))
    /\ (forall entityId w,
          indexConsistent (object w) ->
          map_has entityId (entityPathsById (object w)) = true
          \/ inherited entityId = false
          \/ loadedEntityPathBatches (object w) = [] ->
          run (getEntityPath entityId) w = w)
    /\ (forall entityId w,
          indexConsistent (object w) ->
          map_has entityId (entityPathsById (object w)) = false ->
          inherited entityId = true ->
          loadedEntityPathBatches (object w) <> [] ->
          let w' := run (getEntityPath entityId) w in
          loadedEntityPathBatches (object w') = loadedEntityPathBatches (object w)
          /\ entityPathsById (object w')
             = lastWriteWinsUnion (loadedEntityPathBatches (object w'))
               ++ [(entityId, PrototypeMember entityId)]
          /\ ~ indexConsistent (object w'))
    /\ (forall reader order replicationId w,
          indexConsistent (object w)
          \/ map_get replicationId (availableReplications (object w)) <> None ->
          indexConsistent
            (object (run (setActiveReplication reader JSON_parse order
                                               replicationId) w)))
    /\ (forall reader order replicationId manifest w1 w2,
          map_get replicationId (availableReplications (object w1)) = Some manifest ->
          map_get replicationId (availableReplications (object w2)) = Some manifest ->
          let w1' := run (setActiveReplication reader JSON_parse order
                                               replicationId) w1 in
          let w2' := run (setActiveReplication reader JSON_parse order
                                               replicationId) w2 in
          loadedEntityPathBatches (object w1') = loadedEntityPathBatches (object w2')
          /\ entityPathsById (object w1') = entityPathsById (object w2'))
    /\ (forall reader order replicationId manifest w,
          map_get replicationId (availableReplications (object w)) = Some manifest ->
          ReplicationManifestData.entityPathDataFiles manifest = [] ->
          let w' := run (setActiveReplication reader JSON_parse order
                                              replicationId) w in
          loadedEntityPathBatches (object w') = []
          /\ entityPathsById (object w') = []).
Proof.
  intros JSON_parse.
  split; [apply reachable_extends|].
  split; [intros reader w; apply discovery_consistent|].
  split; [intros reader fileInfo w; apply loadEntityPathBatch_consistent|].
  split; [|split; [|split; [|split]]].
  - intros entityId w Hcons Hcase; unfold run.
    rewrite (@getEntityPath_spec entityId _ (consistent_extends Hcons)).
    destruct (map_has entityId (entityPathsById (object w))); [reflexivity|].
    destruct (loadedEntityPathBatches (object w)); [reflexivity|].
    destruct (inherited entityId); [|reflexivity].
    destruct Hcase as [H | [H | H]]; discriminate.
  - intros entityId w Hcons Hhas Hinh Hsome; cbv zeta; unfold run.
    rewrite (@getEntityPath_spec entityId _ (consistent_extends Hcons)), Hhas, Hinh.
    destruct (loadedEntityPathBatches (object w)) as [|first rest] eqn:Eb;
      [contradiction|].
    cbn [snd object loadedEntityPathBatches entityPathsById set_entityPathsById].
    rewrite Eb, Hcons, Eb; split; [reflexivity|split; [reflexivity|]].
    unfold indexConsistent.
    cbn [object loadedEntityPathBatches entityPathsById set_entityPathsById].
    rewrite Eb; intros Heq; apply (f_equal (@List.length _)) in Heq.
    rewrite length_app in Heq; simpl in Heq; lia.
  - intros reader order replicationId w; apply activation_consistent.
  - intros reader order replicationId manifest w1 w2 H1 H2; cbv zeta.
    destruct (activation_independent reader JSON_parse order replicationId
                manifest w1 w2 H1 H2) as (Hb & Hi & _).
    split; assumption.
  - intros reader order replicationId manifest w Hreg Hnone; cbv zeta.
    rewrite (proj1 (activation_run reader JSON_parse order _ _ w Hreg)), Hnone.
    destruct (loadAllStatisticsFiles_keeps_entities reader JSON_parse order
                (ReplicationManifestData.statisticsDataFiles manifest)
                (run (forEach [] (loadEntityPathBatch reader JSON_parse))
                     (cleared replicationId w))) as (Hb & Hi & _).
    rewrite Hb, Hi; split; reflexivity.
Qed.

Lemma sample_active1_reachable :
  reachable SampleStudy.JSON_parse SampleStudy.active1.
Proof.
  unfold SampleStudy.active1, SampleStudy.discovered.
  apply reachable_activate, reachable_discover, reachable_new.
Qed.

Lemma C10_sample_inherited_lookup :
  let w' := run (getEntityPath "constructor") SampleStudy.active1 in
  loadedEntityPathBatches (object w')
  = loadedEntityPathBatches (object SampleStudy.active1)
  /\ entityPathsById (object w')
     = lastWriteWinsUnion (loadedEntityPathBatches (object w'))
       ++ [("constructor"%string, PrototypeMember "constructor")]
  /\ ~ indexConsistent (object w').
Proof.
  apply (proj1 (proj2 (proj2 (proj2 (proj2
           (C10_index_is_union_until_inherited_lookup SampleStudy.JSON_parse)))))
           "constructor"%string SampleStudy.active1).
  - reflexivity.
  - reflexivity.
  - reflexivity.
  - discriminate.
Defined.

(** C4 (what the code does): in every reachable state [getEntityPath] returns
    what the pure lookup in the flat index returns, and leaves the state as it
    found it, for every id that is indexed or names no member of
    [Object.prototype]; no cached batch has an own entry the index lacks.  For
    a name inherited from [Object.prototype] that is not indexed, while a
    batch is cached, the pure lookup finds nothing but the fallback returns
    the inherited member and appends it to the index. *)
Theorem C4_getEntityPath_answers_inherited_names :
  forall (JSON_parse : forall T : DocType, string -> option (docOf T))
         (w : World) (entityId : string),
    reachable JSON_parse w ->
    (map_has entityId (entityPathsById (object w)) = true
     \/ inherited entityId = false
     \/ loadedEntityPathBatches (object w) = [] ->
     getEntityPath entityId w = (lookupEntityPath (object w) entityId, w))
    /\ (map_has entityId (entityPathsById (object w)) = false ->
        inherited entityId = true ->
        loadedEntityPathBatches (object w) <> [] ->
        lookupEntityPath (object w) entityId = None
        /\ getEntityPath entityId w
           = (Some (PrototypeMember entityId),
              {| object :=
                   set_entityPathsById
                     (entityPathsById (object w)
                      ++ [(entityId, PrototypeMember entityId)]) (object w);
                 calls := calls w |}))
    /\ (map_has entityId (entityPathsById (object w)) = false ->
        forall filePath batch,
          In (filePath, batch) (loadedEntityPathBatches (object w)) ->
          own_get batch entityId = None).
Proof.
  intros JSON_parse w entityId Hreach.
  assert (Hext := reachable_extends Hreach).
  rewrite (@getEntityPath_spec entityId _ Hext); unfold lookupEntityPath.
  split; [|split].
  - intros Hcase.
    destruct (map_has entityId (entityPathsById (object w))) eqn:Ehas;
      [reflexivity|].
    apply map_has_false in Ehas; rewrite Ehas.
    destruct (loadedEntityPathBatches (object w)); [reflexivity|].
    destruct (inherited entityId); [|reflexivity].
    destruct Hcase as [H | [H | H]]; discriminate.
  - intros Ehas Hinh Hsome; rewrite Ehas, Hinh.
    apply map_has_false in Ehas; split; [exact Ehas|].
    destruct (loadedEntityPathBatches (object w)); [contradiction|reflexivity].
  - intros Ehas filePath batch Hin.
    destruct (own_get batch entityId) as [found|] eqn:Eown; [exfalso|reflexivity].
    assert (Hkey : In entityId (map_keys batch))
      by (apply own_get_keys; congruence).
    apply (@extends_indexed _ _ _ _ Hext Hin), map_has_In in Hkey; congruence.
Qed.

Lemma C4_sample_constructor :
  lookupEntityPath (object SampleStudy.active1) "constructor" = None
  /\ getEntityPath "constructor" SampleStudy.active1
     = (Some (PrototypeMember "constructor"),
        {| object :=
             set_entityPathsById
               (entityPathsById (object SampleStudy.active1)
                ++ [("constructor"%string, PrototypeMember "constructor")])
               (object SampleStudy.active1);
           calls := calls SampleStudy.active1 |}).
Proof.
  apply (proj1 (proj2 (@C4_getEntityPath_answers_inherited_names
                         SampleStudy.JSON_parse SampleStudy.active1 "constructor"
                         sample_active1_reachable))).
  - reflexivity.
  - reflexivity.
  - discriminate.
Defined.

(* ================================================================== *)
(** ** Activation *)

(** C2: when [replicationId] is not a key of the registry,
    [setActiveReplication] returns false and leaves the whole state (and the
    log) as it was.  When it is a key, the call returns true, records it as
    the active replication, keeps the registry and the shared documents, and
    ends with caches rebuilt from nothing: the batch cache and the statistics
    cache hold, at each path the manifest references, the document read there
    and nothing at any other path, and the entity index is the union of the
    cached batches.  It fetches every batch path and every statistics path of
    the manifest. *)
Theorem C2_setActiveReplication_contract :
  forall (reader : FileReader.t)
         (JSON_parse : forall T : DocType, string -> option (docOf T))
         (order : list nat) (replicationId : Z) (w : World),
    match map_get replicationId (availableReplications (object w)) with
    | None =>
        setActiveReplication reader JSON_parse order replicationId w = (false, w)
    | Some manifest =>
        let w' := run (setActiveReplication reader JSON_parse order replicationId) w in
        let batchPaths := map EntityPathDataFileInfo.filePath
                              (ReplicationManifestData.entityPathDataFiles manifest) in
        let statisticsPaths := map StatisticsDataFileInfo.filePath
                                 (ReplicationManifestData.statisticsDataFiles manifest) in
        result (setActiveReplication reader JSON_parse order replicationId) w = true
        /\ activeReplicationId (object w') = Some replicationId
        /\ availableReplications (object w') = availableReplications (object w)
        /\ modelLayout (object w') = modelLayout (object w)
        /\ sharedVisualConfig (object w') = sharedVisualConfig (object w)
        /\ (forall filePath,
              map_get filePath (loadedEntityPathBatches (object w')) =
              if mem filePath batchPaths
              then document reader JSON_parse TEntityPathBatch filePath
              else None)
        /\ entityPathsById (object w')
           = lastWriteWinsUnion (loadedEntityPathBatches (object w'))
        /\ (forall filePath,
              map_get filePath (loadedStatisticsFiles (object w')) =
              if mem filePath statisticsPaths
              then document reader JSON_parse TStatisticsFile filePath
              else None)
        /\ exists batchCalls,
             calls w' = calls w ++ batchCalls
                        ++ map (Fetch TStatisticsFile) statisticsPaths
             /\ (forall e, In e batchCalls ->
                   exists filePath,
                     In filePath batchPaths /\ e = Fetch TEntityPathBatch filePath)
             /\ (forall filePath, In filePath batchPaths ->
                   In (Fetch TEntityPathBatch filePath) batchCalls)
    end.
Proof.
  intros reader JSON_parse order replicationId w.
  destruct (map_get replicationId (availableReplications (object w)))
    as [manifest|] eqn:Hreg.
  - cbv zeta.
    destruct (activation_keeps reader JSON_parse order replicationId)
      as (Hr & Hl & Hc).
    destruct (activation_run reader JSON_parse order _ _ w Hreg) as [Hrun Hres].
    set (files := ReplicationManifestData.entityPathDataFiles manifest) in *.
    set (stats := ReplicationManifestData.statisticsDataFiles manifest) in *.
    set (loaded := run (forEach files (loadEntityPathBatch reader JSON_parse))
                       (cleared replicationId w)) in *.
    destruct (loadAllStatisticsFiles_keeps_entities reader JSON_parse order stats loaded)
      as (Hb & Hi & Ha & _).
    destruct (load_all_keeps reader JSON_parse files) as (_ & Ha' & _).
    split; [exact Hres|].
    split; [rewrite Hrun, Ha; unfold loaded; rewrite Ha'; reflexivity|].
    split; [apply Hr|]. split; [apply Hl|]. split; [apply Hc|].
    split; [|split; [|split]].
    + intros filePath; rewrite Hrun, Hb; unfold loaded.
      rewrite loaded_batches_lookup; reflexivity.
    + apply activation_consistent; right; congruence.
    + intros filePath.
      apply (activation_statistics_lookup reader JSON_parse order _ _ w filePath Hreg).
    + destruct (load_all_calls reader JSON_parse files (cleared replicationId w))
        as (batchCalls & Hcalls & Honly & Hevery).
      exists batchCalls; split; [|split].
      * rewrite (proj2 (activation_statistics reader JSON_parse order _ _ w Hreg)).
        fold files; rewrite Hcalls, <- app_assoc; reflexivity.
      * intros e He; destruct (Honly e He) as (f & Hf & ->).
        exists (EntityPathDataFileInfo.filePath f); split; [|reflexivity].
        apply in_map; exact Hf.
      * intros filePath Hin; apply in_map_iff in Hin.
        destruct Hin as (f & <- & Hf); apply Hevery; [exact Hf | reflexivity].
  - apply setActiveReplication_spec_unknown; exact Hreg.
Qed.

Lemma C2_sample_activation :
  setActiveReplication SampleStudy.reader SampleStudy.JSON_parse [] 2
                       SampleStudy.discovered
  = (false, SampleStudy.discovered)
  /\ getActiveReplicationId
       (object (run (setActiveReplication SampleStudy.reader SampleStudy.JSON_parse
                                          [] 3) SampleStudy.discovered))
     = Some 3%Z.
Proof.
  split.
  - exact (C2_setActiveReplication_contract SampleStudy.reader SampleStudy.JSON_parse
             [] 2 SampleStudy.discovered).
  - exact (proj1 (proj2 (C2_setActiveReplication_contract SampleStudy.reader
                           SampleStudy.JSON_parse [] 3 SampleStudy.discovered))).
Defined.

(** C3: after activating [r1] and then a registered [r2], every loaded entity
    id occurs in a batch document read at a path of [r2]'s manifest, every
    cached batch and every cached statistics file is the document read at a
    path of [r2]'s manifest: nothing loaded for [r1] is left. *)
Theorem C3_no_leakage_across_activations :
  forall (reader : FileReader.t)
         (JSON_parse : forall T : DocType, string -> option (docOf T))
         (order1 order2 : list nat) (r1 r2 : Z)
         (manifest2 : ReplicationManifestData.t) (w : World),
    map_get r2 (availableReplications (object w)) = Some manifest2 ->
    let w1 := run (setActiveReplication reader JSON_parse order1 r1) w in
    let w2 := run (setActiveReplication reader JSON_parse order2 r2) w1 in
    result (setActiveReplication reader JSON_parse order2 r2) w1 = true
    /\ (forall entityId,
          In entityId (getLoadedEntityIds (object w2)) ->
          exists fileInfo batch,
            In fileInfo (ReplicationManifestData.entityPathDataFiles manifest2)
            /\ document reader JSON_parse TEntityPathBatch
                 (EntityPathDataFileInfo.filePath fileInfo) = Some batch
            /\ In entityId (map_keys batch))
    /\ (forall filePath batch,
          In (filePath, batch) (loadedEntityPathBatches (object w2)) ->
          exists fileInfo,
            In fileInfo (ReplicationManifestData.entityPathDataFiles manifest2)
            /\ EntityPathDataFileInfo.filePath fileInfo = filePath
            /\ document reader JSON_parse TEntityPathBatch filePath = Some batch)
    /\ (forall filePath statFile,
          In (filePath, statFile) (loadedStatisticsFiles (object w2)) ->
          exists fileInfo,
            In fileInfo (ReplicationManifestData.statisticsDataFiles manifest2)
            /\ StatisticsDataFileInfo.filePath fileInfo = filePath
            /\ document reader JSON_parse TStatisticsFile filePath = Some statFile).
Proof.
  intros reader JSON_parse order1 order2 r1 r2 manifest2 w Hreg w1 w2.
  assert (Hreg1 : map_get r2 (availableReplications (object w1)) = Some manifest2).
  { unfold w1.
    rewrite (proj1 (activation_keeps reader JSON_parse order1 r1) w); exact Hreg. }
  destruct (activation_run reader JSON_parse order2 _ _ w1 Hreg1) as [Hrun Hres].
  set (files := ReplicationManifestData.entityPathDataFiles manifest2) in *.
  set (stats := ReplicationManifestData.statisticsDataFiles manifest2) in *.
  set (loaded := run (forEach files (loadEntityPathBatch reader JSON_parse))
                     (cleared r2 w1)) in *.
  destruct (loadAllStatisticsFiles_keeps_entities reader JSON_parse order2 stats loaded)
    as (Hb & Hi & _).
  assert (Hbatches :
    Forall (fun entry =>
              exists fileInfo,
                In fileInfo files
                /\ EntityPathDataFileInfo.filePath fileInfo = fst entry
                /\ document reader JSON_parse TEntityPathBatch (fst entry)
                   = Some (snd entry))
           (loadedEntityPathBatches (object w2))).
  { unfold w2; rewrite Hrun, Hb; unfold loaded.
    apply (loaded_batches_Forall reader JSON_parse); [|constructor].
    intros fileInfo batch Hin Hdoc; exists fileInfo; simpl; auto. }
  rewrite Forall_forall in Hbatches.
  split; [exact Hres|split; [|split]].
  - intros entityId Hid; unfold getLoadedEntityIds in Hid.
    assert (Hcons : indexConsistent (object w2))
      by (apply activation_consistent; right; congruence).
    rewrite Hcons in Hid; apply lastWriteWinsUnion_keys in Hid.
    destruct Hid as (filePath & batch & Hin & Hkey).
    destruct (Hbatches _ Hin) as (fileInfo & Hf & Hpath & Hdoc); simpl in *.
    exists fileInfo, batch; subst filePath; auto.
  - intros filePath batch Hin; exact (Hbatches _ Hin).
  - intros filePath statFile Hin; unfold w2 in Hin.
    rewrite (proj1 (activation_statistics reader JSON_parse order2 _ _ w1 Hreg1)) in Hin.
    fold stats in Hin.
    set (pending := map (fun p => (p, document reader JSON_parse TStatisticsFile p))
                        (map StatisticsDataFileInfo.filePath stats)) in Hin.
    assert (Hall :
      Forall (fun entry =>
                exists fileInfo,
                  In fileInfo stats
                  /\ StatisticsDataFileInfo.filePath fileInfo = fst entry
                  /\ document reader JSON_parse TStatisticsFile (fst entry)
                     = Some (snd entry))
             (fold_left applyCompleted (completionOrder order2 pending) [])).
    { apply resumed_Forall; [|constructor].
      intros p f Hp.
      apply (Permutation_in _ (completionOrder_Permutation order2 pending)) in Hp.
      unfold pending in Hp; rewrite map_map in Hp; apply in_map_iff in Hp.
      destruct Hp as (fileInfo & [= <- Hdoc] & Hf); exists fileInfo; simpl; auto. }
    rewrite Forall_forall in Hall; exact (Hall _ Hin).
Qed.

Lemma C3_sample_switch :
  result (setActiveReplication SampleStudy.reader SampleStudy.JSON_parse [1%nat] 3)
         SampleStudy.active1 = true
  /\ (forall entityId,
        In entityId (getLoadedEntityIds (object SampleStudy.active3)) ->
        exists fileInfo batch,
          In fileInfo (ReplicationManifestData.entityPathDataFiles SampleStudy.manifest3)
          /\ document SampleStudy.reader SampleStudy.JSON_parse TEntityPathBatch
               (EntityPathDataFileInfo.filePath fileInfo) = Some batch
          /\ In entityId (map_keys batch)).
Proof.
  destruct (C3_no_leakage_across_activations SampleStudy.reader SampleStudy.JSON_parse
              [] [1%nat] 1 3 SampleStudy.manifest3 SampleStudy.discovered eq_refl)
    as (Hres & Hids & _).
  split; [exact Hres | exact Hids].
Defined.


(* ================================================================== *)
(** ** Discovery: contract *)

(** Discovery calls in a row, each with the Content Accessor as it answers
    at that time. *)
Lemma repeated_discovery_keeps_layout JSON_parse (readers : list FileReader.t) :
  forall w layout,
    modelLayout (object w) = Some layout ->
    let w' := fold_left
                (fun w reader =>
                   run (initializeOrDiscoverReplications reader JSON_parse) w)
                readers w in
    modelLayout (object w') = Some layout
    /\ fetchesOf TModelLayout (calls w') = fetchesOf TModelLayout (calls w).
Proof.
  induction readers as [|reader rest IH]; intros w layout Hset; cbv zeta; [auto|].
  cbn [fold_left].
  assert (Hone :
    modelLayout (object (run (initializeOrDiscoverReplications reader JSON_parse) w))
    = Some layout
    /\ fetchesOf TModelLayout
         (calls (run (initializeOrDiscoverReplications reader JSON_parse) w))
       = fetchesOf TModelLayout (calls w)).
  { rewrite discovery_spec.
    destruct (FileReader.listDirectoryContents reader "replications") as [items|].
    - destruct (discovery_loop_layout_set reader JSON_parse items
                  (logged (ListDirectory "replications") w) layout Hset) as [H1 H2].
      rewrite H1, H2; unfold logged; cbn [calls]; rewrite fetchesOf_app; simpl.
      rewrite app_nil_r; auto.
    - unfold logged; cbn [object calls]; rewrite fetchesOf_app; simpl.
      rewrite app_nil_r; auto. }
  destruct Hone as [H1 H2]; destruct (IH _ _ H1) as [H3 H4].
  rewrite H3, H4, H2; auto.
Qed.

Lemma repeated_discovery_keeps_config JSON_parse (readers : list FileReader.t) :
  forall w config,
    sharedVisualConfig (object w) = Some config ->
    let w' := fold_left
                (fun w reader =>
                   run (initializeOrDiscoverReplications reader JSON_parse) w)
                readers w in
    sharedVisualConfig (object w') = Some config
    /\ fetchesOf TSharedVisualConfig (calls w')
       = fetchesOf TSharedVisualConfig (calls w).
Proof.
  induction readers as [|reader rest IH]; intros w config Hset; cbv zeta; [auto|].
  cbn [fold_left].
  assert (Hone :
    sharedVisualConfig
      (object (run (initializeOrDiscoverReplications reader JSON_parse) w))
    = Some config
    /\ fetchesOf TSharedVisualConfig
         (calls (run (initializeOrDiscoverReplications reader JSON_parse) w))
       = fetchesOf TSharedVisualConfig (calls w)).
  { rewrite discovery_spec.
    destruct (FileReader.listDirectoryContents reader "replications") as [items|].
    - destruct (discovery_loop_config_set reader JSON_parse items
                  (logged (ListDirectory "replications") w) config Hset) as [H1 H2].
      rewrite H1, H2; unfold logged; cbn [calls]; rewrite fetchesOf_app; simpl.
      rewrite app_nil_r; auto.
    - unfold logged; cbn [object calls]; rewrite fetchesOf_app; simpl.
      rewrite app_nil_r; auto. }
  destruct Hone as [H1 H2]; destruct (IH _ _ H1) as [H3 H4].
  rewrite H3, H4, H2; auto.
Qed.

(** C5 (as the code has it): once the shared model layout is set, no discovery
    call, however often repeated, assigns it or fetches it again; likewise for
    the shared visual config.  While a shared document is unset, discovery
    fetches the non-empty path of each discovered manifest in turn until a
    fetch yields a document: only the last of these fetches can succeed, and
    its document is the one kept. *)
Theorem C5_shared_documents_first_success_wins :
  forall (reader : FileReader.t)
         (JSON_parse : forall T : DocType, string -> option (docOf T)),
    (forall (readers : list FileReader.t) w layout,
        modelLayout (object w) = Some layout ->
        let w' := fold_left
                    (fun w reader =>
                       run (initializeOrDiscoverReplications reader JSON_parse) w)
                    readers w in
        modelLayout (object w') = Some layout
        /\ fetchesOf TModelLayout (calls w') = fetchesOf TModelLayout (calls w))
    /\ (forall (readers : list FileReader.t) w config,
        sharedVisualConfig (object w) = Some config ->
        let w' := fold_left
                    (fun w reader =>
                       run (initializeOrDiscoverReplications reader JSON_parse) w)
                    readers w in
        sharedVisualConfig (object w') = Some config
        /\ fetchesOf TSharedVisualConfig (calls w')
           = fetchesOf TSharedVisualConfig (calls w))
    /\ (forall w items,
        FileReader.listDirectoryContents reader "replications" = Some items ->
        modelLayout (object w) = None ->
        let w' := run (initializeOrDiscoverReplications reader JSON_parse) w in
        let paths := declaredPaths ReplicationManifestMetadata.modelLayoutPath
                                   (discoveredManifests reader JSON_parse items) in
        modelLayout (object w') = firstDocument reader JSON_parse TModelLayout paths
        /\ fetchesOf TModelLayout (calls w')
           = fetchesOf TModelLayout (calls w)
             ++ attemptsUntilSuccess reader JSON_parse TModelLayout paths)
    /\ (forall w items,
        FileReader.listDirectoryContents reader "replications" = Some items ->
        sharedVisualConfig (object w) = None ->
        let w' := run (initializeOrDiscoverReplications reader JSON_parse) w in
        let paths := declaredPaths ReplicationManifestMetadata.sharedVisualConfigPath
                                   (discoveredManifests reader JSON_parse items) in
        sharedVisualConfig (object w')
        = firstDocument reader JSON_parse TSharedVisualConfig paths
        /\ fetchesOf TSharedVisualConfig (calls w')
           = fetchesOf TSharedVisualConfig (calls w)
             ++ attemptsUntilSuccess reader JSON_parse TSharedVisualConfig paths)
    /\ (forall T paths earlier relativePath later,
        attemptsUntilSuccess reader JSON_parse T paths
        = earlier ++ relativePath :: later ->
        later <> [] ->
        document reader JSON_parse T relativePath = None)
    /\ (forall T paths,
        firstDocument reader JSON_parse T paths =
        match rev (attemptsUntilSuccess reader JSON_parse T paths) with
        | [] => None
        | relativePath :: _ => document reader JSON_parse T relativePath
        end).
Proof.
  intros reader JSON_parse.
  split; [intros readers; apply repeated_discovery_keeps_layout|].
  split; [intros readers; apply repeated_discovery_keeps_config|].
  split; [|split; [|split]].
  - intros w items Hlist Hunset; cbv zeta.
    rewrite discovery_spec, Hlist.
    destruct (discovery_loop_layout_unset reader JSON_parse items
                (logged (ListDirectory "replications") w) Hunset) as [H1 H2].
    rewrite H1, H2; unfold logged; cbn [calls]; rewrite fetchesOf_app; simpl.
    rewrite app_nil_r; auto.
  - intros w items Hlist Hunset; cbv zeta.
    rewrite discovery_spec, Hlist.
    destruct (discovery_loop_config_unset reader JSON_parse items
                (logged (ListDirectory "replications") w) Hunset) as [H1 H2].
    rewrite H1, H2; unfold logged; cbn [calls]; rewrite fetchesOf_app; simpl.
    rewrite app_nil_r; auto.
  - intros T paths; apply attemptsUntilSuccess_earlier_failed.
  - intros T paths; apply firstDocument_last_attempt.
Qed.

Lemma C5_sample_rediscovery :
  let again :=
    fold_left
      (fun w reader =>
         run (initializeOrDiscoverReplications reader SampleStudy.JSON_parse) w)
      [SampleStudy.reader; SampleStudy.bareReader] SampleStudy.discovered in
  modelLayout (object again) = Some SampleStudy.layout
  /\ fetchesOf TModelLayout (calls again)
     = fetchesOf TModelLayout (calls SampleStudy.discovered).
Proof.
  exact (proj1 (C5_shared_documents_first_success_wins SampleStudy.reader
                  SampleStudy.JSON_parse)
               [SampleStudy.reader; SampleStudy.bareReader]
               SampleStudy.discovered SampleStudy.layout eq_refl).
Defined.

(** The layout is fetched twice in one discovery, and the document kept is
    not from the first manifest that declares a path: that manifest's layout
    file cannot be read.  Where no shared file can be read, each discovery
    call fetches the visual config of every manifest again. *)
Lemma C5_shared_documents_fetched_more_than_once :
  fetchesOf TModelLayout (calls SampleStudy.discovered)
  = ["shared/layout_old.json"; "shared/layout.json"]%string
  /\ ReplicationManifestMetadata.modelLayoutPath
       (ReplicationManifestData.metadata SampleStudy.manifest1)
     = "shared/layout_old.json"%string
  /\ document SampleStudy.reader SampleStudy.JSON_parse TModelLayout
       "shared/layout_old.json" = None
  /\ modelLayout (object SampleStudy.discovered)
     = document SampleStudy.reader SampleStudy.JSON_parse TModelLayout
         "shared/layout.json"
  /\ ~ (List.length (fetchesOf TModelLayout (calls SampleStudy.discovered)) <= 1)%nat
  /\ fetchesOf TSharedVisualConfig
       (calls (run (initializeOrDiscoverReplications SampleStudy.bareReader
                                                     SampleStudy.JSON_parse)
                   (run (initializeOrDiscoverReplications SampleStudy.bareReader
                                                          SampleStudy.JSON_parse)
                        initial)))
     = ["shared/visual.json"; "shared/visual.json";
        "shared/visual.json"; "shared/visual.json"]%string.
Proof.
  repeat split; try reflexivity.
  vm_compute; lia.
Qed.

Lemma settled (A : Type) (c : Async A) w : c w = (result c w, run c w).
Proof. unfold result, run; destruct (c w); reflexivity. Qed.

Lemma visited_all reader JSON_parse items :
  existsb (lacksMetadata reader JSON_parse) items = false ->
  visited reader JSON_parse items = items.
Proof.
  induction items as [|item rest IH]; simpl; [reflexivity|].
  destruct (lacksMetadata reader JSON_parse item); simpl; [discriminate|].
  intros H; rewrite (IH H); reflexivity.
Qed.

(** Every entry the loop visits is an entry of the listing, and an entry that
    throws is the last one visited. *)
Lemma visited_prefix reader JSON_parse items :
  exists unvisited, items = visited reader JSON_parse items ++ unvisited.
Proof.
  induction items as [|item rest IH]; simpl; [exists []; reflexivity|].
  destruct (lacksMetadata reader JSON_parse item).
  - exists rest; reflexivity.
  - destruct IH as [unvisited IH]; exists unvisited; simpl; rewrite <- IH.
    reflexivity.
Qed.

Lemma startsWith_iff (s prefix : string) :
  startsWith s prefix = true <-> exists rest, s = (prefix ++ rest)%string.
Proof.
  unfold startsWith; revert s; induction prefix as [|c prefix IH]; intros s.
  - destruct s; simpl; split; eauto.
  - destruct s as [|c' s]; simpl.
    + split; [discriminate | intros [rest H]; discriminate].
    + destruct (Ascii.ascii_dec c c') as [<-|Hne].
      * rewrite IH; split; intros [rest H]; exists rest; congruence.
      * split; [discriminate | intros [rest H]; congruence].
Qed.

(** C6 (what the code does): discovery visits the listing in order.  An entry
    that is not a directory or whose name does not start with [rep_] is
    passed over; for the others the manifest
    [replications/<name>/animation_manifest_<name>.json] is fetched.  A
    manifest that cannot be read, is not JSON or is a falsy value is skipped
    and the scan goes on.  A manifest that parses to a value without
    [metadata] makes the iteration throw: the promise rejects with the
    TypeError, the manifests read before stay registered and no later entry
    is considered.  Only when no manifest lacks its metadata are all the
    replication directories read.  A directory that cannot be listed leaves
    the object as it was and the promise fulfils. *)
Theorem C6_discovery_stops_at_manifest_without_metadata :
  forall (reader : FileReader.t)
         (JSON_parse : forall T : DocType, string -> option (docOf T))
         (w : World),
    let w' := run (initializeOrDiscoverReplications reader JSON_parse) w in
    match FileReader.listDirectoryContents reader "replications" with
    | None =>
        initializeOrDiscoverReplications reader JSON_parse w
        = (Fulfilled tt, logged (ListDirectory "replications") w)
    | Some items =>
        result (initializeOrDiscoverReplications reader JSON_parse) w
        = (if existsb (lacksMetadata reader JSON_parse) items
           then Rejected TypeError else Fulfilled tt)
        /\ fetchesOf TManifest (calls w')
           = fetchesOf TManifest (calls w)
             ++ map (fun item => manifestPathOf (FileListItem.name item))
                    (filter isReplicationDirectory (visited reader JSON_parse items))
        /\ availableReplications (object w')
           = registerAll (discoveredManifests reader JSON_parse items)
                         (availableReplications (object w))
        /\ (forall id,
              In id (map_keys (availableReplications (object w'))) <->
              In id (map_keys (availableReplications (object w)))
              \/ exists item manifest,
                   In item (visited reader JSON_parse items)
                   /\ isReplicationDirectory item = true
                   /\ document reader JSON_parse TManifest
                        (manifestPathOf (FileListItem.name item))
                      = Some (Manifest manifest)
                   /\ ReplicationManifestMetadata.replication
                        (ReplicationManifestData.metadata manifest) = id)
        /\ (exists unvisited,
              items = visited reader JSON_parse items ++ unvisited
              /\ (existsb (lacksMetadata reader JSON_parse) items = false ->
                  unvisited = [])
              /\ forall before item after,
                   items = before ++ item :: after ->
                   existsb (lacksMetadata reader JSON_parse) before = false ->
                   lacksMetadata reader JSON_parse item = true ->
                   unvisited = after)
    end
    /\ (forall item w0,
          isReplicationDirectory item = false ->
          discoverItem reader JSON_parse item w0 = (Fulfilled tt, w0))
    /\ (forall item w0,
          isReplicationDirectory item = true ->
          document reader JSON_parse TManifest
            (manifestPathOf (FileListItem.name item)) = None ->
          discoverItem reader JSON_parse item w0
          = (Fulfilled tt,
             logged (Fetch TManifest (manifestPathOf (FileListItem.name item))) w0))
    /\ (forall item w0,
          isReplicationDirectory item = true ->
          document reader JSON_parse TManifest
            (manifestPathOf (FileListItem.name item)) = Some WithoutMetadata ->
          discoverItem reader JSON_parse item w0
          = (Rejected TypeError,
             logged (Fetch TManifest (manifestPathOf (FileListItem.name item))) w0))
    /\ (forall item,
          isReplicationDirectory item = true <->
          FileListItem.isDirectory item = true
          /\ exists id, FileListItem.name item = ("rep_" ++ id)%string)
    /\ (forall name,
          manifestPathOf name
          = ("replications/" ++ name ++ "/animation_manifest_" ++ name ++ ".json")%string).
Proof.
  intros reader JSON_parse w w'; subst w'.
  split; [|split; [|split; [|split; [|split; [|reflexivity]]]]].
  - rewrite settled, discovery_spec; unfold result, initializeOrDiscoverReplications.
    unfold bind, emit.
    destruct (FileReader.listDirectoryContents reader "replications") as [items|];
      [|reflexivity].
    fold (result (forEachUntilThrow items (discoverItem reader JSON_parse))
                 {| object := object w;
                    calls := calls w ++ [ListDirectory "replications"] |}).
    change (fst (forEachUntilThrow items (discoverItem reader JSON_parse)
                   {| object := object w;
                      calls := calls w ++ [ListDirectory "replications"] |}))
      with (result (forEachUntilThrow items (discoverItem reader JSON_parse))
                   (logged (ListDirectory "replications") w)).
    destruct (discovery_loop_registry reader JSON_parse items
                (logged (ListDirectory "replications") w)) as [Hr Hm].
    split; [apply discovery_loop_result|].
    split; [rewrite Hm; unfold logged; cbn [calls]; rewrite fetchesOf_app; simpl;
            rewrite app_nil_r; reflexivity|].
    split; [exact Hr|].
    split.
    + intros id; rewrite Hr, registerAll_keys; cbn [object logged].
      split; (intros [Hin | Hex]; [left; exact Hin | right]).
      * destruct Hex as (manifest & Hin & Hid).
        apply discoveredManifests_In in Hin; destruct Hin as (item & Hi & Hq & Hd).
        exists item, manifest; auto.
      * destruct Hex as (item & manifest & Hi & Hq & Hd & Hid).
        exists manifest; split; [|exact Hid].
        apply discoveredManifests_In; exists item; auto.
    + destruct (visited_prefix reader JSON_parse items) as [unvisited Hsplit].
      exists unvisited; split; [exact Hsplit|split].
      * intros Hnone; rewrite (visited_all _ _ _ Hnone) in Hsplit.
        rewrite <- (app_nil_r items) in Hsplit at 1.
        apply app_inv_head in Hsplit; congruence.
      * intros before item after Heq Hbefore Hthrow.
        assert (Hv : visited reader JSON_parse items = before ++ [item]).
        { rewrite Heq; clear Heq Hsplit.
          induction before as [|b before IH]; simpl in *.
          - rewrite Hthrow; reflexivity.
          - destruct (lacksMetadata reader JSON_parse b); [discriminate|].
            simpl in Hbefore; rewrite (IH Hbefore); reflexivity. }
        rewrite Hv, Heq, <- app_assoc in Hsplit; simpl in Hsplit.
        apply app_inv_head in Hsplit; congruence.
  - intros item w0 Hq; rewrite settled, discoverItem_spec, discoverItem_result.
    unfold lacksMetadata; rewrite Hq; reflexivity.
  - intros item w0 Hq Hd; rewrite settled, discoverItem_spec, discoverItem_result.
    unfold lacksMetadata; rewrite Hq; cbv zeta; rewrite Hd; reflexivity.
  - intros item w0 Hq Hd; rewrite settled, discoverItem_spec, discoverItem_result.
    unfold lacksMetadata; rewrite Hq; cbv zeta; rewrite Hd; reflexivity.
  - intros item; unfold isReplicationDirectory.
    rewrite andb_true_iff, startsWith_iff; reflexivity.
Qed.

Lemma C6_sample_manifest_without_metadata :
  let w' := run (initializeOrDiscoverReplications SampleStudy.shapelessReader
                                                  SampleStudy.JSON_parse) initial in
  result (initializeOrDiscoverReplications SampleStudy.shapelessReader
                                           SampleStudy.JSON_parse) initial
  = Rejected TypeError
  /\ fetchesOf TManifest (calls w')
     = ["replications/rep_001/animation_manifest_rep_001.json";
        "replications/rep_002/animation_manifest_rep_002.json"]%string
  /\ map_keys (availableReplications (object w')) = [1%Z]
  /\ initializeOrDiscoverReplications SampleStudy.emptyReader SampleStudy.JSON_parse
       initial
     = (Fulfilled tt, logged (ListDirectory "replications") initial).
Proof.
  assert (H := C6_discovery_stops_at_manifest_without_metadata
                 SampleStudy.shapelessReader SampleStudy.JSON_parse initial).
  cbv zeta in H; destruct H as [(Hres & Hfetch & Hreg & _) _].
  cbv zeta; split; [|split; [|split]].
  - rewrite Hres; reflexivity.
  - rewrite Hfetch; reflexivity.
  - rewrite Hreg; reflexivity.
  - exact (proj1 (C6_discovery_stops_at_manifest_without_metadata
                    SampleStudy.emptyReader SampleStudy.JSON_parse initial)).
Defined.

(* ================================================================== *)
(** ** Unique keys *)

Lemma map_set_unique {K V} `{KeyEq K} (k : K) (v : V) (m : Map K V) :
  uniqueKeys m -> uniqueKeys (map_set k v m).
Proof.
  unfold uniqueKeys; induction m as [|[k' v'] rest IH]; simpl; intros Hnd.
  - constructor; [intros [] | constructor].
  - inversion Hnd as [|x l Hnot Hrest]; subst.
    destruct (key_eqb k k') eqn:E; simpl.
    + constructor; assumption.
    + constructor; [|apply IH; exact Hrest].
      intros Hin; apply (map_keys_set k k' v rest) in Hin.
      destruct Hin as [-> | Hin]; [|contradiction].
      rewrite key_eqb_refl in E; discriminate.
Qed.

Lemma map_set_same_value {K V} `{KeyEq K} (k : K) (v : V) (m : Map K V) :
  map_get k m = Some v -> map_set k v m = m.
Proof.
  induction m as [|[k' v'] rest IH]; simpl; [discriminate|].
  destruct (key_eqb k k'); [intros [= ->]; reflexivity|].
  intros Hget; rewrite IH by exact Hget; reflexivity.
Qed.

Lemma map_set_keys_present {K V} `{KeyEq K} (k : K) (v : V) (m : Map K V) :
  In k (map_keys m) -> map_keys (map_set k v m) = map_keys m.
Proof.
  induction m as [|[k' v'] rest IH]; simpl; [contradiction|].
  destruct (key_eqb k k') eqn:E; [reflexivity|].
  intros [-> | Hin]; [rewrite key_eqb_refl in E; discriminate|].
  simpl; rewrite IH by exact Hin; reflexivity.
Qed.

(** Two maps with the same keys in the same order, unique, and the same
    lookups are the same map. *)
Lemma map_eq_by_lookup {K V} `{KeyEq K} (m1 : Map K V) : forall m2 : Map K V,
  map_keys m1 = map_keys m2 ->
  uniqueKeys m1 ->
  (forall k, map_get k m1 = map_get k m2) ->
  m1 = m2.
Proof.
  unfold uniqueKeys; induction m1 as [|[k1 v1] rest1 IH];
    intros [|[k2 v2] rest2] Hkeys Hnd Hget; simpl in *; try discriminate.
  - reflexivity.
  - injection Hkeys as <- Hkeys.
    inversion Hnd as [|x l Hnot Hrest]; subst.
    assert (Hv := Hget k1); rewrite key_eqb_refl in Hv; injection Hv as <-.
    f_equal; apply IH; [exact Hkeys | exact Hrest |].
    intros k; destruct (key_eq_dec k k1) as [-> | Hne].
    + assert (H1 : map_get k1 rest1 = None).
      { destruct (map_get k1 rest1) eqn:E; [|reflexivity].
        exfalso; apply Hnot, map_get_In; congruence. }
      assert (H2 : map_get k1 rest2 = None).
      { destruct (map_get k1 rest2) eqn:E; [|reflexivity].
        exfalso; apply Hnot; rewrite Hkeys; apply map_get_In; congruence. }
      congruence.
    + assert (Hk := Hget k); rewrite (key_eqb_neq Hne) in Hk; exact Hk.
Qed.

Lemma mergeBatch_unique (batch : EntityPathBatch) : forall index,
  uniqueKeys index -> uniqueKeys (mergeBatch index batch).
Proof.
  unfold mergeBatch, Object_entries.
  induction batch as [|[id path] rest IH]; intros index Hu; simpl; [exact Hu|].
  apply IH, map_set_unique; exact Hu.
Qed.

Lemma lastWriteWinsUnion_unique batches : uniqueKeys (lastWriteWinsUnion batches).
Proof.
  unfold lastWriteWinsUnion.
  assert (Hgen : forall index : Map string PropertyValue,
            uniqueKeys index ->
            uniqueKeys (fold_left (fun index '(_, batch) => mergeBatch index batch)
                                  batches index)).
  { induction batches as [|[p b] rest IH]; intros index Hu; simpl; [exact Hu|].
    apply IH, mergeBatch_unique; exact Hu. }
  apply Hgen; constructor.
Qed.

Lemma registerAll_unique manifests : forall registry,
  uniqueKeys registry -> uniqueKeys (registerAll manifests registry).
Proof.
  unfold registerAll; induction manifests as [|m rest IH]; intros registry Hu;
    simpl; [exact Hu|].
  apply IH, map_set_unique; exact Hu.
Qed.

Lemma resumed_unique completed : forall cache,
  uniqueKeys cache -> uniqueKeys (fold_left applyCompleted completed cache).
Proof.
  induction completed as [|[p [f|]] rest IH]; intros cache Hu; simpl.
  - exact Hu.
  - apply IH; unfold applyCompleted; simpl; apply map_set_unique; exact Hu.
  - apply IH; exact Hu.
Qed.

Section UniqueFacts.
Variable reader : FileReader.t.
Variable JSON_parse : forall T : DocType, string -> option (docOf T).

Lemma load_all_unique files :
  maintains (fun w => uniqueKeys (loadedEntityPathBatches (object w)))
            (forEach files (loadEntityPathBatch reader JSON_parse)).
Proof.
  apply maintains_forEach; intros fileInfo _ w Hu.
  rewrite loadEntityPathBatch_spec; cbv zeta.
  destruct (map_has _ _); [exact Hu|].
  destruct (document _ _ _ _) as [batch|]; [|exact Hu].
  cbn [object loadedEntityPathBatches set_entityPathsById set_loadedEntityPathBatches].
  apply map_set_unique; exact Hu.
Qed.

Lemma discovery_wellKeyed w :
  wellKeyed (object w) ->
  wellKeyed (object (run (initializeOrDiscoverReplications reader JSON_parse) w)).
Proof.
  intros (Hr & Hb & Hi & Hs); unfold wellKeyed.
  destruct (discovery_keeps_caches reader JSON_parse) as (Kb & Ki & Ks & _).
  rewrite Kb, Ki, Ks; repeat split; try assumption.
  rewrite discovery_spec.
  destruct (FileReader.listDirectoryContents reader "replications") as [items|];
    [|exact Hr].
  rewrite (proj1 (discovery_loop_registry reader JSON_parse items _)).
  apply registerAll_unique; exact Hr.
Qed.

Lemma activation_wellKeyed order replicationId w :
  wellKeyed (object w) ->
  wellKeyed
    (object (run (setActiveReplication reader JSON_parse order replicationId) w)).
Proof.
  intros Hw.
  destruct (map_get replicationId (availableReplications (object w)))
    as [manifest|] eqn:Hreg.
  - destruct Hw as (Hr & _); unfold wellKeyed.
    rewrite (proj1 (activation_keeps reader JSON_parse order replicationId) w).
    split; [exact Hr|].
    assert (Hc : indexConsistent
                   (object (run (setActiveReplication reader JSON_parse order
                                                      replicationId) w)))
      by (apply activation_consistent; right; congruence).
    split; [|split].
    + rewrite (proj1 (activation_run reader JSON_parse order _ _ w Hreg)).
      rewrite (proj1 (loadAllStatisticsFiles_keeps_entities reader JSON_parse order
                        _ _)).
      apply load_all_unique; constructor.
    + rewrite Hc; apply lastWriteWinsUnion_unique.
    + rewrite (proj1 (activation_statistics reader JSON_parse order _ _ w Hreg)).
      apply resumed_unique; constructor.
  - unfold run; rewrite setActiveReplication_spec, Hreg; exact Hw.
Qed.
End UniqueFacts.

Lemma reachable_wellKeyed JSON_parse w :
  reachable JSON_parse w -> wellKeyed (object w).
Proof.
  induction 1 as [|reader w Hr IH|reader order replicationId w Hr IH
                  |entityId w Hr IH|replicationId manifest w Hr IH].
  - repeat split; constructor.
  - apply discovery_wellKeyed; exact IH.
  - apply activation_wellKeyed; exact IH.
  - unfold run; rewrite (@getEntityPath_spec entityId _ (reachable_extends Hr)).
    destruct (map_has entityId (entityPathsById (object w))) eqn:Ehas; [exact IH|].
    destruct (loadedEntityPathBatches (object w)); [exact IH|].
    destruct (inherited entityId); [|exact IH].
    apply map_has_false in Ehas.
    rewrite <- (@map_set_fresh _ _ _ _ (PrototypeMember entityId) _ Ehas).
    destruct IH as (H1 & H2 & H3 & H4); repeat split; try assumption.
    cbn; apply map_set_unique; exact H3.
  - destruct IH as (H1 & H2 & H3 & H4); repeat split; try assumption.
    cbn; apply map_set_unique; exact H1.
Qed.

(* ================================================================== *)
(** ** Entity queries *)

(** The filtering loop of [getEntitiesByType], over an index with unique
    keys none of which is in the result so far. *)
Lemma type_filter_loop (type : string) (index : Map string PropertyValue) :
  forall result : Map string PropertyValue,
    uniqueKeys index ->
    (forall id, In id (map_keys index) -> ~ In id (map_keys result)) ->
    fold_left
      (fun result '(id, path) =>
         if optional_string_eqb (typeOf path) type then map_set id path result
         else result)
      index result
    = result ++ filter (hasType type) index.
Proof.
  unfold uniqueKeys; induction index as [|[id path] rest IH];
    intros result Hnd Hfresh; simpl.
  - rewrite app_nil_r; reflexivity.
  - inversion Hnd as [|x l Hnot Hrest]; subst.
    unfold hasType at 1; simpl.
    destruct (optional_string_eqb (typeOf path) type).
    + assert (Hnone : map_get id result = None).
      { destruct (map_get id result) eqn:E; [|reflexivity].
        exfalso; apply (Hfresh id); [simpl; auto|].
        apply map_get_In; congruence. }
      rewrite (@map_set_fresh _ _ _ _ path _ Hnone), IH; [|exact Hrest|].
      * rewrite <- app_assoc; reflexivity.
      * intros id' Hin Hres; unfold map_keys in Hres.
        rewrite map_app in Hres; apply in_app_or in Hres.
        destruct Hres as [Hres | [<- | []]].
        -- apply (Hfresh id'); simpl; auto.
        -- apply Hnot; exact Hin.
    + apply IH; [exact Hrest|].
      intros id' Hin; apply Hfresh; simpl; auto.
Qed.

Lemma unique_lookup_In {V} (m : Map string V) id v :
  uniqueKeys m -> In (id, v) m -> map_get id m = Some v.
Proof.
  unfold uniqueKeys; induction m as [|[k v'] rest IH]; simpl; intros Hnd Hin;
    [contradiction|].
  inversion Hnd as [|x l Hnot Hrest]; subst.
  destruct Hin as [[= -> ->] | Hin].
  - rewrite String.eqb_refl; reflexivity.
  - destruct (String.eqb id k) eqn:E; [|apply IH; assumption].
    apply String.eqb_eq in E; subst; exfalso; apply Hnot.
    apply (in_map fst) in Hin; exact Hin.
Qed.

Lemma filter_unique {K V} (f : K * V -> bool) (m : Map K V) :
  uniqueKeys m -> uniqueKeys (filter f m).
Proof.
  unfold uniqueKeys, map_keys; induction m as [|e rest IH]; simpl; intros Hnd;
    [constructor|].
  inversion Hnd as [|x l Hnot Hrest]; subst.
  destruct (f e); simpl; [|apply IH; exact Hrest].
  constructor; [|apply IH; exact Hrest].
  intros Hin; apply Hnot; apply in_map_iff in Hin.
  destruct Hin as (e' & He & Hin); apply filter_In in Hin.
  apply in_map_iff; exists e'; tauto.
Qed.

Lemma hasType_path type id value :
  hasType type (id, value) = true <->
  exists path, value = PathOf path /\ EntityPath.type path = type.
Proof.
  unfold hasType; destruct value as [path|name]; simpl.
  - rewrite String.eqb_eq; split; [eauto | intros (p & [= <-] & H); exact H].
  - split; [discriminate | intros (p & H & _); discriminate].
Qed.

(** X1: in every reachable state [getEntitiesByType] returns exactly the index
    entries whose value is a path of the given type, in index order; an id
    maps to a path in the result iff it maps to that path in the index and the
    path has the type; no member inherited from [Object.prototype] is ever
    returned. *)
Theorem X1_getEntitiesByType_filters_index :
  forall (JSON_parse : forall T : DocType, string -> option (docOf T))
         (w : World) (type : string),
    reachable JSON_parse w ->
    getEntitiesByType (object w) type
    = filter (hasType type) (entityPathsById (object w))
    /\ (forall id path,
          map_get id (getEntitiesByType (object w) type) = Some (PathOf path) <->
          map_get id (entityPathsById (object w)) = Some (PathOf path)
          /\ EntityPath.type path = type)
    /\ (forall id value,
          map_get id (getEntitiesByType (object w) type) = Some value ->
          exists path, value = PathOf path)
    /\ uniqueKeys (getEntitiesByType (object w) type).
Proof.
  intros JSON_parse w type Hreach.
  destruct (reachable_wellKeyed JSON_parse w Hreach) as (_ & _ & Hu & _).
  assert (Heq : getEntitiesByType (object w) type
                = filter (hasType type) (entityPathsById (object w))).
  { unfold getEntitiesByType.
    rewrite type_filter_loop; [reflexivity | exact Hu | intros id _ []]. }
  assert (Hsub : uniqueKeys (filter (hasType type) (entityPathsById (object w))))
    by (apply filter_unique; exact Hu).
  split; [exact Heq|split; [|split; [|rewrite Heq; exact Hsub]]].
  - intros id path; rewrite Heq; split.
    + intros Hget; apply map_get_Some_In, filter_In in Hget.
      destruct Hget as [Hin Hty]; split.
      * apply unique_lookup_In; assumption.
      * apply hasType_path in Hty; destruct Hty as (p & [= <-] & Hty); exact Hty.
    + intros [Hget Hty]; apply unique_lookup_In; [exact Hsub|].
      apply filter_In; split; [apply map_get_Some_In; exact Hget|].
      apply hasType_path; eauto.
  - intros id value; rewrite Heq; intros Hget.
    apply map_get_Some_In, filter_In in Hget; destruct Hget as [_ Hty].
    apply hasType_path in Hty; destruct Hty as (p & Hp & _); eauto.
Qed.

Lemma sample_queried_reachable :
  reachable SampleStudy.JSON_parse SampleStudy.queried.
Proof.
  unfold SampleStudy.queried; apply reachable_getEntityPath, sample_active1_reachable.
Qed.

Lemma X1_sample_customers :
  getEntitiesByType (object SampleStudy.queried) "Customer"
  = [("e1"%string, PathOf SampleStudy.customer);
     ("e2"%string, PathOf SampleStudy.customerLate)].
Proof.
  exact (proj1 (X1_getEntitiesByType_filters_index SampleStudy.JSON_parse
                  SampleStudy.queried "Customer" sample_queried_reachable)).
Defined.

(** X2: in every reachable state [getLoadedEntityIds] lists no id twice; an id
    is listed iff [getEntityPath] answers it with a value and leaves the state
    as it is.  For an id that is not listed [getEntityPath] returns nothing
    and changes nothing, unless the id names a member of [Object.prototype]
    and a batch is cached: then it returns that member and the id is listed
    from then on, last. *)
Theorem X2_loaded_ids_are_the_found_entities :
  forall (JSON_parse : forall T : DocType, string -> option (docOf T))
         (w : World),
    reachable JSON_parse w ->
    NoDup (getLoadedEntityIds (object w))
    /\ (forall entityId,
          In entityId (getLoadedEntityIds (object w)) <->
          exists value, getEntityPath entityId w = (Some value, w))
    /\ (forall entityId,
          ~ In entityId (getLoadedEntityIds (object w)) ->
          getEntityPath entityId w = (None, w)
          \/ (inherited entityId = true
              /\ loadedEntityPathBatches (object w) <> []
              /\ result (getEntityPath entityId) w
                 = Some (PrototypeMember entityId)
              /\ getLoadedEntityIds (object (run (getEntityPath entityId) w))
                 = getLoadedEntityIds (object w) ++ [entityId])).
Proof.
  intros JSON_parse w Hreach.
  destruct (reachable_wellKeyed JSON_parse w Hreach) as (_ & _ & Hu & _).
  assert (Hext := reachable_extends Hreach).
  assert (Hmiss : forall entityId,
    ~ In entityId (getLoadedEntityIds (object w)) ->
    getEntityPath entityId w = (None, w)
    \/ (inherited entityId = true
        /\ loadedEntityPathBatches (object w) <> []
        /\ result (getEntityPath entityId) w = Some (PrototypeMember entityId)
        /\ getLoadedEntityIds (object (run (getEntityPath entityId) w))
           = getLoadedEntityIds (object w) ++ [entityId])).
  { intros entityId Hnot; unfold result, run.
    rewrite (@getEntityPath_spec entityId _ Hext).
    destruct (map_has entityId (entityPathsById (object w))) eqn:Ehas.
    - exfalso; apply Hnot, map_has_In; exact Ehas.
    - destruct (loadedEntityPathBatches (object w)) as [|first rest]; [auto|].
      destruct (inherited entityId); [right|auto].
      repeat split; [discriminate|].
      unfold getLoadedEntityIds, map_keys; cbn [snd object entityPathsById
                                                 set_entityPathsById].
      rewrite map_app; reflexivity. }
  split; [exact Hu|split; [|exact Hmiss]].
  intros entityId; split.
  - intros Hin; apply map_has_In in Hin.
    rewrite (@getEntityPath_indexed entityId w Hin); unfold lookupEntityPath.
    unfold map_has in Hin.
    destruct (map_get entityId (entityPathsById (object w))) as [value|];
      [exists value; reflexivity | discriminate].
  - intros (value & Heq).
    destruct (in_dec string_dec entityId (getLoadedEntityIds (object w)))
      as [Hin|Hnot]; [exact Hin|exfalso].
    destruct (Hmiss entityId Hnot) as [Hnone | (_ & _ & _ & Hids)].
    + rewrite Hnone in Heq; discriminate.
    + unfold run in Hids; rewrite Heq in Hids; simpl in Hids.
      apply (f_equal (@List.length _)) in Hids; rewrite length_app in Hids.
      simpl in Hids; lia.
Qed.

Lemma X2_sample_ids :
  NoDup (getLoadedEntityIds (object SampleStudy.queried))
  /\ (forall entityId,
        In entityId (getLoadedEntityIds (object SampleStudy.queried)) <->
        exists value, getEntityPath entityId SampleStudy.queried
                      = (Some value, SampleStudy.queried))
  /\ (forall entityId,
        ~ In entityId (getLoadedEntityIds (object SampleStudy.queried)) ->
        getEntityPath entityId SampleStudy.queried = (None, SampleStudy.queried)
        \/ (inherited entityId = true
            /\ loadedEntityPathBatches (object SampleStudy.queried) <> []
            /\ result (getEntityPath entityId) SampleStudy.queried
               = Some (PrototypeMember entityId)
            /\ getLoadedEntityIds
                 (object (run (getEntityPath entityId) SampleStudy.queried))
               = getLoadedEntityIds (object SampleStudy.queried) ++ [entityId])).
Proof.
  exact (X2_loaded_ids_are_the_found_entities SampleStudy.JSON_parse
           SampleStudy.queried sample_queried_reachable).
Defined.

(* ================================================================== *)
(** ** The active replication *)

Section ActiveFacts.
Variable reader : FileReader.t.
Variable JSON_parse : forall T : DocType, string -> option (docOf T).

Lemma activation_active order replicationId manifest w :
  map_get replicationId (availableReplications (object w)) = Some manifest ->
  activeReplicationId
    (object (run (setActiveReplication reader JSON_parse order replicationId) w))
  = Some replicationId.
Proof.
  intros Hreg; rewrite (proj1 (activation_run reader JSON_parse order _ _ w Hreg)).
  destruct (loadAllStatisticsFiles_keeps_entities reader JSON_parse order
              (ReplicationManifestData.statisticsDataFiles manifest)
              (run (forEach (ReplicationManifestData.entityPathDataFiles manifest)
                            (loadEntityPathBatch reader JSON_parse))
                   (cleared replicationId w))) as (_ & _ & Ha & _).
  destruct (load_all_keeps reader JSON_parse
              (ReplicationManifestData.entityPathDataFiles manifest))
    as (_ & Ha' & _).
  rewrite Ha, Ha'; reflexivity.
Qed.

Lemma discovery_registry_grows w replicationId :
  In replicationId (map_keys (availableReplications (object w))) ->
  In replicationId
     (map_keys (availableReplications
                  (object (run (initializeOrDiscoverReplications reader JSON_parse)
                               w)))).
Proof.
  intros Hin; rewrite discovery_spec.
  destruct (FileReader.listDirectoryContents reader "replications") as [items|];
    [|exact Hin].
  rewrite (proj1 (discovery_loop_registry reader JSON_parse items _)).
  apply registerAll_keys; left; exact Hin.
Qed.

Lemma discovery_activeRegistered w :
  activeRegistered (object w) ->
  activeRegistered
    (object (run (initializeOrDiscoverReplications reader JSON_parse) w)).
Proof.
  unfold activeRegistered.
  rewrite (proj2 (proj2 (proj2 (discovery_keeps_caches reader JSON_parse))) w).
  destruct (activeReplicationId (object w)) as [id|]; [|auto].
  rewrite !map_has_In; apply discovery_registry_grows.
Qed.

Lemma activation_activeRegistered order replicationId w :
  activeRegistered (object w) ->
  activeRegistered
    (object (run (setActiveReplication reader JSON_parse order replicationId) w)).
Proof.
  intros Hw.
  destruct (map_get replicationId (availableReplications (object w)))
    as [manifest|] eqn:Hreg.
  - unfold activeRegistered.
    rewrite (activation_active order _ _ w Hreg).
    rewrite (proj1 (activation_keeps reader JSON_parse order replicationId) w).
    unfold map_has; rewrite Hreg; reflexivity.
  - unfold run; rewrite setActiveReplication_spec, Hreg; exact Hw.
Qed.
End ActiveFacts.

Lemma reachable_activeRegistered JSON_parse w :
  reachable JSON_parse w -> activeRegistered (object w).
Proof.
  induction 1 as [|reader w Hr IH|reader order replicationId w Hr IH
                  |entityId w Hr IH|replicationId manifest w Hr IH].
  - exact I.
  - apply discovery_activeRegistered; exact IH.
  - apply activation_activeRegistered; exact IH.
  - unfold activeRegistered.
    rewrite (@getEntityPath_keeps _ activeReplicationId entityId) by reflexivity.
    rewrite (@getEntityPath_keeps _ availableReplications entityId) by reflexivity.
    exact IH.
  - unfold activeRegistered in *; cbn.
    destruct (activeReplicationId (object w)) as [id|]; [|exact I].
    apply map_has_In, map_keys_set; right; apply map_has_In; exact IH.
Qed.

(** X3: in every reachable state the active id, when there is one, is a key
    of the registry: [getActiveReplicationMetadata] is absent exactly when
    [getActiveReplicationId] is, and otherwise is the metadata of the manifest
    the registry now holds for that id. *)
Theorem X3_active_metadata_defined_when_active :
  forall (JSON_parse : forall T : DocType, string -> option (docOf T))
         (w : World),
    reachable JSON_parse w ->
    (getActiveReplicationMetadata (object w) = None <->
     getActiveReplicationId (object w) = None)
    /\ (forall replicationId,
          getActiveReplicationId (object w) = Some replicationId ->
          exists manifest,
            map_get replicationId (availableReplications (object w)) = Some manifest
            /\ getActiveReplicationMetadata (object w)
               = Some (ReplicationManifestData.metadata manifest)).
Proof.
  intros JSON_parse w Hreach.
  assert (Hinv := reachable_activeRegistered JSON_parse w Hreach).
  unfold activeRegistered, getActiveReplicationMetadata, getActiveReplicationId in *.
  destruct (activeReplicationId (object w)) as [id|].
  - unfold map_has in Hinv.
    destruct (map_get id (availableReplications (object w))) as [manifest|] eqn:Hreg;
      [|discriminate].
    split; [split; discriminate|].
    intros replicationId [= <-]; exists manifest; rewrite Hreg; auto.
  - split; [tauto | discriminate].
Qed.

Lemma X3_sample_active :
  (getActiveReplicationMetadata (object SampleStudy.active3) = None <->
   getActiveReplicationId (object SampleStudy.active3) = None)
  /\ (forall replicationId,
        getActiveReplicationId (object SampleStudy.active3) = Some replicationId ->
        exists manifest,
          map_get replicationId (availableReplications (object SampleStudy.active3))
          = Some manifest
          /\ getActiveReplicationMetadata (object SampleStudy.active3)
             = Some (ReplicationManifestData.metadata manifest)).
Proof.
  apply (X3_active_metadata_defined_when_active SampleStudy.JSON_parse).
  unfold SampleStudy.active3.
  apply reachable_activate, sample_active1_reachable.
Defined.

(** X4: activating an id right after registering a manifest under it succeeds,
    whatever the state before: the id becomes the active one and
    [getActiveReplicationMetadata] returns that manifest's metadata, also
    when the manifest declares another replication number.  More generally
    a successful activation makes the registered manifest's metadata the
    active metadata. *)
Theorem X4_register_then_activate :
  forall (reader : FileReader.t)
         (JSON_parse : forall T : DocType, string -> option (docOf T))
         (order : list nat) (replicationId : Z)
         (manifest : ReplicationManifestData.t) (w : World),
    (let w1 := run (register replicationId manifest) w in
     let w2 := run (setActiveReplication reader JSON_parse order replicationId) w1 in
     result (setActiveReplication reader JSON_parse order replicationId) w1 = true
     /\ getActiveReplicationId (object w2) = Some replicationId
     /\ getActiveReplicationMetadata (object w2)
        = Some (ReplicationManifestData.metadata manifest))
    /\ (map_get replicationId (availableReplications (object w)) = Some manifest ->
        let w' := run (setActiveReplication reader JSON_parse order replicationId) w in
        getActiveReplicationId (object w') = Some replicationId
        /\ getActiveReplicationMetadata (object w')
           = Some (ReplicationManifestData.metadata manifest)).
Proof.
  intros reader JSON_parse order replicationId manifest w.
  assert (Hgen : forall w0,
    map_get replicationId (availableReplications (object w0)) = Some manifest ->
    let w' := run (setActiveReplication reader JSON_parse order replicationId) w0 in
    getActiveReplicationId (object w') = Some replicationId
    /\ getActiveReplicationMetadata (object w')
       = Some (ReplicationManifestData.metadata manifest)).
  { intros w0 Hreg; cbv zeta.
    unfold getActiveReplicationMetadata, getActiveReplicationId.
    rewrite (activation_active reader JSON_parse order _ _ w0 Hreg).
    rewrite (proj1 (activation_keeps reader JSON_parse order replicationId) w0).
    rewrite Hreg; auto. }
  split; [|exact (Hgen w)].
  cbv zeta.
  assert (Hreg : map_get replicationId
                   (availableReplications (object (run (register replicationId manifest) w)))
                 = Some manifest)
    by (cbn; apply map_get_set_same).
  split; [exact (proj2 (activation_run reader JSON_parse order _ _ _ Hreg))|].
  exact (Hgen _ Hreg).
Qed.

Lemma X4_sample_register :
  let w1 := run (register 7 SampleStudy.manifest1) initial in
  let w2 := run (setActiveReplication SampleStudy.reader SampleStudy.JSON_parse [] 7)
                w1 in
  result (setActiveReplication SampleStudy.reader SampleStudy.JSON_parse [] 7) w1
  = true
  /\ getActiveReplicationId (object w2) = Some 7%Z
  /\ getActiveReplicationMetadata (object w2)
     = Some (ReplicationManifestData.metadata SampleStudy.manifest1).
Proof.
  exact (proj1 (X4_register_then_activate SampleStudy.reader SampleStudy.JSON_parse
                  [] 7 SampleStudy.manifest1 initial)).
Defined.

(* ================================================================== *)
(** ** The loaders, called over again *)

Section LoaderReplay.
Variable JSON_parse : forall T : DocType, string -> option (docOf T).

Lemma loadStatisticsFile_spec reader fileInfo w :
  let filePath := StatisticsDataFileInfo.filePath fileInfo in
  run (loadStatisticsFile reader JSON_parse fileInfo) w =
  if map_has filePath (loadedStatisticsFiles (object w)) then w
  else
    match document reader JSON_parse TStatisticsFile filePath with
    | None => logged (Fetch TStatisticsFile filePath) w
    | Some statFile =>
        {| object :=
             set_loadedStatisticsFiles
               (map_set filePath statFile (loadedStatisticsFiles (object w)))
               (object w);
           calls := calls w ++ [Fetch TStatisticsFile filePath] |}
    end.
Proof.
  intros filePath; unfold loadStatisticsFile; rewrite run_bind.
  unfold result, run at 2; rewrite loadStatisticsFile_issue_spec; cbv zeta.
  fold filePath.
  destruct (map_has filePath (loadedStatisticsFiles (object w))); [reflexivity|].
  simpl fst; simpl snd.
  destruct (document reader JSON_parse TStatisticsFile filePath); reflexivity.
Qed.

(** X5: [loadEntityPathBatch] is cache-first.  It never replaces or removes a
    cached batch; once the path is cached a further call does nothing, not
    even a read, also when the file has changed since; a call that finds no
    document changes only the log; and calling it twice in a row leaves the
    object as one call does. *)
Theorem X5_loadEntityPathBatch_is_cache_first :
  forall (reader later : FileReader.t) (fileInfo : EntityPathDataFileInfo.t)
         (w : World),
    let filePath := EntityPathDataFileInfo.filePath fileInfo in
    let w1 := run (loadEntityPathBatch reader JSON_parse fileInfo) w in
    (forall path batch,
        map_get path (loadedEntityPathBatches (object w)) = Some batch ->
        map_get path (loadedEntityPathBatches (object w1)) = Some batch)
    /\ (map_has filePath (loadedEntityPathBatches (object w1)) = true <->
        map_has filePath (loadedEntityPathBatches (object w)) = true
        \/ document reader JSON_parse TEntityPathBatch filePath <> None)
    /\ (map_has filePath (loadedEntityPathBatches (object w1)) = true ->
        loadEntityPathBatch later JSON_parse fileInfo w1 = (tt, w1))
    /\ (map_has filePath (loadedEntityPathBatches (object w)) = false ->
        document reader JSON_parse TEntityPathBatch filePath = None ->
        w1 = logged (Fetch TEntityPathBatch filePath) w)
    /\ object (run (loadEntityPathBatch reader JSON_parse fileInfo) w1) = object w1.
Proof.
  intros reader later fileInfo w filePath w1.
  assert (Hnoop : forall rd w0,
            map_has filePath (loadedEntityPathBatches (object w0)) = true ->
            loadEntityPathBatch rd JSON_parse fileInfo w0 = (tt, w0)).
  { intros rd w0 Hhas; rewrite unit_result, loadEntityPathBatch_spec; cbv zeta.
    fold filePath; rewrite Hhas; reflexivity. }
  assert (Hw1 := loadEntityPathBatch_spec reader JSON_parse fileInfo w).
  cbv zeta in Hw1; fold filePath w1 in Hw1.
  destruct (map_has filePath (loadedEntityPathBatches (object w))) eqn:Ehas.
  - assert (Hhas1 : map_has filePath (loadedEntityPathBatches (object w1)) = true)
      by (rewrite Hw1; exact Ehas).
    split; [intros path b Hget; rewrite Hw1; exact Hget|].
    split; [split; [intros _; left; reflexivity | intros _; exact Hhas1]|].
    split; [apply Hnoop|].
    split; [discriminate|].
    unfold run; rewrite (Hnoop reader w1 Hhas1); reflexivity.
  - destruct (document reader JSON_parse TEntityPathBatch filePath) as [batch|]
      eqn:Edoc.
    + assert (Hhas1 : map_has filePath (loadedEntityPathBatches (object w1)) = true).
      { rewrite Hw1; cbn [object loadedEntityPathBatches set_entityPathsById
                          set_loadedEntityPathBatches].
        unfold map_has; rewrite map_get_set_same; reflexivity. }
      split; [|split; [|split; [|split]]].
      * intros path b Hget; rewrite Hw1.
        cbn [object loadedEntityPathBatches set_entityPathsById
             set_loadedEntityPathBatches].
        rewrite map_get_set_other; [exact Hget|].
        intros ->; apply map_has_false in Ehas; congruence.
      * split; [intros _; right; discriminate | intros _; exact Hhas1].
      * apply Hnoop.
      * discriminate.
      * unfold run; rewrite (Hnoop reader w1 Hhas1); reflexivity.
    + split; [|split; [|split; [|split]]].
      * intros path b Hget; rewrite Hw1; exact Hget.
      * rewrite Hw1; cbn [object logged]; rewrite Ehas.
        split; [discriminate | intros [H | H]; [discriminate | congruence]].
      * apply Hnoop.
      * intros _ _; exact Hw1.
      * rewrite loadEntityPathBatch_spec; cbv zeta; fold filePath.
        rewrite Hw1; cbn [object logged]; rewrite Ehas, Edoc; reflexivity.
Qed.

(** X6: [loadStatisticsFile], awaited on its own, is cache-first in the same
    way: cached files are never replaced or removed, a cached path is never
    read again, a call that finds no document changes only the log, and two
    calls in a row leave the object as one does. *)
Theorem X6_loadStatisticsFile_is_cache_first :
  forall (reader later : FileReader.t) (fileInfo : StatisticsDataFileInfo.t)
         (w : World),
    let filePath := StatisticsDataFileInfo.filePath fileInfo in
    let w1 := run (loadStatisticsFile reader JSON_parse fileInfo) w in
    (forall path statFile,
        map_get path (loadedStatisticsFiles (object w)) = Some statFile ->
        map_get path (loadedStatisticsFiles (object w1)) = Some statFile)
    /\ (map_has filePath (loadedStatisticsFiles (object w1)) = true <->
        map_has filePath (loadedStatisticsFiles (object w)) = true
        \/ document reader JSON_parse TStatisticsFile filePath <> None)
    /\ (map_has filePath (loadedStatisticsFiles (object w1)) = true ->
        loadStatisticsFile later JSON_parse fileInfo w1 = (tt, w1))
    /\ (map_has filePath (loadedStatisticsFiles (object w)) = false ->
        document reader JSON_parse TStatisticsFile filePath = None ->
        w1 = logged (Fetch TStatisticsFile filePath) w)
    /\ object (run (loadStatisticsFile reader JSON_parse fileInfo) w1) = object w1.
Proof.
  intros reader later fileInfo w filePath w1.
  assert (Hnoop : forall rd w0,
            map_has filePath (loadedStatisticsFiles (object w0)) = true ->
            loadStatisticsFile rd JSON_parse fileInfo w0 = (tt, w0)).
  { intros rd w0 Hhas; rewrite unit_result, loadStatisticsFile_spec; cbv zeta.
    fold filePath; rewrite Hhas; reflexivity. }
  assert (Hw1 := loadStatisticsFile_spec reader fileInfo w).
  cbv zeta in Hw1; fold filePath w1 in Hw1.
  destruct (map_has filePath (loadedStatisticsFiles (object w))) eqn:Ehas.
  - assert (Hhas1 : map_has filePath (loadedStatisticsFiles (object w1)) = true)
      by (rewrite Hw1; exact Ehas).
    split; [intros path b Hget; rewrite Hw1; exact Hget|].
    split; [split; [intros _; left; reflexivity | intros _; exact Hhas1]|].
    split; [apply Hnoop|].
    split; [discriminate|].
    unfold run; rewrite (Hnoop reader w1 Hhas1); reflexivity.
  - destruct (document reader JSON_parse TStatisticsFile filePath) as [statFile|]
      eqn:Edoc.
    + assert (Hhas1 : map_has filePath (loadedStatisticsFiles (object w1)) = true).
      { rewrite Hw1; cbn [object loadedStatisticsFiles set_loadedStatisticsFiles].
        unfold map_has; rewrite map_get_set_same; reflexivity. }
      split; [|split; [|split; [|split]]].
      * intros path f Hget; rewrite Hw1.
        cbn [object loadedStatisticsFiles set_loadedStatisticsFiles].
        rewrite map_get_set_other; [exact Hget|].
        intros ->; apply map_has_false in Ehas; congruence.
      * split; [intros _; right; discriminate | intros _; exact Hhas1].
      * apply Hnoop.
      * discriminate.
      * unfold run; rewrite (Hnoop reader w1 Hhas1); reflexivity.
    + split; [|split; [|split; [|split]]].
      * intros path f Hget; rewrite Hw1; exact Hget.
      * rewrite Hw1; cbn [object logged]; rewrite Ehas.
        split; [discriminate | intros [H | H]; [discriminate | congruence]].
      * apply Hnoop.
      * intros _ _; exact Hw1.
      * rewrite loadStatisticsFile_spec; cbv zeta; fold filePath.
        rewrite Hw1; cbn [object logged]; rewrite Ehas, Edoc; reflexivity.
Qed.
End LoaderReplay.

(* ================================================================== *)
(** ** Duplicate entity ids *)

Lemma mergeBatch_lookup_absent (batch : EntityPathBatch) : forall index id,
  own_get batch id = None ->
  map_get id (mergeBatch index batch) = map_get id index.
Proof.
  unfold mergeBatch, Object_entries, own_get.
  induction batch as [|[k v] rest IH]; intros index id Hnone; simpl in *;
    [reflexivity|].
  destruct (String.eqb id k) eqn:E; [discriminate|].
  rewrite IH by exact Hnone; apply map_get_set_other.
  intros ->; rewrite String.eqb_refl in E; discriminate.
Qed.

Lemma mergeBatch_lookup_present (batch : EntityPathBatch) : forall index id path,
  uniqueKeys batch ->
  own_get batch id = Some path ->
  map_get id (mergeBatch index batch) = Some (PathOf path).
Proof.
  induction batch as [|[k v] rest IH]; intros index id path Hnd Hget;
    [discriminate|].
  unfold uniqueKeys in Hnd; simpl in Hnd.
  inversion Hnd as [|x l Hnot Hrest]; subst.
  change (mergeBatch index ((k, v) :: rest))
    with (mergeBatch (map_set k (PathOf v) index) rest).
  unfold own_get in Hget; simpl in Hget.
  destruct (String.eqb id k) eqn:E.
  - apply String.eqb_eq in E; subst k; injection Hget as ->.
    assert (Hnone : own_get rest id = None).
    { unfold own_get; destruct (map_get id rest) eqn:Er; [|reflexivity].
      exfalso; apply Hnot, map_get_In; congruence. }
    rewrite (mergeBatch_lookup_absent rest _ id Hnone); apply map_get_set_same.
  - apply IH; assumption.
Qed.

Lemma union_lookup_suffix (later : Map string EntityPathBatch) : forall index id,
  (forall filePath batch, In (filePath, batch) later -> own_get batch id = None) ->
  map_get id (fold_left (fun index '(_, batch) => mergeBatch index batch) later index)
  = map_get id index.
Proof.
  induction later as [|[p b] rest IH]; intros index id Hnone; simpl; [reflexivity|].
  rewrite IH by (intros; eapply Hnone; simpl; eauto).
  apply mergeBatch_lookup_absent; eapply Hnone; simpl; eauto.
Qed.

(** X7: when several cached batches hold the same entity id, the batch loaded
    last wins: in every reachable state, if a cached batch has the own entry
    [entityId -> path] and no batch cached after it has an own entry for
    [entityId], then the index, and so [getEntityPath], gives [path]. *)
Theorem X7_last_loaded_batch_wins :
  forall (JSON_parse : forall T : DocType, string -> option (docOf T))
         (w : World) (earlier later : Map string EntityPathBatch)
         (filePath entityId : string) (batch : EntityPathBatch)
         (path : EntityPath.t),
    reachable JSON_parse w ->
    loadedEntityPathBatches (object w) = earlier ++ (filePath, batch) :: later ->
    uniqueKeys batch ->
    own_get batch entityId = Some path ->
    (forall otherPath other, In (otherPath, other) later ->
                             own_get other entityId = None) ->
    getEntityPath entityId w = (Some (PathOf path), w).
Proof.
  intros JSON_parse w earlier later filePath entityId batch path
         Hreach Hcache Hu Hget Hlater.
  destruct (reachable_extends Hreach) as (extras & Hindex & _).
  assert (Hfound : map_get entityId (entityPathsById (object w))
                   = Some (PathOf path)).
  { rewrite Hindex, map_get_app, Hcache.
    unfold lastWriteWinsUnion; rewrite fold_left_app; simpl.
    rewrite union_lookup_suffix by exact Hlater.
    rewrite (mergeBatch_lookup_present batch _ entityId path Hu Hget); reflexivity. }
  rewrite getEntityPath_indexed; unfold lookupEntityPath, map_has;
    rewrite Hfound; reflexivity.
Qed.

Lemma X7_sample_duplicate_id :
  getEntityPath "e2" SampleStudy.queried
  = (Some (PathOf SampleStudy.customerLate), SampleStudy.queried).
Proof.
  apply (X7_last_loaded_batch_wins SampleStudy.JSON_parse SampleStudy.queried
           [("rep1/paths_a.json"%string, SampleStudy.batch1a)] []
           "rep1/paths_b.json" "e2" SampleStudy.batch1b SampleStudy.customerLate).
  - exact sample_queried_reachable.
  - reflexivity.
  - repeat constructor; simpl; intuition discriminate.
  - reflexivity.
  - intros otherPath other [].
Defined.

(* ================================================================== *)
(** ** The earlier variant *)

Section VariantFacts.
Variable reader : FileReader.t.
Variable JSON_parse : forall T : DocType, string -> option (docOf T).

Local Abbreviation doc := (document reader JSON_parse).
Local Abbreviation loadOne := (loadStatisticsFile reader JSON_parse).

Lemma variant_setActiveReplication_spec replicationId w :
  Variant.setActiveReplication reader JSON_parse replicationId w =
  match map_get replicationId (availableReplications (object w)) with
  | None => (false, w)
  | Some manifest =>
      (true,
       run (forEach (ReplicationManifestData.statisticsDataFiles manifest) loadOne)
           (run (forEach (ReplicationManifestData.entityPathDataFiles manifest)
                         (loadEntityPathBatch reader JSON_parse))
                (clearedEntities replicationId w)))
  end.
Proof.
  unfold Variant.setActiveReplication, bind at 1, get_this.
  destruct (map_get replicationId (availableReplications (object w))) as [manifest|];
    [|reflexivity].
  unfold bind at 1 2 3, update_this; simpl.
  change {| object := _; calls := calls w |} with (clearedEntities replicationId w).
  unfold bind, ret, run.
  destruct (forEach _ _ (clearedEntities replicationId w)) as [[] w1]; simpl.
  destruct (forEach _ loadOne w1) as [[] w2]; reflexivity.
Qed.

(** Loading statistics files one after the other touches the statistics
    cache only. *)
Lemma load_in_turn_spec files : forall w,
  object (run (forEach files loadOne) w) =
  set_loadedStatisticsFiles
    (fold_left (loadedInTurn (doc TStatisticsFile))
               (map StatisticsDataFileInfo.filePath files)
               (loadedStatisticsFiles (object w)))
    (object w).
Proof.
  induction files as [|fileInfo rest IH]; intros w.
  - simpl; rewrite object_eta_statistics; reflexivity.
  - cbn [forEach map fold_left]; rewrite run_bind, IH.
    assert (Hstep :
      object (run (loadOne fileInfo) w) =
      set_loadedStatisticsFiles
        (loadedInTurn (doc TStatisticsFile) (loadedStatisticsFiles (object w))
                      (StatisticsDataFileInfo.filePath fileInfo))
        (object w)).
    { rewrite loadStatisticsFile_spec; cbv zeta; unfold loadedInTurn.
      destruct (map_has _ _); [rewrite object_eta_statistics; reflexivity|].
      destruct (doc TStatisticsFile _); [reflexivity|].
      cbn [object logged]; rewrite object_eta_statistics; reflexivity. }
    rewrite Hstep; reflexivity.
Qed.

(** Every step appends or does nothing. *)
Lemma load_in_turn_appends paths : forall cache,
  exists added,
    fold_left (loadedInTurn (doc TStatisticsFile)) paths cache = cache ++ added
    /\ (forall filePath statFile,
          In (filePath, statFile) added ->
          In filePath paths
          /\ doc TStatisticsFile filePath = Some statFile
          /\ map_has filePath cache = false).
Proof.
  induction paths as [|p rest IH]; intros cache.
  - exists []; simpl; rewrite app_nil_r; split; [reflexivity | intros ? ? []].
  - cbn [fold_left].
    assert (Hstep : loadedInTurn (doc TStatisticsFile) cache p
                    = if map_has p cache then cache
                      else match doc TStatisticsFile p with
                           | Some statFile => map_set p statFile cache
                           | None => cache
                           end) by reflexivity.
    rewrite Hstep; clear Hstep.
    destruct (map_has p cache) eqn:Ehas;
      [|destruct (doc TStatisticsFile p) as [f|] eqn:Edoc].
    + destruct (IH cache) as (added & Heq & Hadded).
      exists added; split; [exact Heq|].
      intros q g Hin; destruct (Hadded q g Hin) as (H1 & H2 & H3); simpl; auto.
    + destruct (IH (map_set p f cache)) as (added & Heq & Hadded).
      apply map_has_false in Ehas.
      exists ((p, f) :: added); split.
      { rewrite Heq, (@map_set_fresh _ _ _ _ f _ Ehas), <- app_assoc; reflexivity. }
      intros q g [[= <- <-] | Hin].
      * simpl; repeat split; auto; apply map_has_false; exact Ehas.
      * destruct (Hadded q g Hin) as (H1 & H2 & H3); simpl; repeat split; auto.
        apply map_has_false; apply map_has_false in H3.
        rewrite map_get_set in H3; cbn [key_eqb KeyEq_string] in H3.
        destruct (String.eqb q p); [discriminate | exact H3].
    + destruct (IH cache) as (added & Heq & Hadded).
      exists added; split; [exact Heq|].
      intros q g Hin; destruct (Hadded q g Hin) as (H1 & H2 & H3); simpl; auto.
Qed.

(** On a cache that holds documents of this reader only, loading in turn and
    resuming all loads in issue order give the same cache. *)
Lemma load_in_turn_fifo paths : forall cache,
  (forall filePath statFile,
      map_get filePath cache = Some statFile ->
      doc TStatisticsFile filePath = Some statFile) ->
  fold_left (loadedInTurn (doc TStatisticsFile)) paths cache
  = fold_left applyCompleted
      (map (fun filePath => (filePath, doc TStatisticsFile filePath)) paths) cache.
Proof.
  induction paths as [|p rest IH]; intros cache Hcache; [reflexivity|].
  cbn [fold_left map].
  assert (Hstep : loadedInTurn (doc TStatisticsFile) cache p
                  = if map_has p cache then cache
                    else match doc TStatisticsFile p with
                         | Some statFile => map_set p statFile cache
                         | None => cache
                         end) by reflexivity.
  assert (Hdone : applyCompleted cache (p, doc TStatisticsFile p)
                  = match doc TStatisticsFile p with
                    | Some statFile => map_set p statFile cache
                    | None => cache
                    end) by reflexivity.
  rewrite Hstep, Hdone; clear Hstep Hdone.
  destruct (map_has p cache) eqn:Ehas.
  - unfold map_has in Ehas.
    destruct (map_get p cache) as [f|] eqn:Eget; [|discriminate].
    rewrite (Hcache p f Eget), (map_set_same_value p f cache Eget).
    apply IH; exact Hcache.
  - destruct (doc TStatisticsFile p) as [f|] eqn:Edoc; [|apply IH; exact Hcache].
    apply IH; intros q g; rewrite map_get_set.
    cbn [key_eqb KeyEq_string].
    destruct (String.eqb_spec q p) as [-> | Hne]; [congruence | apply Hcache].
Qed.
End VariantFacts.

Lemma find_app_first {A} (f : A -> bool) (l l' : list A) (a : A) :
  find f l = Some a -> find f (l ++ l') = Some a.
Proof.
  induction l as [|x l IH]; simpl; [discriminate|].
  destruct (f x); [auto | exact IH].
Qed.

(** X8: in the earlier variant a successful activation never clears the
    statistics cache: the files cached before stay where they are and the
    manifest's files that were not cached and can be read are appended, so a
    statistic that [getStatistic] found before the activation is still the
    one it finds afterwards. *)
Theorem X8_variant_activation_keeps_statistics :
  forall (reader : FileReader.t)
         (JSON_parse : forall T : DocType, string -> option (docOf T))
         (replicationId : Z) (manifest : ReplicationManifestData.t) (w : World),
    map_get replicationId (availableReplications (object w)) = Some manifest ->
    let w' := run (Variant.setActiveReplication reader JSON_parse replicationId) w in
    result (Variant.setActiveReplication reader JSON_parse replicationId) w = true
    /\ (exists added,
          loadedStatisticsFiles (object w')
          = loadedStatisticsFiles (object w) ++ added
          /\ forall filePath statFile,
               In (filePath, statFile) added ->
               In filePath (map StatisticsDataFileInfo.filePath
                                (ReplicationManifestData.statisticsDataFiles manifest))
               /\ document reader JSON_parse TStatisticsFile filePath = Some statFile
               /\ map_has filePath (loadedStatisticsFiles (object w)) = false)
    /\ (forall type componentId metricName statFile,
          getStatistic (object w) type componentId metricName = Some statFile ->
          getStatistic (object w') type componentId metricName = Some statFile).
Proof.
  intros reader JSON_parse replicationId manifest w Hreg w'.
  assert (Hrun : w' = run (forEach (ReplicationManifestData.statisticsDataFiles manifest)
                                   (loadStatisticsFile reader JSON_parse))
                          (run (forEach
                                  (ReplicationManifestData.entityPathDataFiles manifest)
                                  (loadEntityPathBatch reader JSON_parse))
                               (clearedEntities replicationId w))).
  { unfold w', run at 1; rewrite variant_setActiveReplication_spec, Hreg; reflexivity. }
  assert (Hadd : exists added,
            loadedStatisticsFiles (object w')
            = loadedStatisticsFiles (object w) ++ added
            /\ forall filePath statFile,
                 In (filePath, statFile) added ->
                 In filePath (map StatisticsDataFileInfo.filePath
                                  (ReplicationManifestData.statisticsDataFiles manifest))
                 /\ document reader JSON_parse TStatisticsFile filePath = Some statFile
                 /\ map_has filePath (loadedStatisticsFiles (object w)) = false).
  { rewrite Hrun, load_in_turn_spec.
    cbn [loadedStatisticsFiles set_loadedStatisticsFiles].
    rewrite (proj1 (load_all_keeps reader JSON_parse
                      (ReplicationManifestData.entityPathDataFiles manifest))
                   (clearedEntities replicationId w)).
    apply load_in_turn_appends. }
  split; [|split; [exact Hadd|]].
  - unfold result; rewrite variant_setActiveReplication_spec, Hreg; reflexivity.
  - intros type componentId metricName statFile Hfound.
    destruct Hadd as (added & Heq & _).
    unfold getStatistic, map_values in *; rewrite Heq, map_app.
    apply find_app_first; exact Hfound.
Qed.

Lemma X8_sample_leak :
  result (Variant.setActiveReplication SampleStudy.reader SampleStudy.JSON_parse 3)
         SampleLeak.first = true
  /\ map_keys (loadedStatisticsFiles (object SampleLeak.second))
     = ["rep1/queue.json"; "rep3/utilization.json"; "rep3/queue.json"]%string.
Proof.
  destruct (X8_variant_activation_keeps_statistics SampleStudy.reader
              SampleStudy.JSON_parse 3 SampleStudy.manifest3 SampleLeak.first eq_refl)
    as (Hres & _ & _).
  split; [exact Hres | reflexivity].
Defined.

(** X9: on an object whose statistics cache is empty, as it is until the
    first activation, the earlier variant's activation and the current one
    (its concurrent loads completing in issue order) return the same result
    and leave the same object. *)
Theorem X9_variants_agree_on_first_activation :
  forall (reader : FileReader.t)
         (JSON_parse : forall T : DocType, string -> option (docOf T))
         (replicationId : Z) (w : World),
    loadedStatisticsFiles (object w) = [] ->
    result (Variant.setActiveReplication reader JSON_parse replicationId) w
    = result (setActiveReplication reader JSON_parse [] replicationId) w
    /\ object (run (Variant.setActiveReplication reader JSON_parse replicationId) w)
       = object (run (setActiveReplication reader JSON_parse [] replicationId) w).
Proof.
  intros reader JSON_parse replicationId w Hempty.
  unfold result, run.
  rewrite variant_setActiveReplication_spec, setActiveReplication_spec.
  destruct (map_get replicationId (availableReplications (object w)))
    as [manifest|]; [|split; reflexivity].
  split; [reflexivity|]; cbn [fst snd].
  assert (Hsame : clearedEntities replicationId w = cleared replicationId w).
  { unfold clearedEntities, cleared; f_equal.
    destruct w as [o c]; destruct o; simpl in *; subst; reflexivity. }
  rewrite Hsame.
  set (loaded := run (forEach (ReplicationManifestData.entityPathDataFiles manifest)
                              (loadEntityPathBatch reader JSON_parse))
                     (cleared replicationId w)).
  assert (Hnone : loadedStatisticsFiles (object loaded) = []).
  { unfold loaded.
    rewrite (proj1 (load_all_keeps reader JSON_parse
                      (ReplicationManifestData.entityPathDataFiles manifest))
                   (cleared replicationId w)).
    reflexivity. }
  rewrite load_in_turn_spec, loadAllStatisticsFiles_spec; cbv zeta.
  cbn [object]; rewrite Hnone, filter_uncached_empty, completionOrder_fifo.
  rewrite load_in_turn_fifo; [reflexivity|].
  intros filePath statFile Hget; discriminate.
Qed.

Lemma X9_sample_first_activation :
  object (run (Variant.setActiveReplication SampleStudy.reader SampleStudy.JSON_parse 3)
              SampleStudy.discovered)
  = object (run (setActiveReplication SampleStudy.reader SampleStudy.JSON_parse [] 3)
                SampleStudy.discovered).
Proof.
  apply (X9_variants_agree_on_first_activation SampleStudy.reader
           SampleStudy.JSON_parse 3 SampleStudy.discovered).
  reflexivity.
Defined.

(* ================================================================== *)
(** ** Discovering again *)

Lemma object_ext (o o' : AnimationData.t) :
  availableReplications o = availableReplications o' ->
  modelLayout o = modelLayout o' ->
  sharedVisualConfig o = sharedVisualConfig o' ->
  activeReplicationId o = activeReplicationId o' ->
  loadedEntityPathBatches o = loadedEntityPathBatches o' ->
  entityPathsById o = entityPathsById o' ->
  loadedStatisticsFiles o = loadedStatisticsFiles o' ->
  o = o'.
Proof. destruct o, o'; simpl; intros; subst; reflexivity. Qed.

(** The manifest a key ends with: the last one registered under it. *)
Lemma registerAll_lookup manifests : forall registry k,
  map_get k (registerAll manifests registry) =
  fold_left
    (fun found manifest =>
       if Z.eqb k (ReplicationManifestMetadata.replication
                     (ReplicationManifestData.metadata manifest))
       then Some manifest else found)
    manifests (map_get k registry).
Proof.
  unfold registerAll; induction manifests as [|m rest IH]; intros registry k;
    simpl; [reflexivity|].
  rewrite IH, map_get_set; reflexivity.
Qed.

Lemma last_match_fold {A} (test : A -> bool) (l : list A) : forall found,
  fold_left (fun found a => if test a then Some a else found) l found =
  match fold_left (fun found a => if test a then Some a else found) l None with
  | Some a => Some a
  | None => found
  end.
Proof.
  induction l as [|a l IH]; intros found; simpl; [reflexivity|].
  destruct (test a); [|apply IH].
  rewrite (IH (Some a)).
  destruct (fold_left _ l None); reflexivity.
Qed.

Lemma registerAll_keys_present manifests : forall registry,
  (forall manifest, In manifest manifests ->
     In (ReplicationManifestMetadata.replication
           (ReplicationManifestData.metadata manifest)) (map_keys registry)) ->
  map_keys (registerAll manifests registry) = map_keys registry.
Proof.
  unfold registerAll; induction manifests as [|m rest IH]; intros registry Hall;
    simpl; [reflexivity|].
  rewrite IH.
  - apply map_set_keys_present, Hall; simpl; auto.
  - intros m' Hin; rewrite map_set_keys_present by (apply Hall; simpl; auto).
    apply Hall; simpl; auto.
Qed.

(** Registering the same manifests a second time changes nothing. *)
Lemma registerAll_idempotent manifests registry :
  uniqueKeys registry ->
  registerAll manifests (registerAll manifests registry)
  = registerAll manifests registry.
Proof.
  intros Hu; apply map_eq_by_lookup.
  - apply registerAll_keys_present; intros m Hin.
    apply registerAll_keys; right; exists m; auto.
  - apply registerAll_unique, registerAll_unique; exact Hu.
  - intros k; rewrite !registerAll_lookup.
    rewrite (last_match_fold _ manifests (fold_left _ manifests (map_get k registry))).
    rewrite (last_match_fold _ manifests (map_get k registry)).
    destruct (fold_left _ manifests None); reflexivity.
Qed.

Section RediscoveryFacts.
Variable reader : FileReader.t.
Variable JSON_parse : forall T : DocType, string -> option (docOf T).

Local Abbreviation discover := (initializeOrDiscoverReplications reader JSON_parse).

Lemma discovery_layout w :
  modelLayout (object (run discover w)) =
  match modelLayout (object w) with
  | Some layout => Some layout
  | None =>
      match FileReader.listDirectoryContents reader "replications" with
      | Some items =>
          firstDocument reader JSON_parse TModelLayout
            (declaredPaths ReplicationManifestMetadata.modelLayoutPath
                           (discoveredManifests reader JSON_parse items))
      | None => None
      end
  end.
Proof.
  rewrite discovery_spec.
  destruct (modelLayout (object w)) as [layout|] eqn:E;
    destruct (FileReader.listDirectoryContents reader "replications") as [items|];
    try exact E.
  - apply (discovery_loop_layout_set reader JSON_parse items
             (logged (ListDirectory "replications") w) layout E).
  - apply (discovery_loop_layout_unset reader JSON_parse items
             (logged (ListDirectory "replications") w) E).
Qed.

Lemma discovery_config w :
  sharedVisualConfig (object (run discover w)) =
  match sharedVisualConfig (object w) with
  | Some config => Some config
  | None =>
      match FileReader.listDirectoryContents reader "replications" with
      | Some items =>
          firstDocument reader JSON_parse TSharedVisualConfig
            (declaredPaths ReplicationManifestMetadata.sharedVisualConfigPath
                           (discoveredManifests reader JSON_parse items))
      | None => None
      end
  end.
Proof.
  rewrite discovery_spec.
  destruct (sharedVisualConfig (object w)) as [config|] eqn:E;
    destruct (FileReader.listDirectoryContents reader "replications") as [items|];
    try exact E.
  - apply (discovery_loop_config_set reader JSON_parse items
             (logged (ListDirectory "replications") w) config E).
  - apply (discovery_loop_config_unset reader JSON_parse items
             (logged (ListDirectory "replications") w) E).
Qed.

Lemma discovery_registry w :
  availableReplications (object (run discover w)) =
  match FileReader.listDirectoryContents reader "replications" with
  | Some items =>
      registerAll (discoveredManifests reader JSON_parse items)
                  (availableReplications (object w))
  | None => availableReplications (object w)
  end.
Proof.
  rewrite discovery_spec.
  destruct (FileReader.listDirectoryContents reader "replications") as [items|];
    [|reflexivity].
  apply (discovery_loop_registry reader JSON_parse items
           (logged (ListDirectory "replications") w)).
Qed.
End RediscoveryFacts.

(** X10: discovering a second time against an unchanged study leaves the
    object exactly as the first discovery left it: ids already registered are
    overwritten in place with the same manifests, none is duplicated or
    reordered, and the shared documents and the caches stay as they are. *)
Theorem X10_rediscovery_changes_nothing :
  forall (reader : FileReader.t)
         (JSON_parse : forall T : DocType, string -> option (docOf T))
         (w : World),
    uniqueKeys (availableReplications (object w)) ->
    let once := run (initializeOrDiscoverReplications reader JSON_parse) w in
    let twice := run (initializeOrDiscoverReplications reader JSON_parse) once in
    object twice = object once.
Proof.
  intros reader JSON_parse w Hu once twice.
  destruct (discovery_keeps_caches reader JSON_parse) as (Kb & Ki & Ks & Ka).
  apply object_ext.
  - unfold twice; rewrite discovery_registry; unfold once.
    rewrite discovery_registry.
    destruct (FileReader.listDirectoryContents reader "replications") as [items|];
      [|reflexivity].
    apply registerAll_idempotent; exact Hu.
  - unfold twice; rewrite discovery_layout; unfold once.
    rewrite discovery_layout.
    destruct (modelLayout (object w)); [reflexivity|].
    destruct (FileReader.listDirectoryContents reader "replications"); [|reflexivity].
    destruct (firstDocument _ _ _ _); reflexivity.
  - unfold twice; rewrite discovery_config; unfold once.
    rewrite discovery_config.
    destruct (sharedVisualConfig (object w)); [reflexivity|].
    destruct (FileReader.listDirectoryContents reader "replications"); [|reflexivity].
    destruct (firstDocument _ _ _ _); reflexivity.
  - apply Ka.
  - apply Kb.
  - apply Ki.
  - apply Ks.
Qed.

Lemma X10_sample_rediscovery :
  object (run (initializeOrDiscoverReplications SampleStudy.reader
                                                SampleStudy.JSON_parse)
              SampleStudy.discovered)
  = object SampleStudy.discovered.
Proof.
  apply (X10_rediscovery_changes_nothing SampleStudy.reader SampleStudy.JSON_parse
           initial).
  constructor.
Defined.

(* ================================================================== *)
(** ** Statistics after an activation *)

Section StatisticsAvailability.
Variable reader : FileReader.t.
Variable JSON_parse : forall T : DocType, string -> option (docOf T).

(** The entries of the statistics cache after a successful activation. *)
Lemma activation_statistics_entries order replicationId manifest w filePath statFile :
  map_get replicationId (availableReplications (object w)) = Some manifest ->
  In (filePath, statFile)
     (loadedStatisticsFiles
        (object (run (setActiveReplication reader JSON_parse order replicationId) w)))
  <->
  In filePath (map StatisticsDataFileInfo.filePath
                   (ReplicationManifestData.statisticsDataFiles manifest))
  /\ document reader JSON_parse TStatisticsFile filePath = Some statFile.
Proof.
  intros Hreg; split.
  - rewrite (proj1 (activation_statistics reader JSON_parse order _ _ w Hreg)).
    set (paths := map StatisticsDataFileInfo.filePath
                      (ReplicationManifestData.statisticsDataFiles manifest)).
    set (pending := map (fun p => (p, document reader JSON_parse TStatisticsFile p))
                        paths).
    intros Hin.
    assert (Hall :
      Forall (fun entry =>
                In (fst entry) paths
                /\ document reader JSON_parse TStatisticsFile (fst entry)
                   = Some (snd entry))
             (fold_left applyCompleted (completionOrder order pending) [])).
    { apply resumed_Forall; [|constructor].
      intros p f Hp.
      apply (Permutation_in _ (completionOrder_Permutation order pending)) in Hp.
      unfold pending in Hp; apply in_map_iff in Hp.
      destruct Hp as (q & [= <- Hdoc] & Hq); simpl; auto. }
    rewrite Forall_forall in Hall; exact (Hall _ Hin).
  - intros [Hin Hdoc]; apply map_get_Some_In.
    rewrite (activation_statistics_lookup reader JSON_parse order _ _ w filePath Hreg).
    apply mem_In in Hin; rewrite Hin; exact Hdoc.
Qed.
End StatisticsAvailability.

(** X11: after a successful activation a statistic is available exactly when
    one of the statistics files the manifest references can be read and
    carries the queried key in its own metadata; the file returned is such a
    file.  The type, component and metric the manifest entry declares for the
    path play no part. *)
Theorem X11_statistic_available_iff_a_manifest_file_has_the_key :
  forall (reader : FileReader.t)
         (JSON_parse : forall T : DocType, string -> option (docOf T))
         (order : list nat) (replicationId : Z)
         (manifest : ReplicationManifestData.t) (w : World)
         (type componentId metricName : string),
    map_get replicationId (availableReplications (object w)) = Some manifest ->
    let w' := run (setActiveReplication reader JSON_parse order replicationId) w in
    (getStatistic (object w') type componentId metricName <> None <->
     exists fileInfo statFile,
       In fileInfo (ReplicationManifestData.statisticsDataFiles manifest)
       /\ document reader JSON_parse TStatisticsFile
            (StatisticsDataFileInfo.filePath fileInfo) = Some statFile
       /\ hasKey type componentId metricName statFile)
    /\ (forall statFile,
          getStatistic (object w') type componentId metricName = Some statFile ->
          hasKey type componentId metricName statFile
          /\ exists fileInfo,
               In fileInfo (ReplicationManifestData.statisticsDataFiles manifest)
               /\ document reader JSON_parse TStatisticsFile
                    (StatisticsDataFileInfo.filePath fileInfo) = Some statFile).
Proof.
  intros reader JSON_parse order replicationId manifest w type componentId
         metricName Hreg w'.
  assert (Hentries : forall statFile,
            In statFile (map_values (loadedStatisticsFiles (object w'))) <->
            exists fileInfo,
              In fileInfo (ReplicationManifestData.statisticsDataFiles manifest)
              /\ document reader JSON_parse TStatisticsFile
                   (StatisticsDataFileInfo.filePath fileInfo) = Some statFile).
  { intros statFile; unfold map_values; rewrite in_map_iff; split.
    - intros ([p f] & Hf & Hin); simpl in Hf; subst f.
      apply (activation_statistics_entries reader JSON_parse order _ _ w p statFile
               Hreg) in Hin.
      destruct Hin as [Hp Hdoc]; apply in_map_iff in Hp.
      destruct Hp as (fileInfo & <- & Hf); exists fileInfo; auto.
    - intros (fileInfo & Hf & Hdoc).
      exists (StatisticsDataFileInfo.filePath fileInfo, statFile); split;
        [reflexivity|].
      apply (activation_statistics_entries reader JSON_parse order _ _ w _ statFile
               Hreg).
      split; [apply in_map; exact Hf | exact Hdoc]. }
  split.
  - split.
    + intros Hsome.
      destruct (getStatistic (object w') type componentId metricName)
        as [statFile|] eqn:Es; [|congruence].
      apply getStatistic_Some in Es; destruct Es as [Hin Hkey].
      apply Hentries in Hin; destruct Hin as (fileInfo & Hf & Hdoc).
      exists fileInfo, statFile; auto.
    + intros (fileInfo & statFile & Hf & Hdoc & Hkey) Hnone.
      rewrite getStatistic_None in Hnone.
      apply (Hnone statFile); [|exact Hkey].
      apply Hentries; exists fileInfo; auto.
  - intros statFile Es; apply getStatistic_Some in Es; destruct Es as [Hin Hkey].
    split; [exact Hkey | apply Hentries; exact Hin].
Qed.

Lemma X11_sample_statistic :
  getStatistic (object SampleStudy.active3) "activity_metric" "act1" "utilization"
  <> None.
Proof.
  apply (X11_statistic_available_iff_a_manifest_file_has_the_key
           SampleStudy.reader SampleStudy.JSON_parse [1%nat] 3 SampleStudy.manifest3
           SampleStudy.active1 "activity_metric" "act1" "utilization" eq_refl).
  exists (SampleStudy.statisticsFile "utilization" "rep3/utilization.json"),
         SampleStatistics.utilization.
  repeat split; simpl; auto.
Defined.

(** X12: [getStatistic] and the queries built on it answer from the first
    cached file, in cache order, that has the key: a later file with the same
    key is never consulted. *)
Theorem X12_first_cached_file_with_the_key_answers :
  forall (this : AnimationData.t) (type componentId metricName : string)
         (earlier later : Map string StatisticsFile.t)
         (filePath : string) (statFile : StatisticsFile.t),
    loadedStatisticsFiles this = earlier ++ (filePath, statFile) :: later ->
    hasKey type componentId metricName statFile ->
    (forall otherPath other, In (otherPath, other) earlier ->
                             ~ hasKey type componentId metricName other) ->
    getStatistic this type componentId metricName = Some statFile
    /\ getStatisticSummary this type componentId metricName
       = Some (StatisticsFile.summary statFile)
    /\ (forall start end_,
          getStatisticTimeSeriesForRange this type componentId metricName start end_
          = filter (inRange start end_) (StatisticsFile.timeSeries statFile))
    /\ (forall time,
          getStatisticValueAtTime this type componentId metricName time
          = interpolation_loop (StatisticsFile.timeSeries statFile) time 0
              (List.length (StatisticsFile.timeSeries statFile) - 1)).
Proof.
  intros this type componentId metricName earlier later filePath statFile
         Hcache Hkey Hearlier.
  assert (Hfound : getStatistic this type componentId metricName = Some statFile).
  { unfold getStatistic, map_values; rewrite Hcache, map_app; simpl.
    clear Hcache; induction earlier as [|[p f] rest IH]; simpl.
    - rewrite (proj2 (matchesStatistic_hasKey type componentId metricName statFile)
                     Hkey); reflexivity.
    - destruct (matchesStatistic type componentId metricName f) eqn:E.
      + apply matchesStatistic_hasKey in E.
        exfalso; apply (Hearlier p f); simpl; auto.
      + apply IH; intros q g Hin; apply (Hearlier q g); simpl; auto. }
  unfold getStatisticSummary, getStatisticTimeSeriesForRange, getStatisticValueAtTime.
  rewrite Hfound; repeat split.
Qed.

Lemma X12_sample_first_match :
  getStatistic SampleStatistics.data "activity_metric" "act1" "queueLength"
  = Some SampleStatistics.queueLength.
Proof.
  apply (X12_first_cached_file_with_the_key_answers SampleStatistics.data
           "activity_metric" "act1" "queueLength"
           [("stats/utilization.json"%string, SampleStatistics.utilization)] []
           "stats/queue.json" SampleStatistics.queueLength).
  - reflexivity.
  - repeat split.
  - intros otherPath other [[= _ <-] | []] (_ & Hmetric & _); discriminate.
Defined.

(* ================================================================== *)
(** ** The interpolated value and the range query at their edges *)

Lemma js_le_trans a b c :
  js_le a b = true -> js_le b c = true -> js_le a c = true.
Proof.
  destruct a as [x| | |], b as [y| | |], c as [z| | |]; simpl;
    try discriminate; try reflexivity.
  rewrite !Qle_bool_iff; apply Qle_trans.
Qed.

Lemma filter_filter_implied {A} (f g : A -> bool) (l : list A) :
  (forall a, g a = true -> f a = true) ->
  filter g (filter f l) = filter g l.
Proof.
  intros Himp; induction l as [|a l IH]; simpl; [reflexivity|].
  destruct (f a) eqn:Ef; simpl.
  - rewrite IH; reflexivity.
  - destruct (g a) eqn:Eg; [|exact IH].
    rewrite (Himp a Eg) in Ef; discriminate.
Qed.

(** X14: what the two time queries do with a time that is not finite (the
    samples being finite).  [getStatisticValueAtTime] yields no value at NaN,
    at +Infinity and at -Infinity, whatever is cached;
    [getStatisticTimeSeriesForRange] yields the empty sequence as soon as one
    bound is NaN, the start is +Infinity or the end is -Infinity, and the
    whole matched series from -Infinity to +Infinity. *)
Theorem X14_queries_at_non_finite_times :
  forall (this : AnimationData.t) (type componentId metricName : string),
    getStatisticValueAtTime this type componentId metricName NaN = None
    /\ getStatisticValueAtTime this type componentId metricName PosInf = None
    /\ getStatisticValueAtTime this type componentId metricName NegInf = None
    /\ (forall bound,
          getStatisticTimeSeriesForRange this type componentId metricName NaN bound
          = []
          /\ getStatisticTimeSeriesForRange this type componentId metricName bound NaN
             = []
          /\ getStatisticTimeSeriesForRange this type componentId metricName
               PosInf bound = []
          /\ getStatisticTimeSeriesForRange this type componentId metricName
               bound NegInf = [])
    /\ getStatisticTimeSeriesForRange this type componentId metricName NegInf PosInf
       = match getStatistic this type componentId metricName with
         | Some stat => StatisticsFile.timeSeries stat
         | None => []
         end.
Proof.
  intros this type componentId metricName.
  unfold getStatisticValueAtTime, getStatisticTimeSeriesForRange.
  destruct (getStatistic this type componentId metricName) as [stat|].
  - repeat split.
    + apply scan_None; intros i p q _ _; reflexivity.
    + apply scan_None; intros i p q _ _; reflexivity.
    + apply scan_None; intros i p q _ _; reflexivity.
    + apply filter_all_false; intros point _; reflexivity.
    + apply filter_all_false; intros point _; unfold inRange.
      apply andb_false_iff; right; reflexivity.
    + apply filter_all_false; intros point _; reflexivity.
    + apply filter_all_false; intros point _; unfold inRange.
      apply andb_false_iff; right; reflexivity.
    + induction (StatisticsFile.timeSeries stat) as [|point rest IH];
        simpl; [reflexivity|].
      f_equal; exact IH.
  - repeat split.
Qed.

(** X15: a range query can be answered from the result of any wider one:
    filtering the points returned for [start, end] by a range nested in it
    gives exactly what the query returns for the nested range. *)
Theorem X15_nested_range_from_wider_range :
  forall (this : AnimationData.t) (type componentId metricName : string)
         (start end_ start' end' : number),
    js_le start start' = true ->
    js_le end' end_ = true ->
    filter (inRange start' end')
           (getStatisticTimeSeriesForRange this type componentId metricName
              start end_)
    = getStatisticTimeSeriesForRange this type componentId metricName start' end'.
Proof.
  intros this type componentId metricName start end_ start' end' Hs He.
  unfold getStatisticTimeSeriesForRange.
  destruct (getStatistic this type componentId metricName) as [stat|];
    [|reflexivity].
  apply filter_filter_implied; intros point; unfold inRange, js_ge.
  rewrite !andb_true_iff; intros [Hlo Hhi]; split.
  - exact (js_le_trans _ _ _ Hs Hlo).
  - exact (js_le_trans _ _ _ Hhi He).
Qed.

Lemma X15_sample_nested_range :
  filter (inRange (Num 3) (Num 5))
         (getStatisticTimeSeriesForRange SampleStatistics.data "activity_metric"
            "act1" "utilization" (Num 0) PosInf)
  = [SampleStatistics.point 4 1].
Proof.
  rewrite (X15_nested_range_from_wider_range SampleStatistics.data
             "activity_metric" "act1" "utilization" (Num 0) PosInf (Num 3) (Num 5)
             eq_refl eq_refl).
  reflexivity.
Defined.

(* ================================================================== *)
(** ** Discovery and the loaded data *)

(** X16: discovery never disturbs what an activation loaded and never
    unregisters a replication: the active id, the loaded entity ids, the
    entities of every type and every statistic are after a discovery what
    they were before it, and every id registered before is registered
    after. *)
Theorem X16_discovery_leaves_loaded_data :
  forall (reader : FileReader.t)
         (JSON_parse : forall T : DocType, string -> option (docOf T))
         (w : World),
    let w' := run (initializeOrDiscoverReplications reader JSON_parse) w in
    getActiveReplicationId (object w') = getActiveReplicationId (object w)
    /\ getLoadedEntityIds (object w') = getLoadedEntityIds (object w)
    /\ (forall type,
          getEntitiesByType (object w') type = getEntitiesByType (object w) type)
    /\ (forall type componentId metricName,
          getStatistic (object w') type componentId metricName
          = getStatistic (object w) type componentId metricName)
    /\ (forall replicationId,
          map_has replicationId (availableReplications (object w)) = true ->
          map_has replicationId (availableReplications (object w')) = true).
Proof.
  intros reader JSON_parse w w'.
  destruct (discovery_keeps_caches reader JSON_parse) as (Kb & Ki & Ks & Ka).
  unfold getActiveReplicationId, getLoadedEntityIds, getEntitiesByType, getStatistic.
  unfold w'; rewrite (Ka w), (Ki w), (Ks w).
  repeat split.
  intros replicationId Hhas.
  apply map_has_In, discovery_registry_grows, map_has_In; exact Hhas.
Qed.

(* ================================================================== *)
(** ** Activating again *)

(** Two maps without duplicate keys that agree at every key hold the same
    entries. *)
Lemma same_lookups_Permutation {V} (m1 m2 : Map string V) :
  uniqueKeys m1 -> uniqueKeys m2 ->
  (forall k, map_get k m1 = map_get k m2) ->
  Permutation m1 m2.
Proof.
  intros H1 H2 Hget; apply NoDup_Permutation.
  - exact (NoDup_map_inv fst m1 H1).
  - exact (NoDup_map_inv fst m2 H2).
  - intros [k v]; split; intros Hin.
    + apply map_get_Some_In; rewrite <- Hget; apply unique_lookup_In; assumption.
    + apply map_get_Some_In; rewrite Hget; apply unique_lookup_In; assumption.
Qed.

(** C8 (as the code has it): activating a registered replication a second time
    starts from nothing again.  It fetches every batch path and every
    statistics path of the manifest anew, and its caches hold, at each path
    the manifest references, the document read there and nothing else; so it
    ends with the same entity index and the same batch cache as a single
    activation, and with a statistics cache of the same entries.  The order of
    those entries is the order in which the concurrent loads completed: the
    statistics caches are equal as ordered maps when the loads complete in
    the same order. *)
Theorem C8_reactivation_reloads_everything :
  forall (reader : FileReader.t)
         (JSON_parse : forall T : DocType, string -> option (docOf T))
         (order order1 order2 : list nat) (replicationId : Z)
         (manifest : ReplicationManifestData.t) (w : World),
    map_get replicationId (availableReplications (object w)) = Some manifest ->
    let once := run (setActiveReplication reader JSON_parse order replicationId) w in
    let first := run (setActiveReplication reader JSON_parse order1 replicationId) w in
    let twice :=
      run (setActiveReplication reader JSON_parse order2 replicationId) first in
    let batchPaths := map EntityPathDataFileInfo.filePath
                          (ReplicationManifestData.entityPathDataFiles manifest) in
    let statisticsPaths := map StatisticsDataFileInfo.filePath
                             (ReplicationManifestData.statisticsDataFiles manifest) in
    result (setActiveReplication reader JSON_parse order2 replicationId) first = true
    /\ entityPathsById (object twice) = entityPathsById (object once)
    /\ loadedEntityPathBatches (object twice) = loadedEntityPathBatches (object once)
    /\ (forall filePath,
          map_get filePath (loadedStatisticsFiles (object twice))
          = map_get filePath (loadedStatisticsFiles (object once)))
    /\ Permutation (loadedStatisticsFiles (object twice))
                   (loadedStatisticsFiles (object once))
    /\ (order2 = order -> sameCaches (object twice) (object once))
    /\ (forall filePath,
          map_get filePath (loadedEntityPathBatches (object twice)) =
          if mem filePath batchPaths
          then document reader JSON_parse TEntityPathBatch filePath
          else None)
    /\ entityPathsById (object twice)
       = lastWriteWinsUnion (loadedEntityPathBatches (object twice))
    /\ (forall filePath,
          map_get filePath (loadedStatisticsFiles (object twice)) =
          if mem filePath statisticsPaths
          then document reader JSON_parse TStatisticsFile filePath
          else None)
    /\ exists batchCalls,
         calls twice = calls first ++ batchCalls
                       ++ map (Fetch TStatisticsFile) statisticsPaths
         /\ (forall e, In e batchCalls ->
               exists filePath,
                 In filePath batchPaths /\ e = Fetch TEntityPathBatch filePath)
         /\ (forall filePath, In filePath batchPaths ->
               In (Fetch TEntityPathBatch filePath) batchCalls).
Proof.
  intros reader JSON_parse order order1 order2 replicationId manifest w Hreg
         once first twice batchPaths statisticsPaths.
  assert (Hreg1 : map_get replicationId (availableReplications (object first))
                  = Some manifest).
  { unfold first.
    rewrite (proj1 (activation_keeps reader JSON_parse order1 replicationId) w).
    exact Hreg. }
  set (files := ReplicationManifestData.entityPathDataFiles manifest) in *.
  set (stats := ReplicationManifestData.statisticsDataFiles manifest) in *.
  assert (Hentities : forall o o' : list nat,
    let a := run (setActiveReplication reader JSON_parse o replicationId) first in
    let b := run (setActiveReplication reader JSON_parse o' replicationId) w in
    entityPathsById (object a) = entityPathsById (object b)
    /\ loadedEntityPathBatches (object a) = loadedEntityPathBatches (object b)).
  { intros o o' a b; unfold a, b.
    rewrite (proj1 (activation_run reader JSON_parse o _ _ first Hreg1)).
    rewrite (proj1 (activation_run reader JSON_parse o' _ _ w Hreg)).
    fold files stats.
    destruct (loadAllStatisticsFiles_keeps_entities reader JSON_parse o stats
                (run (forEach files (loadEntityPathBatch reader JSON_parse))
                     (cleared replicationId first))) as (Hb1 & Hi1 & _).
    destruct (loadAllStatisticsFiles_keeps_entities reader JSON_parse o' stats
                (run (forEach files (loadEntityPathBatch reader JSON_parse))
                     (cleared replicationId w))) as (Hb2 & Hi2 & _).
    rewrite Hb1, Hi1, Hb2, Hi2.
    destruct (loaded_entities_independent reader JSON_parse files
                (cleared replicationId first) (cleared replicationId w)
                eq_refl eq_refl) as [Hb Hi].
    split; assumption. }
  assert (Hlookup : forall filePath,
            map_get filePath (loadedStatisticsFiles (object twice))
            = map_get filePath (loadedStatisticsFiles (object once))).
  { intros filePath; unfold twice, once.
    rewrite (activation_statistics_lookup reader JSON_parse order2 _ _ first filePath Hreg1).
    rewrite (activation_statistics_lookup reader JSON_parse order _ _ w filePath Hreg).
    reflexivity. }
  split; [exact (proj2 (activation_run reader JSON_parse order2 _ _ first Hreg1))|].
  split; [exact (proj1 (Hentities order2 order))|].
  split; [exact (proj2 (Hentities order2 order))|].
  split; [exact Hlookup|].
  split; [|split; [|split; [|split; [|split]]]].
  - apply same_lookups_Permutation; [| |exact Hlookup].
    + unfold twice.
      rewrite (proj1 (activation_statistics reader JSON_parse order2 _ _ first Hreg1)).
      apply resumed_unique; constructor.
    + unfold once.
      rewrite (proj1 (activation_statistics reader JSON_parse order _ _ w Hreg)).
      apply resumed_unique; constructor.
  - intros ->; unfold twice, once.
    apply (activation_independent reader JSON_parse order replicationId manifest);
      assumption.
  - intros filePath; unfold twice.
    rewrite (proj1 (activation_run reader JSON_parse order2 _ _ first Hreg1)).
    fold files stats.
    rewrite (proj1 (loadAllStatisticsFiles_keeps_entities reader JSON_parse order2
                      stats _)).
    rewrite loaded_batches_lookup; reflexivity.
  - apply activation_consistent; right; congruence.
  - intros filePath.
    apply (activation_statistics_lookup reader JSON_parse order2 _ _ first filePath
             Hreg1).
  - destruct (load_all_calls reader JSON_parse files (cleared replicationId first))
      as (batchCalls & Hcalls & Honly & Hevery).
    exists batchCalls; split; [|split].
    + unfold twice.
      rewrite (proj2 (activation_statistics reader JSON_parse order2 _ _ first Hreg1)).
      fold files; rewrite Hcalls, <- app_assoc; reflexivity.
    + intros e He; destruct (Honly e He) as (f & Hf & ->).
      exists (EntityPathDataFileInfo.filePath f); split; [|reflexivity].
      apply in_map; exact Hf.
    + intros filePath Hin; apply in_map_iff in Hin.
      destruct Hin as (f & <- & Hf); apply Hevery; [exact Hf | reflexivity].
Qed.

Lemma C8_sample_reactivation :
  sameCaches
    (object (run (setActiveReplication SampleStudy.reader SampleStudy.JSON_parse
                                       [1%nat] 3) SampleStudy.active3))
    (object SampleStudy.active3).
Proof.
  destruct (C8_reactivation_reloads_everything SampleStudy.reader
              SampleStudy.JSON_parse [1%nat] [1%nat] [1%nat] 3 SampleStudy.manifest3
              SampleStudy.active1 eq_refl) as (_ & _ & _ & _ & _ & Hsame & _).
  exact (Hsame eq_refl).
Defined.

(** Activated once with its two statistics loads completing in issue order,
    the fifth replication answers the queue-length query from the first file;
    activated a second time with the loads completing the other way round, it
    answers from the rerun: the statistics cache is not the same. *)
Lemma C8_statistics_cache_depends_on_completion_order :
  let registered := run (register 5 SampleStudy.manifest5) initial in
  let once :=
    run (setActiveReplication SampleStudy.reader SampleStudy.JSON_parse [] 5)
        registered in
  let twice :=
    run (setActiveReplication SampleStudy.reader SampleStudy.JSON_parse [1%nat] 5)
        once in
  map_keys (loadedStatisticsFiles (object once))
  = ["rep5/queue.json"; "rep5/queue_rerun.json"]%string
  /\ map_keys (loadedStatisticsFiles (object twice))
     = ["rep5/queue_rerun.json"; "rep5/queue.json"]%string
  /\ loadedStatisticsFiles (object twice) <> loadedStatisticsFiles (object once)
  /\ getStatistic (object once) "activity_metric" "act1" "queueLength"
     = Some SampleStatistics.queueLength
  /\ getStatistic (object twice) "activity_metric" "act1" "queueLength"
     = Some SampleStatistics.queueLengthRerun
  /\ getStatistic (object twice) "activity_metric" "act1" "queueLength"
     <> getStatistic (object once) "activity_metric" "act1" "queueLength".
Proof.
  cbv zeta; repeat split; try reflexivity.
  - intros H; apply (f_equal (@map_keys string StatisticsFile.t)) in H.
    vm_compute in H; discriminate H.
  - vm_compute; discriminate.
Qed.

(* ================================================================== *)
(** ** The value query on doubles *)

(** *** The specification of the format *)

Section SpecFloatFacts.
Import SpecFloat FloatOps.
Local Open Scope Z_scope.






(** *** The difference of two doubles in order is positive

    Rounding a positive integer at an exponent that is not below the least
    one never gives zero: with gradual underflow the difference of two
    distinct doubles is not zero. *)














End SpecFloatFacts.

(** *** The primitive operations *)

Section Binary64Facts.
Import PrimFloat SpecFloat FloatOps FloatAxioms.
Local Open Scope float_scope.

(** A finite number, on the side of the specification. *)
Local Abbreviation finite_number x :=
  (match x with S754_zero _ | S754_finite _ _ _ => True | _ => False end).



















(** *** The scan *)


End Binary64Facts.

Section ValueAtSample.
Import PrimFloat SpecFloat FloatOps FloatAxioms.
Local Open Scope float_scope.




End ValueAtSample.
